(** * Predicting house sale prices: the notebook pipeline

    A shallow embedding of the three functions of the notebook
    "Project-Predicting House Sale Prices" in their final form
    ([transform_features], [select_features], [train_and_test]) and of the
    pandas / scikit-learn operations they call.  The earlier versions of
    the functions, which the notebook defines on its way to the final ones,
    are in the modules [FirstDraft] and [SecondDraft].

    Conventions.
    - A Python exception is a value [Raise e] of the [result] monad.
    - Numbers are exact rationals ([Q]); [np.sqrt] is the real square root.
      Rounding of IEEE doubles is not modelled.  Where the result of the
      code depends on it, the floating-point routine is a parameter: the
      coefficient of the correlation filter ([correlation_filter_by]).
      The difference of two int64 columns wraps around as in NumPy.
    - A table is column-major: an index of row labels and a list of named,
      typed columns, every cell being either missing (NaN) or a value. *)

From Stdlib Require Import String List ZArith QArith Qabs Qround Bool Arith Lia.
From Stdlib Require Import DecimalString Lqa Reals Lra Qreals Permutation.
Import ListNotations.

(** ** Python exceptions *)

Module Py.

Inductive exn := KeyError | IndexError | TypeError | ValueError.

Inductive result (A : Type) : Type :=
| Ok (a : A)
| Raise (e : exn).

Arguments Ok {A} a.
Arguments Raise {A} e.

Definition bind {A B} (c : result A) (k : A -> result B) : result B :=
  match c with
  | Ok a => k a
  | Raise e => Raise e
  end.

Definition raises {A} (c : result A) : Prop := exists e, c = Raise e.

End Py.

Export Py.

Notation "x <- c ;; k" := (bind c (fun x => k))
  (at level 61, c at next level, right associativity).

(** ** Tables *)

Module Pandas.

(** The dtype kinds that [select_dtypes] tells apart: ['integer'] (int64;
    the uint8 of indicator columns is of this kind too, and takes part in
    no arithmetic here), ['float'], ['object'] and ['category']. *)
Inductive dtype := Integer | Floating | Object | Category.

Definition dtype_eqb (a b : dtype) : bool :=
  match a, b with
  | Integer, Integer | Floating, Floating
  | Object, Object | Category, Category => true
  | _, _ => false
  end.

Inductive value :=
| Num (q : Q)
| Str (s : string).

(** [None] is a missing value (NaN / None). *)
Definition cell := option value.

Record series := mkSeries {
  sname : string;
  sdtype : dtype;
  scells : list cell
}.

Record frame := mkFrame {
  index : list Z;
  columns : list series
}.

(** [len(df)] *)
Definition len (df : frame) : nat := length (index df).

Definition column_names (df : frame) : list string := map sname (columns df).

Definition has_column (df : frame) (l : string) : bool :=
  existsb (fun c => String.eqb l (sname c)) (columns df).

Definition mem_string (l : string) (ls : list string) : bool :=
  existsb (String.eqb l) ls.

Definition Qlt_bool (x y : Q) : bool := negb (Qle_bool y x).

Definition value_eqb (a b : value) : bool :=
  match a, b with
  | Num p, Num q => Qeq_bool p q
  | Str s, Str t => String.eqb s t
  | _, _ => false
  end.

(** Order used where pandas sorts values (modes, categories). *)
Definition value_ltb (a b : value) : bool :=
  match a, b with
  | Num p, Num q => Qlt_bool p q
  | Str s, Str t => String.ltb s t
  | Num _, Str _ => true
  | Str _, Num _ => false
  end.

Definition is_missing (c : cell) : bool :=
  match c with None => true | Some _ => false end.

(** [s.isnull().sum()] *)
Definition count_missing (cs : list cell) : nat :=
  length (filter is_missing cs).

(** [df.isnull().sum()]: a count per column label. *)
Definition isnull_sum (df : frame) : list (string * nat) :=
  map (fun c => (sname c, count_missing (scells c))) (columns df).

(** [df.select_dtypes(include=kinds)] *)
Definition select_dtypes (kinds : list dtype) (df : frame) : frame :=
  mkFrame (index df)
    (filter (fun c => existsb (dtype_eqb (sdtype c)) kinds) (columns df)).

Definition numeric_kinds : list dtype := [Integer; Floating].

Definition is_numeric (c : series) : bool :=
  existsb (dtype_eqb (sdtype c)) numeric_kinds.

(** [df.drop(labels, axis=1)]: every column carrying one of the labels goes;
    a label that names no column is a [KeyError]. *)
Definition drop_columns (labels : list string) (df : frame) : result frame :=
  if forallb (has_column df) labels
  then Ok (mkFrame (index df)
             (filter (fun c => negb (mem_string (sname c) labels)) (columns df)))
  else Raise KeyError.

(** [df.drop(labels, axis=0)]: every row carrying one of the labels goes;
    a label that names no row is a [KeyError]. *)
Definition mem_label (l : Z) (ls : list Z) : bool := existsb (Z.eqb l) ls.

Fixpoint mask_cells {A} (keep : list bool) (cs : list A) : list A :=
  match keep, cs with
  | k :: keep', c :: cs' =>
      if k then c :: mask_cells keep' cs' else mask_cells keep' cs'
  | _, _ => []
  end.

Definition mask_rows (keep : list bool) (df : frame) : frame :=
  mkFrame (mask_cells keep (index df))
    (map (fun c => mkSeries (sname c) (sdtype c) (mask_cells keep (scells c)))
         (columns df)).

Definition drop_rows (labels : list Z) (df : frame) : result frame :=
  if forallb (fun l => mem_label l (index df)) labels
  then Ok (mask_rows (map (fun l => negb (mem_label l labels)) (index df)) df)
  else Raise KeyError.

(** [df[label]]: the column of that name, else [KeyError]. *)
Definition getitem (l : string) (df : frame) : result series :=
  match find (fun c => String.eqb l (sname c)) (columns df) with
  | Some c => Ok c
  | None => Raise KeyError
  end.

(** [df[labels]]: the named columns, in the order asked. *)
Fixpoint getitems (labels : list string) (df : frame) : result (list series) :=
  match labels with
  | [] => Ok []
  | l :: ls =>
      c <- getitem l df ;;
      cs <- getitems ls df ;;
      Ok (c :: cs)
  end.

(** [df[label] = s]: overwrite the column in place, or append a new one. *)
Definition setitem (l : string) (s : series) (df : frame) : frame :=
  let s' := mkSeries l (sdtype s) (scells s) in
  if has_column df l
  then mkFrame (index df)
         (map (fun c => if String.eqb l (sname c) then s' else c) (columns df))
  else mkFrame (index df) (columns df ++ [s']).

(** Present values of a column. *)
Fixpoint present (cs : list cell) : list value :=
  match cs with
  | [] => []
  | Some v :: cs' => v :: present cs'
  | None :: cs' => present cs'
  end.

(** The distinct values of a list, in order of first appearance. *)
Fixpoint distinct (vs : list value) : list value :=
  match vs with
  | [] => []
  | v :: vs' => v :: filter (fun w => negb (value_eqb v w)) (distinct vs')
  end.

Definition occurrences (v : value) (vs : list value) : nat :=
  length (filter (value_eqb v) vs).

(** First row of [s.mode()]: the most frequent present value, the smallest
    one among ties; missing when the column has no present value. *)
Definition mode_first (cs : list cell) : cell :=
  let vs := present cs in
  fold_left
    (fun best v =>
       match best with
       | None => Some v
       | Some b =>
           let nb := occurrences b vs in
           let nv := occurrences v vs in
           if (nb <? nv)%nat || ((nb =? nv)%nat && value_ltb v b)
           then Some v else Some b
       end)
    (distinct vs) None.

(** [DataFrame(cols).mode().to_dict(orient='records')[0]]: the mode table
    has as many rows as the longest list of modes, so record 0 exists when
    some column has a present value; otherwise the list of records is empty
    and indexing it is an [IndexError]. *)
Definition mode_record0 (cols : list series) : result (list (string * cell)) :=
  if existsb (fun c => negb (forallb is_missing (scells c))) cols
  then Ok (map (fun c => (sname c, mode_first (scells c))) cols)
  else Raise IndexError.

Fixpoint lookup {A} (l : string) (d : list (string * A)) : option A :=
  match d with
  | [] => None
  | (k, v) :: d' => if String.eqb l k then Some v else lookup l d'
  end.

Definition fill_cell (v : value) (c : cell) : cell :=
  match c with None => Some v | Some _ => c end.

(** [df.fillna(d)] for a dict [d] from column label to replacement. *)
Definition fillna (d : list (string * cell)) (df : frame) : frame :=
  mkFrame (index df)
    (map (fun c =>
            match lookup (sname c) d with
            | Some (Some v) =>
                mkSeries (sname c) (sdtype c) (map (fill_cell v) (scells c))
            | _ => c
            end)
         (columns df)).

(** int64 arithmetic wraps around: the representative of [z] modulo 2^64
    between -2^63 and 2^63 - 1. *)
Definition wrap_int64 (z : Z) : Z := ((z + 2 ^ 63) mod 2 ^ 64 - 2 ^ 63)%Z.

(** The dtype of the difference of two columns. *)
Definition sub_dtype (a b : dtype) : dtype :=
  match a, b with
  | Integer, Integer => Integer
  | Integer, Floating | Floating, Integer | Floating, Floating => Floating
  | _, _ => Object
  end.

(** The difference of two numbers in a result of dtype [d].  Two int64
    columns are subtracted as int64, modulo 2^64 (their cells hold whole
    numbers); with a float operand the difference is a float (the sign of
    a float difference is that of the exact one; its rounding is not
    modelled), and Python numbers in object columns subtract exactly. *)
Definition sub_number (d : dtype) (p q : Q) : Q :=
  match d with
  | Integer => inject_Z (wrap_int64 (Qfloor p - Qfloor q))
  | _ => p - q
  end.

(** Element-wise difference of two columns of one table.  A missing operand
    gives a missing result; text operands are a [TypeError]. *)
Definition sub_cell (d : dtype) (a b : cell) : result cell :=
  match a, b with
  | Some (Num p), Some (Num q) => Ok (Some (Num (sub_number d p q)))
  | Some (Str _), _ | _, Some (Str _) => Raise TypeError
  | _, _ => Ok None
  end.

Fixpoint sub_cells (d : dtype) (xs ys : list cell) : result (list cell) :=
  match xs, ys with
  | x :: xs', y :: ys' =>
      c <- sub_cell d x y ;;
      cs <- sub_cells d xs' ys' ;;
      Ok (c :: cs)
  | _, _ => Ok []
  end.

Definition series_sub (a b : series) : result series :=
  match sdtype a, sdtype b with
  | Category, _ | _, Category => Raise TypeError
  | _, _ =>
      let d := sub_dtype (sdtype a) (sdtype b) in
      cs <- sub_cells d (scells a) (scells b) ;;
      Ok (mkSeries (sname a) d cs)
  end.

End Pandas.

Export Pandas.

(** ** [transform_features] *)

(** [num_missing > len(df)/20].  [len(df)/20] is a true division; for
    integers [m] and [n] the comparison [m > n/20] is [20*m > n]. *)
Definition above_5pct (df : frame) (m : nat) : bool := (len df <? 20 * m)%nat.

(** [(num_missing < len(df)/20) & (num_missing > 0)] *)
Definition fixable (df : frame) (m : nat) : bool :=
  ((20 * m <? len df) && (0 <? m))%nat.

Definition labels_where (p : nat -> bool) (counts : list (string * nat))
  : list string :=
  map fst (filter (fun e => p (snd e)) counts).

(** The [sort_values()] calls only order the labels handed to [drop] and to
    the column selection; neither result depends on that order, so the
    labels are kept in column order. *)
Definition transform_features (df : frame) : result frame :=
  let num_missing := isnull_sum df in
  let drop_missing_cols := labels_where (above_5pct df) num_missing in
  df <- drop_columns drop_missing_cols df ;;

  let text_mv_counts := isnull_sum (select_dtypes [Object] df) in
  let drop_missing_cols_2 := labels_where (fun m => (0 <? m)%nat) text_mv_counts in
  df <- drop_columns drop_missing_cols_2 df ;;

  let num_missing := isnull_sum (select_dtypes numeric_kinds df) in
  let fixable_numeric_cols := labels_where (fixable df) num_missing in
  fix_cols <- getitems fixable_numeric_cols df ;;
  replacement_values_dict <- mode_record0 fix_cols ;;
  let df := fillna replacement_values_dict df in

  yr_sold <- getitem "Yr Sold" df ;;
  year_built <- getitem "Year Built" df ;;
  years_sold <- series_sub yr_sold year_built ;;
  yr_sold <- getitem "Yr Sold" df ;;
  year_remod <- getitem "Year Remod/Add" df ;;
  years_since_remod <- series_sub yr_sold year_remod ;;
  let df := setitem "Years Before Sale" years_sold df in
  let df := setitem "Years Since Remod" years_since_remod df in
  df <- drop_rows [1702; 2180; 2181]%Z df ;;

  drop_columns
    ["PID"; "Order"; "Mo Sold"; "Sale Condition"; "Sale Type";
     "Year Built"; "Year Remod/Add"]%string df.

(** ** pandas: correlation *)

Module Stats.

Definition Qsum (l : list Q) : Q := fold_right Qplus 0 l.

Definition Qlen {A} (l : list A) : Q := inject_Z (Z.of_nat (length l)).

Definition num_of (c : cell) : option Q :=
  match c with
  | Some (Num q) => Some q
  | _ => None
  end.

(** Pairwise-complete observations of two columns, as [DataFrame.corr]
    takes them. *)
Fixpoint complete_pairs (xs ys : list cell) : list (Q * Q) :=
  match xs, ys with
  | x :: xs', y :: ys' =>
      match num_of x, num_of y with
      | Some p, Some q => (p, q) :: complete_pairs xs' ys'
      | _, _ => complete_pairs xs' ys'
      end
  | _, _ => []
  end.

(** Centred sums scaled by the number of observations:
    [n * sum (x - mean x) (y - mean y) = n * sum x y - sum x * sum y]. *)
Definition co_moment (ps : list (Q * Q)) (f g : Q * Q -> Q) : Q :=
  Qlen ps * Qsum (map (fun p => f p * g p) ps)
  - Qsum (map f ps) * Qsum (map g ps).

(** A Pearson coefficient [r = cov / sqrt vars], kept as the pair of the
    co-moment and the product of the two second moments, [vars > 0]. *)
Record coefficient := mkCoefficient { cov : Q; vars : Q }.

(** [None] is NaN: the coefficient of a column that is constant over the
    complete pairs, or that has fewer than two of them, is undefined. *)
Definition pearson (xs ys : list cell) : option coefficient :=
  let ps := complete_pairs xs ys in
  let v := co_moment ps fst fst * co_moment ps snd snd in
  if Qlt_bool 0 v then Some (mkCoefficient (co_moment ps fst snd) v) else None.

(** [abs(r) < t].  For [vars > 0] this is [0 < t] and [cov^2 < t^2 * vars];
    a comparison with NaN is [False]. *)
Definition abs_lt (r : option coefficient) (t : Q) : bool :=
  match r with
  | Some c => Qlt_bool 0 t && Qlt_bool (cov c * cov c) (t * t * vars c)
  | None => false
  end.

(** [abs(r) >= t], [False] for NaN as well. *)
Definition abs_ge (r : option coefficient) (t : Q) : bool :=
  match r with
  | Some c => Qle_bool t 0 || Qle_bool (t * t * vars c) (cov c * cov c)
  | None => false
  end.

(** A number [r] computed as the coefficient. *)
Definition computed (r : Q) : option coefficient :=
  Some (mkCoefficient r 1).

(** The real number a coefficient stands for. *)
Definition coefficient_value (c : coefficient) : R :=
  (Q2R (cov c) / sqrt (Q2R (vars c)))%R.

End Stats.

Export Stats.

(** ** Python: [str] of a float

    [repr(x)], which [str(x)] returns too: the shortest decimal numeral
    that is read back as [x], laid out with a decimal point, or in exponent
    notation from 1e16 on and below 1e-4. *)

Module PyFloat.

(** The decimal numeral of an integer. *)
Definition digits_of_Z (z : Z) : string :=
  DecimalString.NilZero.string_of_int (Z.to_int z).

(** [m * 2^p] and [m * 10^p] as rationals. *)
Definition scaled (base m p : Z) : Q :=
  if (0 <=? p)%Z then inject_Z (m * base ^ p)
  else Qmake m (Z.to_pos (base ^ (- p))).

(** The integer nearest to [n / d], a tie going to the even one ([d > 0]). *)
Definition round_half_even (n d : Z) : Z :=
  let q := (n / d)%Z in
  match (2 * (n mod d) ?= d)%Z with
  | Lt => q
  | Gt => (q + 1)%Z
  | Eq => if Z.even q then q else (q + 1)%Z
  end.

(** [base^k <= n / d], for positive [n] and [d]. *)
Definition power_le (base k n d : Z) : bool :=
  if (0 <=? k)%Z then (base ^ k * d <=? n)%Z else (d <=? n * base ^ (- k))%Z.

(** The largest [k] with [2^k <= n / d]. *)
Definition log2_floor (n d : Z) : Z :=
  let e := (Z.log2 n - Z.log2 d)%Z in
  if power_le 2 e n d then e else (e - 1)%Z.

(** The largest [k] with [10^k <= n / d]. *)
Definition log10_floor (n d : Z) : Z :=
  let k := (log2_floor n d * 30103 / 100000)%Z in
  if power_le 10 (k + 1) n d then (k + 1)%Z
  else if power_le 10 k n d then k
  else if power_le 10 (k - 1) n d then (k - 1)%Z
  else (k - 2)%Z.

(** [n / (d * base^p)] rounded to the nearest integer. *)
Definition round_scaled (base n d p : Z) : Z :=
  if (0 <=? p)%Z then round_half_even n (d * base ^ p)
  else round_half_even (n * base ^ (- p)) d.

(** The binary64 number nearest to a positive [n / d]: 53 significant
    bits, exponents down to -1074. *)
Definition nearest_double_pos (n d : Z) : Q :=
  let p := Z.max (log2_floor n d - 52) (-1074) in
  scaled 2 (round_scaled 2 n d p) p.

Definition nearest_double (x : Q) : Q :=
  match Qnum x with
  | Z0 => 0
  | Zpos n => nearest_double_pos (Zpos n) (Zpos (Qden x))
  | Zneg n => - nearest_double_pos (Zpos n) (Zpos (Qden x))
  end.

(** Whether the decimal [m * 10^s] is read back as the double [x]. *)
Definition reads_as (x : Q) (m s : Z) : bool :=
  Qeq_bool (nearest_double (scaled 10 m s)) x.

(** The decimal of [digits] significant digits nearest to the positive
    double [x = n / d] when it is read back as [x], else its neighbour on
    the other side of [x] when that one is. *)
Definition decimal_of (x : Q) (n d k : Z) (digits : nat)
  : option (Z * Z) :=
  let s := (k - Z.of_nat digits + 1)%Z in
  let m := round_scaled 10 n d s in
  let lo := if (0 <=? s)%Z then (n / (d * 10 ^ s))%Z
            else (n * 10 ^ (- s) / d)%Z in
  let other := if (m =? lo)%Z then (lo + 1)%Z else lo in
  if reads_as x m s then Some (m, s)
  else if reads_as x other s then Some (other, s)
  else None.

(** The shortest decimal that is read back as [x]: up to 17 digits. *)
Fixpoint shortest (x : Q) (n d k : Z) (fuel : nat) (digits : nat) : Z * Z :=
  match fuel with
  | O => (round_scaled 10 n d (k - 16), (k - 16)%Z)
  | S fuel' =>
      match decimal_of x n d k digits with
      | Some r => r
      | None => shortest x n d k fuel' (S digits)
      end
  end.

Fixpoint strip_zeros (fuel : nat) (m s : Z) : Z * Z :=
  match fuel with
  | O => (m, s)
  | S fuel' =>
      if ((m mod 10 =? 0) && negb (m =? 0))%Z%bool
      then strip_zeros fuel' (m / 10)%Z (s + 1)%Z
      else (m, s)
  end.

Fixpoint zeros (n : nat) : string :=
  match n with
  | O => EmptyString
  | S n' => ("0" ++ zeros n')%string
  end.

(** [repr] of a positive double from its digits and the position of the
    decimal point: exponent notation from 1e16 on and below 1e-4. *)
Definition layout (ds : string) (decpt : Z) : string :=
  let nd := Z.of_nat (String.length ds) in
  if ((decpt <=? -4) || (16 <? decpt))%Z%bool then
    let e := (decpt - 1)%Z in
    let mantissa :=
      if (nd =? 1)%Z then ds
      else (substring 0 1 ds ++ "." ++ substring 1 (String.length ds - 1) ds)%string in
    let es := digits_of_Z (Z.abs e) in
    (mantissa ++ "e" ++ (if (e <? 0)%Z then "-" else "+")
       ++ (if (Z.abs e <? 10)%Z then "0" else "") ++ es)%string
  else if (decpt <=? 0)%Z then
    ("0." ++ zeros (Z.to_nat (- decpt)) ++ ds)%string
  else if (decpt <? nd)%Z then
    (substring 0 (Z.to_nat decpt) ds ++ "."
       ++ substring (Z.to_nat decpt) (String.length ds - Z.to_nat decpt) ds)%string
  else
    (ds ++ zeros (Z.to_nat (decpt - nd)) ++ ".0")%string.

Definition repr_pos (x : Q) : string :=
  let n := Qnum x in
  let d := Zpos (Qden x) in
  if Qle_bool (inject_Z (2 ^ 1024)) x then "inf"%string
  else
    let k := log10_floor n d in
    let (m0, s0) := shortest x n d k 17 1 in
    let (m, s) := strip_zeros 400 m0 s0 in
    let ds := digits_of_Z m in
    layout ds (Z.of_nat (String.length ds) + s).

(** [repr(x)], which is [str(x)], of the float nearest to [q]. *)
Definition float_repr (q : Q) : string :=
  let x := nearest_double q in
  match Qnum x with
  | Z0 => "0.0"%string
  | Zpos _ => repr_pos x
  | Zneg _ => ("-" ++ repr_pos (- x))%string
  end.

End PyFloat.

(** ** pandas: categories and indicator columns *)

Module Encoding.

(** [len(col.value_counts())]: the number of distinct present values. *)
Definition value_counts_len (cs : list cell) : nat :=
  length (distinct (present cs)).

Fixpoint insert_sorted (v : value) (vs : list value) : list value :=
  match vs with
  | [] => [v]
  | w :: vs' => if value_ltb w v then w :: insert_sorted v vs' else v :: vs
  end.

(** The categories [astype('category')] infers: the distinct present
    values, in increasing order. *)
Definition categories (cs : list cell) : list value :=
  fold_right insert_sorted [] (distinct (present cs)).

(** [str(level)] in the name of an indicator column.  Text columns hold
    strings; a number met among them is taken to be a Python float (the
    float nearest to it), and written as [str] writes floats: 1.5, 2.0,
    10.0. *)
Definition level_label (v : value) : string :=
  match v with
  | Str s => s
  | Num q => PyFloat.float_repr q
  end.

Definition indicator (v : value) (c : cell) : cell :=
  match c with
  | Some w => if value_eqb v w then Some (Num 1) else Some (Num 0)
  | None => Some (Num 0)
  end.

(** The indicator columns of one categorical column: one per category,
    named [<column>_<level>], of an unsigned integer dtype. *)
Definition dummies_of (c : series) : list series :=
  map (fun v =>
         mkSeries (sname c ++ "_" ++ level_label v) Integer
           (map (indicator v) (scells c)))
      (categories (scells c)).

(** [pd.get_dummies(df)] for a table all of whose columns are categorical.
    With no column at all there is nothing to concatenate ([ValueError]). *)
Definition get_dummies (df : frame) : result frame :=
  match columns df with
  | [] => Raise ValueError
  | cols => Ok (mkFrame (index df) (flat_map dummies_of cols))
  end.

(** [df[col] = df[col].astype('category')] for every label in [labels]. *)
Definition astype_category (labels : list string) (df : frame) : frame :=
  mkFrame (index df)
    (map (fun c =>
            if mem_string (sname c) labels
            then mkSeries (sname c) Category (scells c)
            else c)
         (columns df)).

(** [pd.concat([a, b], axis=1)] of two tables over the same index. *)
Definition concat_columns (a b : frame) : frame :=
  mkFrame (index a) (columns a ++ columns b).

End Encoding.

Export Encoding.

(** ** [select_features] *)

Definition nominal_features : list string :=
  ["PID"; "MS SubClass"; "MS Zoning"; "Street"; "Alley"; "Land Contour";
   "Lot Config"; "Neighborhood"; "Condition 1"; "Condition 2"; "Bldg Type";
   "House Style"; "Roof Style"; "Roof Matl"; "Exterior 1st"; "Exterior 2nd";
   "Mas Vnr Type"; "Foundation"; "Heating"; "Central Air"; "Garage Type";
   "Misc Feature"; "Sale Type"; "Sale Condition"]%string.

Section Correlation.

(** The numerical core of [DataFrame.corr]: the coefficient it computes for
    two columns over their pairwise-complete observations.  pandas computes
    it in floating point, so what it returns is a number [r], as the
    coefficient [computed r], or NaN, as [None]; it need not be the
    coefficient of exact arithmetic, [pearson]. *)
Variable corr : list cell -> list cell -> option coefficient.

(** [numerical_df.corr()["SalePrice"].abs()]: one coefficient per numeric
    column; a [KeyError] when no numeric column is called SalePrice. *)
Definition abs_corr_with_target_by (numerical_df : frame)
  : result (list (string * option coefficient)) :=
  target <- getitem "SalePrice" numerical_df ;;
  Ok (map (fun c => (sname c, corr (scells c) (scells target)))
          (columns numerical_df)).

(** The correlation filter: the first three statements of the function. *)
Definition correlation_filter_by (df : frame) (coeff_threshold : Q)
  : result frame :=
  let numerical_df := select_dtypes numeric_kinds df in
  abs_corr_coeffs <- abs_corr_with_target_by numerical_df ;;
  drop_columns
    (map fst (filter (fun e => abs_lt (snd e) coeff_threshold) abs_corr_coeffs))
    df.

End Correlation.

(** The same in exact arithmetic, as the rest of this development takes
    the numbers. *)
Definition abs_corr_with_target : frame ->
  result (list (string * option coefficient)) :=
  abs_corr_with_target_by pearson.

Definition correlation_filter : frame -> Q -> result frame :=
  correlation_filter_by pearson.

(** The cardinality filter.  The comparison is with the literal 10. *)
Definition cardinality_filter (df : frame) : result frame :=
  let transform_cat_cols := filter (has_column df) nominal_features in
  cat_cols <- getitems transform_cat_cols df ;;
  let uniqueness_counts :=
    map (fun c => (sname c, value_counts_len (scells c))) cat_cols in
  let drop_nonuniq_cols := labels_where (fun n => (10 <? n)%nat) uniqueness_counts in
  drop_columns drop_nonuniq_cols df.

(** The encoding: text columns become categorical, their indicator columns
    are appended, and the columns labelled like a text column are dropped. *)
Definition encode_text_columns (df : frame) : result frame :=
  let text_cols := column_names (select_dtypes [Object] df) in
  let df := astype_category text_cols df in
  dummies <- get_dummies (select_dtypes [Category] df) ;;
  drop_columns text_cols (concat_columns df dummies).

Definition select_features (df : frame) (coeff_threshold : Q)
  (uniq_threshold : nat) : result frame :=
  df <- correlation_filter df coeff_threshold ;;
  df <- cardinality_filter df ;;
  encode_text_columns df.

Definition default_coeff_threshold : Q := 4 # 10.
Definition default_uniq_threshold : nat := 10.

(** ** Row selection and NumPy *)

Module Rows.

(** [df[:n]] and [df[n:]]: positional slices of the rows. *)
Definition head_rows (n : nat) (df : frame) : frame :=
  mkFrame (firstn n (index df))
    (map (fun c => mkSeries (sname c) (sdtype c) (firstn n (scells c)))
         (columns df)).

Definition tail_rows (n : nat) (df : frame) : frame :=
  mkFrame (skipn n (index df))
    (map (fun c => mkSeries (sname c) (sdtype c) (skipn n (scells c)))
         (columns df)).

Definition take {A} (positions : list nat) (l : list A) : list A :=
  flat_map (fun i => match nth_error l i with Some a => [a] | None => [] end)
           positions.

(** [df.iloc[positions]].  The positions handed to it in this program are
    drawn from [arange(len(df))], hence in range. *)
Definition iloc (positions : list nat) (df : frame) : frame :=
  mkFrame (take positions (index df))
    (map (fun c => mkSeries (sname c) (sdtype c) (take positions (scells c)))
         (columns df)).

(** [df[labels]] as a table. *)
Definition getframe (labels : list string) (df : frame) : result frame :=
  cs <- getitems labels df ;;
  Ok (mkFrame (index df) cs).

(** [index.drop(label)] on column labels. *)
Definition drop_label (l : string) (labels : list string) : result (list string) :=
  if mem_string l labels
  then Ok (filter (fun x => negb (String.eqb l x)) labels)
  else Raise KeyError.

End Rows.

Export Rows.

Module Numpy.

Definition np_sqrt (q : Q) : R := sqrt (Q2R q).

Definition Rsum (l : list R) : R := fold_right Rplus 0%R l.

Definition np_mean (l : list R) : R := (Rsum l / INR (length l))%R.

End Numpy.

Export Numpy.

(** ** scikit-learn: validation, linear model, metric, folds *)

Module Sklearn.

Definition matrix := list (list Q).

Fixpoint transpose {A} (n : nat) (cols : list (list A)) (d : A) : list (list A) :=
  match n with
  | O => []
  | S n' => map (fun c => hd d c) cols :: transpose n' (map (@tl A) cols) d
  end.

Definition finite (c : cell) : result Q :=
  match c with
  | Some (Num q) => Ok q
  | _ => Raise ValueError
  end.

Fixpoint traverse {A B} (f : A -> result B) (l : list A) : result (list B) :=
  match l with
  | [] => Ok []
  | a :: l' =>
      b <- f a ;;
      bs <- traverse f l' ;;
      Ok (b :: bs)
  end.

(** [check_array] on a one-dimensional target: numbers only, no NaN, at
    least one sample. *)
Definition check_vector (y : list cell) : result (list Q) :=
  v <- traverse finite y ;;
  match v with
  | [] => Raise ValueError
  | _ => Ok v
  end.

(** [check_array] on a table: numbers only, no NaN, at least one sample and
    at least one feature; every failure is a [ValueError]. *)
Definition check_array (X : frame) : result matrix :=
  rows <- traverse (traverse finite)
            (transpose (len X) (map scells (columns X)) None) ;;
  match rows, columns X with
  | [], _ | _, [] => Raise ValueError
  | _, _ => Ok rows
  end.

Record linear_model := mkModel { intercept : Q; coef : list Q }.

Definition dot (a b : list Q) : Q :=
  Qsum (map (fun p => fst p * snd p) (combine a b)).

Definition mean_squared (y_true y_pred : list Q) : Q :=
  Qsum (map (fun p => (fst p - snd p) * (fst p - snd p)) (combine y_true y_pred))
  / Qlen y_true.

(** [mean_squared_error(y_true, y_pred)] *)
Definition mean_squared_error (y_true : series) (y_pred : list Q) : result Q :=
  y <- check_vector (scells y_true) ;;
  if (length y =? length y_pred)%nat
  then Ok (mean_squared y y_pred)
  else Raise ValueError.

(** Fold sizes of [KFold]: [n // k], one more for the first [n % k] folds. *)
Definition fold_sizes (n k : nat) : list nat :=
  map (fun i => if (i <? n mod k)%nat then S (n / k) else (n / k)%nat) (seq 0 k).

Fixpoint chunks {A} (sizes : list nat) (l : list A) : list (list A) :=
  match sizes with
  | [] => []
  | s :: sizes' => firstn s l :: chunks sizes' (skipn s l)
  end.

Definition mem_nat (i : nat) (l : list nat) : bool := existsb (Nat.eqb i) l.

(** One [(train_index, test_index)] pair of [KFold.split]: the test fold is
    a boolean mask over [arange(n)], so both come out in increasing order. *)
Definition split_of (n : nat) (fold : list nat) : list nat * list nat :=
  (filter (fun i => negb (mem_nat i fold)) (seq 0 n),
   filter (fun i => mem_nat i fold) (seq 0 n)).

(** [KFold(n_splits=k, shuffle=True).split(df)].  [shuffled] is
    [arange(n)] as the shuffle left it. *)
Definition kfold_split (k : Z) (n : nat) (shuffled : list nat)
  : result (list (list nat * list nat)) :=
  if (k <? 2)%Z then Raise ValueError
  else if (Z.of_nat n <? k)%Z then Raise ValueError
  else Ok (map (split_of n) (chunks (fold_sizes n (Z.to_nat k)) shuffled)).

End Sklearn.

Export Sklearn.

(** ** [train_and_test] *)

(** [numeric_df.columns.drop("SalePrice")]: the feature labels. *)
Definition feature_columns (df : frame) : result (list string) :=
  let numeric_df := select_dtypes numeric_kinds df in
  drop_label "SalePrice" (column_names numeric_df).

Section Regression.

(** The numerical core of [LinearRegression.fit]: from the design matrix and
    the target to the intercept and the coefficients minimising the sum of
    squared residuals. *)
Variable least_squares : matrix -> list Q -> Q * list Q.

(** [lr.fit(X, y)] *)
Definition fit (X : frame) (y : series) : result linear_model :=
  rows <- check_array X ;;
  target <- check_vector (scells y) ;;
  if (length rows =? length target)%nat
  then let (b, w) := least_squares rows target in Ok (mkModel b w)
  else Raise ValueError.

(** [lr.predict(X)] *)
Definition predict (lr : linear_model) (X : frame) : result (list Q) :=
  rows <- check_array X ;;
  if (length (columns X) =? length (coef lr))%nat
  then Ok (map (fun row => intercept lr + dot (coef lr) row) rows)
  else Raise ValueError.

(** Fit on [train], predict [test], take the mean squared error: the
    statements repeated in each branch of the function, up to [mse]. *)
Definition fit_and_mse (features : list string) (train test : frame)
  : result Q :=
  X <- getframe features train ;;
  y <- getitem "SalePrice" train ;;
  lr <- fit X y ;;
  X_test <- getframe features test ;;
  predictions <- predict lr X_test ;;
  y_test <- getitem "SalePrice" test ;;
  mean_squared_error y_test predictions.

(** ... and [rmse = np.sqrt(mse)]. *)
Definition fit_and_score (features : list string) (train test : frame)
  : result R :=
  mse <- fit_and_mse features train test ;;
  let rmse := np_sqrt mse in
  Ok rmse.

(** The loop of the k-fold branch. *)
Fixpoint kfold_loop (features : list string) (df : frame)
  (splits : list (list nat * list nat)) : result (list R) :=
  match splits with
  | [] => Ok []
  | (train_index, test_index) :: splits' =>
      let train := iloc train_index df in
      let test := iloc test_index df in
      rmse <- fit_and_score features train test ;;
      rmse_values <- kfold_loop features df splits' ;;
      Ok (rmse :: rmse_values)
  end.

(** [rng] is what NumPy's global generator yields at the one place where
    the call consults it: the order in which [arange(len(df))] is left by
    [df.sample(frac=1)] (k = 1) or by the shuffle of [KFold] (other k).

    The estimator is built by [lr = LinearRegression()]; one copy of the
    notebook writes [linear_model.LinearRegression()] there, a name its
    import cell does not bind, and is otherwise the same.  The [print]
    calls have no bearing on the value returned and are left out. *)
Definition train_and_test (df : frame) (k : Z) (rng : list nat) : result R :=
  features <- feature_columns df ;;
  if (k =? 0)%Z then
    let train := head_rows 1460 df in
    let test := tail_rows 1460 df in
    fit_and_score features train test
  else if (k =? 1)%Z then
    let shuffled_df := iloc rng df in
    let train := head_rows 1460 df in
    let test := tail_rows 1460 df in
    rmse_one <- fit_and_score features train test ;;
    rmse_two <- fit_and_score features test train ;;
    let avg_rmse := np_mean [rmse_one; rmse_two] in
    Ok avg_rmse
  else
    splits <- kfold_split k (len df) rng ;;
    rmse_values <- kfold_loop features df splits ;;
    let avg_rmse := np_mean rmse_values in
    Ok avg_rmse.

(** The mean squared errors behind the value returned in k-fold mode. *)
Fixpoint kfold_mses (features : list string) (df : frame)
  (splits : list (list nat * list nat)) : result (list Q) :=
  match splits with
  | [] => Ok []
  | (train_index, test_index) :: splits' =>
      mse <- fit_and_mse features (iloc train_index df) (iloc test_index df) ;;
      mses <- kfold_mses features df splits' ;;
      Ok (mse :: mses)
  end.

(** The mean squared error behind the value returned in holdout mode. *)
Definition holdout_mse (df : frame) : result Q :=
  features <- feature_columns df ;;
  fit_and_mse features (head_rows 1460 df) (tail_rows 1460 df).

Definition kfold_mse_values (df : frame) (k : Z) (rng : list nat)
  : result (list Q) :=
  features <- feature_columns df ;;
  splits <- kfold_split k (len df) rng ;;
  kfold_mses features df splits.

End Regression.

(** Least squares for a design of one column, in closed form: the slope is
    the co-moment over the second moment of the feature, zero when the
    feature is constant (the solution of least norm), and the intercept
    puts the line through the point of means.  Columns after the first are
    given the coefficient zero; the function is used on one-column designs
    only. *)
Definition simple_least_squares (X : matrix) (y : list Q) : Q * list Q :=
  let ps := combine (map (fun row => hd 0 row) X) y in
  let sxx := co_moment ps fst fst in
  let slope := if Qeq_bool sxx 0 then 0 else co_moment ps fst snd / sxx in
  let b := (Qsum y - slope * Qsum (map fst ps)) / Qlen ps in
  (Qred b, Qred slope :: repeat 0 (length (hd [] X) - 1)).

(** The sum of squared residuals of the line [b + w * x] over the
    observations [(x, y)]. *)
Definition squared_residuals (b w : Q) (ps : list (Q * Q)) : Q :=
  Qsum (map (fun p => (snd p - (b + w * fst p)) * (snd p - (b + w * fst p))) ps).

(** Two shuffles give the same folds when, fold by fold, they put the same
    rows in it. *)
Definition same_folds (n : nat) (k : Z) (rng1 rng2 : list nat) : Prop :=
  Forall2 (fun f g => forall i, In i f <-> In i g)
    (chunks (fold_sizes n (Z.to_nat k)) rng1)
    (chunks (fold_sizes n (Z.to_nat k)) rng2).

(** [len(y.value_counts())] for the target of a partition. *)
Definition distinct_targets (part : frame) : result nat :=
  y <- getitem "SalePrice" part ;;
  Ok (value_counts_len (scells y)).

(** The rows [transform_features] removes by label. *)
Definition removed_labels : list Z := [1702; 2180; 2181]%Z.

Definition nonneg_cell (c : cell) : bool :=
  match c with
  | Some (Num v) => Qle_bool 0 v
  | _ => false
  end.

(** Both derived ages are present and at least 0 in every row. *)
Definition ages_nonneg (df : frame) : result bool :=
  before_sale <- getitem "Years Before Sale" df ;;
  since_remod <- getitem "Years Since Remod" df ;;
  Ok (forallb nonneg_cell (scells before_sale)
      && forallb nonneg_cell (scells since_remod)).

(** The year [other] is recorded, is not negative and is not after the
    recorded year [sold], itself below 2^63: the difference of the two is
    then taken without wrapping around. *)
Definition not_after (sold other : cell) : bool :=
  match sold, other with
  | Some (Num s), Some (Num o) =>
      Qle_bool 0 o && Qle_bool o s && Qlt_bool s (inject_Z (2 ^ 63))
  | _, _ => false
  end.

(** Row by row: the label is one of the removed ones, or the year is not
    after the year of sale. *)
Fixpoint ages_sound (labels : list Z) (sold other : list cell) : bool :=
  match labels, sold, other with
  | l :: ls, s :: ss, o :: os =>
      (mem_label l removed_labels || not_after s o) && ages_sound ls ss os
  | [], _, _ => true
  | _, _, _ => false
  end.

(** In the input, a year that is unknown, negative or after the year of
    sale occurs only in rows that carry one of the removed labels. *)
Definition negative_ages_only_at_removed_labels (df : frame) : bool :=
  match getitem "Yr Sold" df, getitem "Year Built" df,
        getitem "Year Remod/Add" df with
  | Ok sold, Ok built, Ok remod =>
      ages_sound (index df) (scells sold) (scells built)
      && ages_sound (index df) (scells sold) (scells remod)
  | _, _, _ => false
  end.

(** The test [df[label]] looks a column up with. *)
Definition named (l : string) (c : series) : bool := String.eqb l (sname c).

(** A cell after [fillna]: what it was, unless it was missing. *)
Definition fills (before after : cell) : Prop :=
  before = None \/ after = before.

(** The labels of the text columns, as the encoding step lists them. *)
Definition text_labels (df : frame) : list string :=
  column_names (select_dtypes [Object] df).

Definition cell_number (c : cell) : Q :=
  match c with
  | Some (Num q) => q
  | _ => 0
  end.

(** The sum, over the given columns, of the cells in row [i]. *)
Definition row_sum (cols : list series) (i : nat) : Q :=
  Qsum (map (fun d => cell_number (nth i (scells d) None)) cols).

Definition binary_cell (c : cell) : bool :=
  match c with
  | Some (Num q) => Qeq_bool q 0 || Qeq_bool q 1
  | _ => false
  end.

(** How many of the values [vs] are equal to [w]. *)
Definition matches (w : value) (vs : list value) : nat :=
  length (filter (fun v => value_eqb v w) vs).

(** ** The two-way cross check, in the words of the specification *)

(** The features: the numeric columns other than SalePrice. *)
Definition regressors (df : frame) : list series :=
  filter (fun c => is_numeric c && negb (String.eqb "SalePrice" (sname c)))
         (columns df).

(** The features of the row at position [i], and its price. *)
Definition features_at (cols : list series) (i : nat) : list Q :=
  map (fun c => cell_number (nth i (scells c) None)) cols.

Definition price_at (price : series) (i : nat) : Q :=
  cell_number (nth i (scells price) None).

(** Fit by least squares on the rows at the positions [train]; the mean,
    over the rows at the positions [test], of the squared difference
    between the price and the fitted value. *)
Definition mse_on (least_squares : matrix -> list Q -> Q * list Q)
  (cols : list series) (price : series) (train test : list nat) : Q :=
  let (b, w) := least_squares (map (features_at cols) train)
                              (map (price_at price) train) in
  Qsum (map (fun i =>
               (price_at price i - (b + dot w (features_at cols i)))
               * (price_at price i - (b + dot w (features_at cols i))))
            test)
  / Qlen test.

(** Fit on the first 1460 rows and score on the remainder, swap the two,
    report the mean of both RMSEs.  No shuffle takes part. *)
Definition two_way_cross_check
  (least_squares : matrix -> list Q -> Q * list Q)
  (df : frame) (price : series) : R :=
  let first := seq 0 1460 in
  let remainder := seq 1460 (len df - 1460) in
  let rmse_one := np_sqrt (mse_on least_squares (regressors df) price
                             first remainder) in
  let rmse_two := np_sqrt (mse_on least_squares (regressors df) price
                             remainder first) in
  ((rmse_one + rmse_two) / 2)%R.

Definition is_number (c : cell) : bool :=
  match c with
  | Some (Num _) => true
  | _ => false
  end.

(** Every cell of every numeric column holds a number. *)
Definition numbers_only (df : frame) : bool :=
  forallb (fun c => negb (is_numeric c) || forallb is_number (scells c))
          (columns df).

(** The solver returns one coefficient per column of a design that has
    columns, as [LinearRegression] does. *)
Definition one_coefficient_per_feature
  (least_squares : matrix -> list Q -> Q * list Q) : Prop :=
  forall X y, hd [] X <> [] ->
    length (snd (least_squares X y)) = length (hd [] X).

(** ** The first drafts of the three functions (the notebook's opening cell) *)

Module FirstDraft.

(** [return df] *)
Definition transform_features (df : frame) : result frame := Ok df.

(** [return df[["Gr Liv Area", "SalePrice"]]] *)
Definition select_features (df : frame) : result frame :=
  getframe ["Gr Liv Area"; "SalePrice"]%string df.

Section Regression.

Variable least_squares : matrix -> list Q -> Q * list Q.

Definition train_and_test (df : frame) : result R :=
  let train := head_rows 1460 df in
  let test := tail_rows 1460 df in
  let numeric_train := select_dtypes numeric_kinds train in
  let numeric_test := select_dtypes numeric_kinds test in
  features <- drop_label "SalePrice" (column_names numeric_train) ;;
  let target := "SalePrice"%string in
  X <- getframe features train ;;
  y <- getitem target train ;;
  lr <- fit least_squares X y ;;
  X_test <- getframe features test ;;
  predictions <- predict lr X_test ;;
  y_test <- getitem target test ;;
  mse <- mean_squared_error y_test predictions ;;
  let rmse := np_sqrt mse in
  Ok rmse.

End Regression.

End FirstDraft.

(** Every column has one cell per row. *)
Definition well_formed (df : frame) : Prop :=
  Forall (fun c => length (scells c) = len df) (columns df).

(** ** The second draft of [transform_features] *)

Module SecondDraft.

(** As the final function, except that every numeric column is imputed,
    and that the year of sale is dropped with the other columns at the
    end. *)
Definition transform_features (df : frame) : result frame :=
  let num_missing := isnull_sum df in
  let drop_missing_cols := labels_where (above_5pct df) num_missing in
  df <- drop_columns drop_missing_cols df ;;

  let text_mv_counts := isnull_sum (select_dtypes [Object] df) in
  let drop_missing_cols_2 := labels_where (fun m => (0 <? m)%nat) text_mv_counts in
  df <- drop_columns drop_missing_cols_2 df ;;

  let num_missing := isnull_sum (select_dtypes numeric_kinds df) in
  numeric_cols <- getitems (map fst num_missing) df ;;
  replacement_values_dict <- mode_record0 numeric_cols ;;
  let df := fillna replacement_values_dict df in

  yr_sold <- getitem "Yr Sold" df ;;
  year_built <- getitem "Year Built" df ;;
  years_sold <- series_sub yr_sold year_built ;;
  yr_sold <- getitem "Yr Sold" df ;;
  year_remod <- getitem "Year Remod/Add" df ;;
  years_since_remod <- series_sub yr_sold year_remod ;;
  let df := setitem "Years Before Sale" years_sold df in
  let df := setitem "Years Since Remod" years_since_remod df in
  df <- drop_rows [1702; 2180; 2181]%Z df ;;
  df <- drop_columns ["Year Built"; "Year Remod/Add"]%string df ;;
  df <- drop_columns ["PID"; "Order"]%string df ;;
  drop_columns ["Mo Sold"; "Sale Condition"; "Sale Type"; "Yr Sold"]%string df.

End SecondDraft.

(** No cell of these columns is missing. *)
Definition clean (cols : list series) : Prop :=
  forall c, In c cols -> count_missing (scells c) = 0%nat.

(** The columns [transform_features] reads or drops by name. *)
Definition required_columns : list string :=
  ["Yr Sold"; "Year Built"; "Year Remod/Add"; "PID"; "Order"; "Mo Sold";
   "Sale Condition"; "Sale Type"]%string.

(** The columns it drops at the end. *)
Definition final_drop : list string :=
  ["PID"; "Order"; "Mo Sold"; "Sale Condition"; "Sale Type";
   "Year Built"; "Year Remod/Add"]%string.

(** The two columns it computes. *)
Definition derived_columns : list string :=
  ["Years Before Sale"; "Years Since Remod"]%string.

(** The rows it keeps, as a mask over the index. *)
Definition kept_rows (df : frame) : list bool :=
  map (fun l => negb (mem_label l removed_labels)) (index df).

(** The labels the correlation filter drops: the numeric columns whose
    coefficient against [target] is defined and below the threshold. *)
Definition weakly_correlated (df : frame) (target : series) (t : Q)
  : list string :=
  map fst
    (filter (fun e => abs_lt (snd e) t)
       (map (fun c => (sname c, pearson (scells c) (scells target)))
            (columns (select_dtypes numeric_kinds df)))).

(** ** Example tables *)

Definition range_index (n : nat) : list Z := map Z.of_nat (seq 0 n).

Definition num (z : Z) : cell := Some (Num (inject_Z z)).

Definition txt (s : string) : cell := Some (Str s).

(** 2200 sales in file order, with the columns [transform_features] asks
    for; the lot frontage and the year built are given by the caller.  One
    garage size is unknown. *)
Definition ames_sample (lot_frontage year_built : list cell) : frame :=
  let n := 2200%nat in
  mkFrame (range_index n)
    [ mkSeries "Order" Integer (map num (range_index n));
      mkSeries "PID" Integer (map num (range_index n));
      mkSeries "Lot Frontage" Floating lot_frontage;
      mkSeries "Garage Cars" Floating (None :: repeat (num 2) 2199);
      mkSeries "Year Built" Integer year_built;
      mkSeries "Year Remod/Add" Integer (repeat (num 2005) n);
      mkSeries "Mo Sold" Integer (repeat (num 6) n);
      mkSeries "Yr Sold" Integer (repeat (num 2008) n);
      mkSeries "Sale Type" Object (repeat (txt "WD") n);
      mkSeries "Sale Condition" Object (repeat (txt "Normal") n);
      mkSeries "SalePrice" Integer (repeat (num 150000) n) ].

(** The lot frontage is unknown in 110 rows of 2200: exactly 5%. *)
Definition boundary_table : frame :=
  ames_sample (repeat None 110 ++ repeat (num 60) 2090)
              (repeat (num 2000) 2200).

(** The first sale (label 0) is dated two years before the house is built. *)
Definition negative_age_table : frame :=
  ames_sample (repeat (num 60) 2200)
              (num 2010 :: repeat (num 2000) 2199).

Definition street_column : series :=
  mkSeries "Street" Object
    (map txt ["Pave"; "Grvl"; "Pave"; "Dirt"; "Pave"; "Grvl"]%string).

(** Six sales: a living area, a pool area that is the same everywhere, the
    month of sale, and a street surface with three levels. *)
Definition street_table : frame :=
  mkFrame (range_index 6)
    [ mkSeries "Gr Liv Area" Integer (map num [10; 12; 15; 20; 22; 30]%Z);
      mkSeries "Pool Area" Integer (repeat (num 0) 6);
      mkSeries "Mo Sold" Integer (map num [1; 2; 1; 2; 1; 2]%Z);
      street_column;
      mkSeries "SalePrice" Integer (map num [100; 125; 150; 190; 230; 310]%Z) ].

(** A zone with two levels, and a second text column whose label is the
    label of the indicator column of the first level. *)
Definition colliding_labels_table : frame :=
  mkFrame (range_index 4)
    [ mkSeries "Zone" Object (map txt ["A"; "B"; "A"; "B"]%string);
      mkSeries "Zone_A" Object (map txt ["u"; "u"; "v"; "v"]%string);
      mkSeries "Gr Liv Area" Integer (map num [0; 1; 2; 3]%Z);
      mkSeries "SalePrice" Integer (map num [0; 1; 2; 4]%Z) ].

(** Four sales, one feature. *)
Definition four_sales : frame :=
  mkFrame (range_index 4)
    [ mkSeries "Gr Liv Area" Integer (map num [0; 1; 2; 3]%Z);
      mkSeries "SalePrice" Integer (map num [0; 1; 2; 4]%Z) ].

(** 1462 sales at one and the same price. *)
Definition constant_price_table : frame :=
  mkFrame (range_index 1462)
    [ mkSeries "Gr Liv Area" Integer (map num (range_index 1462));
      mkSeries "SalePrice" Integer (repeat (num 100000) 1462) ].

(** A price and a street name, no feature. *)
Definition price_only_table : frame :=
  mkFrame (range_index 2)
    [ mkSeries "Street" Object (map txt ["Pave"; "Grvl"]%string);
      mkSeries "SalePrice" Integer (map num [100; 200]%Z) ].

(** Twenty-four sales.  The index is that of the first twenty-one rows of
    the file and of the three rows the cleaning removes; one lot area is
    unknown. *)
Definition small_sales : frame :=
  let n := 24%nat in
  mkFrame (range_index 21 ++ [1702; 2180; 2181]%Z)
    [ mkSeries "Order" Integer (map num (range_index n));
      mkSeries "PID" Integer (map num (range_index n));
      mkSeries "Lot Area" Floating (None :: repeat (num 9000) 23);
      mkSeries "Year Built" Integer (repeat (num 2000) n);
      mkSeries "Year Remod/Add" Integer (repeat (num 2005) n);
      mkSeries "Mo Sold" Integer (repeat (num 6) n);
      mkSeries "Yr Sold" Integer (repeat (num 2008) n);
      mkSeries "Sale Type" Object (repeat (txt "WD") n);
      mkSeries "Sale Condition" Object (repeat (txt "Normal") n);
      mkSeries "SalePrice" Integer (map num (range_index n)) ].

(** The same sales under a fresh index 0..23. *)
Definition renumbered_sales : frame :=
  mkFrame (range_index 24) (columns small_sales).

(** Twenty-four sales, three of them misdated as in the data set: in the
    rows labelled 1702, 2180 and 2181 the house is remodelled, or built and
    remodelled, after the year it is sold in. *)
Definition misdated_sales : frame :=
  let n := 24%nat in
  mkFrame (range_index 21 ++ [1702; 2180; 2181]%Z)
    [ mkSeries "Order" Integer (map num (range_index n));
      mkSeries "PID" Integer (map num (range_index n));
      mkSeries "Lot Area" Floating (None :: repeat (num 9000) 23);
      mkSeries "Year Built" Integer
        (repeat (num 2000) 21 ++ [num 2007; num 2009; num 2010]);
      mkSeries "Year Remod/Add" Integer
        (repeat (num 2005) 21 ++ [num 2009; num 2009; num 2010]);
      mkSeries "Mo Sold" Integer (repeat (num 6) n);
      mkSeries "Yr Sold" Integer (repeat (num 2008) n);
      mkSeries "Sale Type" Object (repeat (txt "WD") n);
      mkSeries "Sale Condition" Object (repeat (txt "Normal") n);
      mkSeries "SalePrice" Integer (map num (range_index n)) ].

(** Two sales whose prices were read as text. *)
Definition text_price_table : frame :=
  mkFrame (range_index 2)
    [ mkSeries "Gr Liv Area" Integer (map num [10; 20]%Z);
      mkSeries "SalePrice" Object (map txt ["100"; "200"]%string) ].

Definition gap_column : series :=
  mkSeries "Gr Liv Area" Floating [num 10; None; num 30].

(** Three sales; the second living area is unknown. *)
Definition gap_table : frame :=
  mkFrame (range_index 3)
    [ gap_column;
      mkSeries "SalePrice" Integer (map num [100; 200; 300]%Z) ].

(** 1462 sales numbered 0..1461: the living area is the number of the
    sale, the price a hundred times that in the first 1460 sales and
    146050 in the last two. *)
Definition numbered_sales : frame :=
  mkFrame (range_index 1462)
    [ mkSeries "Gr Liv Area" Integer (map num (range_index 1462));
      mkSeries "SalePrice" Integer
        (map (fun z => num (100 * z)) (range_index 1460)
         ++ [num 146050; num 146050]) ].

(** 1462 sales; the living area of the first one is unknown. *)
Definition unknown_area_table : frame :=
  mkFrame (range_index 1462)
    [ mkSeries "Gr Liv Area" Floating
        (None :: map num (range_index 1461));
      mkSeries "SalePrice" Integer (repeat (num 100000) 1462) ].

(** ** Properties of [train_and_test] *)

Ltac raise_step :=
  match goal with
  | |- raises (bind ?c _) =>
      let E := fresh "E" in
      destruct c eqn:E; cbn [bind]; [ | eexists; reflexivity ]
  | |- raises (Raise _) => eexists; reflexivity
  end.

Lemma raises_bind {A B} (c : result A) (k : A -> result B) :
  raises c -> raises (bind c k).
Proof. intros [e ->]. exists e. reflexivity. Qed.

Ltac raise_first :=
  match goal with
  | |- raises (bind ?c ?k) => apply (raises_bind c k)
  end.

Lemma getframe_index labels df X :
  getframe labels df = Ok X -> index X = index df.
Proof.
  unfold getframe. destruct (getitems labels df); simpl; intros H.
  - injection H as <-. reflexivity.
  - discriminate.
Qed.

Lemma getframe_columns labels df X :
  getframe labels df = Ok X -> length (columns X) = length labels.
Proof.
  unfold getframe. destruct (getitems labels df) as [cs|] eqn:E; simpl; intros H.
  - injection H as <-. simpl. revert cs E.
    induction labels as [|l ls IH]; simpl; intros cs E.
    + injection E as <-. reflexivity.
    + destruct (getitem l df); simpl in E; [|discriminate].
      destruct (getitems ls df) as [cs'|]; simpl in E; [|discriminate].
      injection E as <-. simpl. f_equal. apply IH. reflexivity.
  - discriminate.
Qed.

Lemma check_array_no_rows X : index X = [] -> check_array X = Raise ValueError.
Proof. unfold check_array, len. intros ->. reflexivity. Qed.

Lemma check_array_no_columns X : columns X = [] -> raises (check_array X).
Proof.
  unfold check_array. intros ->.
  destruct (traverse _ _) as [rows|]; simpl.
  - destruct rows; eexists; reflexivity.
  - eexists; reflexivity.
Qed.

Section RegressionFacts.

Variable least_squares : matrix -> list Q -> Q * list Q.

Lemma fit_and_mse_empty_test features train test :
  index test = [] -> raises (fit_and_mse least_squares features train test).
Proof.
  intros Htest. unfold fit_and_mse.
  do 4 raise_step.
  apply raises_bind. unfold predict.
  rewrite check_array_no_rows.
  - eexists; reflexivity.
  - erewrite getframe_index by eassumption. assumption.
Qed.

Lemma fit_and_mse_no_features train test :
  raises (fit_and_mse least_squares [] train test).
Proof.
  unfold fit_and_mse.
  do 2 raise_step.
  apply raises_bind. unfold fit. apply raises_bind.
  apply check_array_no_columns.
  apply getframe_columns in E. now destruct (columns a).
Qed.

Lemma fit_and_score_raises features train test :
  raises (fit_and_mse least_squares features train test) ->
  raises (fit_and_score least_squares features train test).
Proof. unfold fit_and_score. apply raises_bind. Qed.

Lemma kfold_loop_mses features df splits :
  kfold_loop least_squares features df splits =
  (mses <- kfold_mses least_squares features df splits ;;
   Ok (map np_sqrt mses)).
Proof.
  induction splits as [|[train_index test_index] splits IH]; simpl.
  - reflexivity.
  - unfold fit_and_score.
    destruct (fit_and_mse _ _ _ _); simpl; [|reflexivity].
    rewrite IH. destruct (kfold_mses _ _ _ _); reflexivity.
Qed.

Lemma train_and_test_kfold df k rng :
  k <> 0%Z -> k <> 1%Z ->
  train_and_test least_squares df k rng =
  (mses <- kfold_mse_values least_squares df k rng ;;
   Ok (np_mean (map np_sqrt mses))).
Proof.
  intros H0 H1. unfold train_and_test, kfold_mse_values.
  destruct (feature_columns df); simpl; [|reflexivity].
  destruct (Z.eqb_spec k 0); [contradiction|].
  destruct (Z.eqb_spec k 1); [contradiction|].
  destruct (kfold_split k (len df) rng); simpl; [|reflexivity].
  rewrite kfold_loop_mses.
  destruct (kfold_mses _ _ _ _); reflexivity.
Qed.

Lemma chunks_length {A} sizes (l : list A) :
  length (chunks sizes l) = length sizes.
Proof.
  revert l. induction sizes; simpl; intros; [reflexivity|]. now rewrite IHsizes.
Qed.

Lemma kfold_split_nonempty k n rng splits :
  kfold_split k n rng = Ok splits -> splits <> [].
Proof.
  unfold kfold_split.
  destruct (Z.ltb_spec k 2); [discriminate|].
  destruct (Z.ltb_spec (Z.of_nat n) k); [discriminate|].
  intros H' ->. injection H' as H'.
  apply (f_equal (@length _)) in H'.
  rewrite length_map, chunks_length in H'. unfold fold_sizes in H'.
  rewrite length_map, length_seq in H'. simpl in H'. lia.
Qed.

Lemma split_of_ext n f g :
  (forall i, In i f <-> In i g) -> split_of n f = split_of n g.
Proof.
  intros H. unfold split_of.
  assert (M : forall i, mem_nat i f = mem_nat i g).
  { intros i. unfold mem_nat. apply eq_true_iff_eq.
    rewrite !existsb_exists. split; intros [x [Hx E]];
      apply Nat.eqb_eq in E; subst x; exists i;
      (split; [apply H; assumption | apply Nat.eqb_refl]). }
  f_equal; apply filter_ext; intros i; now rewrite M.
Qed.

Lemma kfold_split_same_folds k n rng1 rng2 :
  same_folds n k rng1 rng2 -> kfold_split k n rng1 = kfold_split k n rng2.
Proof.
  unfold same_folds, kfold_split. intros H.
  destruct (k <? 2)%Z; [reflexivity|].
  destruct (Z.of_nat n <? k)%Z; [reflexivity|].
  f_equal. induction H; simpl; [reflexivity|].
  f_equal; [now apply split_of_ext | assumption].
Qed.

End RegressionFacts.

Lemma train_and_test_holdout least_squares df rng :
  train_and_test least_squares df 0 rng =
  (mse <- holdout_mse least_squares df ;; Ok (np_sqrt mse)).
Proof.
  unfold train_and_test, holdout_mse, fit_and_score.
  destruct (feature_columns df); reflexivity.
Qed.

(** C10.  In holdout mode a table of at most 1460 rows leaves the test
    partition [df[1460:]] without rows, and the call ends in an exception
    instead of a value. *)
Theorem holdout_short_table_raises least_squares df rng :
  (len df <= 1460)%nat -> raises (train_and_test least_squares df 0 rng).
Proof.
  intros H. unfold train_and_test. raise_step.
  apply fit_and_score_raises, fit_and_mse_empty_test.
  change (index (tail_rows 1460 df)) with (skipn 1460 (index df)).
  apply skipn_all2. exact H.
Qed.

Lemma holdout_short_table_raises_witness :
  (len four_sales <= 1460)%nat /\
  raises (train_and_test simple_least_squares four_sales 0 []).
Proof.
  assert (H : (len four_sales <= 1460)%nat)
    by (apply Nat.leb_le; vm_compute; reflexivity).
  split; [exact H | exact (holdout_short_table_raises simple_least_squares four_sales [] H)].
Defined.

(** C7, as the code has it.  With no numeric column besides SalePrice the
    call ends in an exception, in every mode.  (The number of distinct
    prices in the training partition is not looked at.) *)
Theorem no_feature_raises least_squares df k rng :
  feature_columns df = Ok [] ->
  raises (train_and_test least_squares df k rng).
Proof.
  intros H. unfold train_and_test. rewrite H. cbn [bind].
  destruct (k =? 0)%Z.
  { apply fit_and_score_raises, fit_and_mse_no_features. }
  destruct (k =? 1)%Z.
  { raise_first. apply fit_and_score_raises, fit_and_mse_no_features. }
  raise_step.
  apply kfold_split_nonempty in E.
  destruct a as [|[train_index test_index] splits]; [contradiction|].
  raise_first. cbn [kfold_loop]. raise_first.
  apply fit_and_score_raises, fit_and_mse_no_features.
Qed.

Lemma no_feature_raises_witness :
  feature_columns price_only_table = Ok [] /\
  raises (train_and_test simple_least_squares price_only_table 0 []).
Proof.
  assert (H : feature_columns price_only_table = Ok []) by reflexivity.
  split; [exact H | exact (no_feature_raises simple_least_squares price_only_table 0 [] H)].
Defined.

(** C7, counterexample.  1462 sales at one price: the training partition
    has a single distinct SalePrice, there is a feature, and holdout mode
    returns the number 0. *)
Lemma constant_price_holdout_returns :
  distinct_targets (head_rows 1460 constant_price_table) = Ok 1%nat /\
  feature_columns constant_price_table = Ok ["Gr Liv Area"%string] /\
  train_and_test simple_least_squares constant_price_table 0 [] = Ok 0%R.
Proof.
  split; [vm_compute; reflexivity|].
  split; [vm_compute; reflexivity|].
  rewrite train_and_test_holdout.
  assert (E : holdout_mse simple_least_squares constant_price_table = Ok (0 # 2))
    by (vm_compute; reflexivity).
  rewrite E. cbn [bind]. f_equal. unfold np_sqrt, Q2R. simpl.
  rewrite Rmult_0_l. apply sqrt_0.
Qed.

Lemma same_folds_refl n k rng : same_folds n k rng rng.
Proof.
  unfold same_folds. induction (chunks _ rng) as [|f fs IH]; constructor;
    [tauto | exact IH].
Qed.

(** C6.  In k-fold mode the result is a function of the table, of k and of
    the folds the shuffle makes.  A seed fixes the outcome of the shuffle:
    two runs under the same seed shuffle alike, and return the same mean
    RMSE.  So do, more generally, two runs whose shuffles put the same rows
    in each fold. *)
Theorem kfold_same_folds_same_result least_squares df k rng1 rng2 :
  (2 <= k)%Z ->
  same_folds (len df) k rng1 rng2 ->
  train_and_test least_squares df k rng1 = train_and_test least_squares df k rng2.
Proof.
  intros Hk H. rewrite !train_and_test_kfold by lia.
  unfold kfold_mse_values.
  now rewrite (kfold_split_same_folds k (len df) rng1 rng2 H).
Qed.

Lemma kfold_same_folds_same_result_witness :
  (2 <= 2)%Z /\
  same_folds (len four_sales) 2 [0; 1; 2; 3]%nat [1; 0; 3; 2]%nat /\
  train_and_test simple_least_squares four_sales 2 [0; 1; 2; 3]%nat =
  train_and_test simple_least_squares four_sales 2 [1; 0; 3; 2]%nat.
Proof.
  assert (Hk : (2 <= 2)%Z) by lia.
  assert (H : same_folds (len four_sales) 2 [0; 1; 2; 3]%nat [1; 0; 3; 2]%nat).
  { unfold same_folds. simpl.
    apply Forall2_cons; [intros i; simpl; tauto|].
    apply Forall2_cons; [intros i; simpl; tauto|].
    apply Forall2_nil. }
  split; [exact Hk|]. split; [exact H|].
  exact (kfold_same_folds_same_result simple_least_squares four_sales 2
           [0; 1; 2; 3]%nat [1; 0; 3; 2]%nat Hk H).
Defined.

(** The outcome of the shuffle does matter.  Four sales, k = 2, and two
    outcomes of the shuffle of [arange(4)] that make different folds: the
    mean RMSE differs. *)
Lemma kfold_two_shuffles_differ :
  Permutation [0; 1; 2; 3]%nat (seq 0 (len four_sales)) /\
  Permutation [0; 2; 1; 3]%nat (seq 0 (len four_sales)) /\
  train_and_test simple_least_squares four_sales 2 [0; 1; 2; 3]%nat <>
  train_and_test simple_least_squares four_sales 2 [0; 2; 1; 3]%nat.
Proof.
  split; [apply Permutation_refl|].
  split; [simpl; apply perm_skip, perm_swap|].
  rewrite !train_and_test_kfold by discriminate.
  assert (E1 : kfold_mse_values simple_least_squares four_sales 2
                 [0; 1; 2; 3]%nat = Ok [5 # 2; 1 # 2])
    by (vm_compute; reflexivity).
  assert (E2 : kfold_mse_values simple_least_squares four_sales 2
                 [0; 2; 1; 3]%nat = Ok [128 # 512; 1 # 2])
    by (vm_compute; reflexivity).
  rewrite E1, E2. cbn [bind map]. intros H. injection H as H.
  unfold np_mean, Rsum in H. cbn [fold_right length] in H.
  assert (S : np_sqrt (5 # 2) = np_sqrt (128 # 512)).
  { apply Rmult_eq_reg_r with (r := (/ INR 2)%R).
    - unfold Rdiv in H. lra.
    - apply Rinv_neq_0_compat. simpl. lra. }
  unfold np_sqrt, Q2R in S. simpl in S.
  apply sqrt_inj in S; lra.
Qed.

(** ** Properties of [transform_features] *)

Lemma bind_ok {A B} (c : result A) (k : A -> result B) b :
  bind c k = Ok b -> exists a, c = Ok a /\ k a = Ok b.
Proof. destruct c as [a|e]; simpl; [eauto | discriminate]. Qed.

Lemma transform_features_boundary_table :
  (out <- transform_features boundary_table ;;
   Ok (len out, isnull_sum out)) =
  Ok (2197%nat,
      [("Lot Frontage", 110); ("Garage Cars", 0); ("Yr Sold", 0);
       ("SalePrice", 0); ("Years Before Sale", 0);
       ("Years Since Remod", 0)]%nat%string).
Proof. vm_compute. reflexivity. Qed.

(** C1, at the failing input.  The lot frontage is unknown in exactly
    [len(df)/20] rows: the column is neither dropped nor imputed, and the
    returned table has 110 missing cells in it. *)
Theorem boundary_column_keeps_missing_cells :
  lookup "Lot Frontage" (isnull_sum boundary_table) = Some 110%nat /\
  (20 * 110 = len boundary_table)%nat /\
  exists out,
    transform_features boundary_table = Ok out /\
    lookup "Lot Frontage" (isnull_sum out) = Some 110%nat.
Proof.
  split; [vm_compute; reflexivity|].
  split; [vm_compute; reflexivity|].
  pose proof transform_features_boundary_table as H.
  apply bind_ok in H. destruct H as [out [E H]].
  exists out. split; [exact E|].
  injection H as _ ->. reflexivity.
Qed.

(** C2, at the failing input.  A column whose missing fraction is exactly
    5% (110 of 2200) is not above [len(df)/20]: it survives the drop step
    and is a column of the returned table. *)
Theorem boundary_column_not_dropped :
  lookup "Lot Frontage" (isnull_sum boundary_table) = Some 110%nat /\
  len boundary_table = 2200%nat /\
  above_5pct boundary_table 110 = false /\
  exists out,
    transform_features boundary_table = Ok out /\
    In "Lot Frontage"%string (column_names out).
Proof.
  split; [vm_compute; reflexivity|].
  split; [vm_compute; reflexivity|].
  split; [vm_compute; reflexivity|].
  pose proof transform_features_boundary_table as H.
  apply bind_ok in H. destruct H as [out [E H]].
  exists out. split; [exact E|].
  injection H as _ H.
  assert (N : column_names out = map fst (isnull_sum out)).
  { unfold column_names, isnull_sum. rewrite map_map. reflexivity. }
  rewrite N, H. simpl. tauto.
Qed.

(** C3, counterexample.  A sale dated before the house is built, in the row
    labelled 0: the row is returned, with [Years Before Sale] = -2. *)
Lemma unlabelled_negative_age_kept :
  (out <- transform_features negative_age_table ;;
   before_sale <- getitem "Years Before Sale" out ;;
   nonneg <- ages_nonneg out ;;
   Ok (hd_error (index out), hd_error (scells before_sale), nonneg)) =
  Ok (Some 0%Z, Some (Some (Num (-2 # 1))), false).
Proof. vm_compute. reflexivity. Qed.

(** *** Columns through the steps of the function *)

Lemma getitem_find l df :
  getitem l df =
  match find (named l) (columns df) with
  | Some c => Ok c
  | None => Raise KeyError
  end.
Proof. reflexivity. Qed.

Lemma find_filter_by_name l (g : string -> bool) cols :
  find (named l) (filter (fun c => g (sname c)) cols) =
  if g l then find (named l) cols else None.
Proof.
  induction cols as [|c cols IH]; simpl.
  - now destruct (g l).
  - unfold named at 2. destruct (String.eqb_spec l (sname c)) as [->|N].
    + destruct (g (sname c)) eqn:G; simpl.
      * unfold named. now rewrite String.eqb_refl.
      * rewrite IH. now rewrite ?G.
    + destruct (g (sname c)) eqn:G; simpl; [|exact IH].
      unfold named at 1. destruct (String.eqb_spec l (sname c)); [contradiction|].
      exact IH.
Qed.

Lemma find_map_same_name l (f : series -> series) cols :
  (forall c, sname (f c) = sname c) ->
  find (named l) (map f cols) = option_map f (find (named l) cols).
Proof.
  intros Hf. induction cols as [|c cols IH]; simpl; [reflexivity|].
  unfold named at 1 3. rewrite Hf.
  destruct (l =? sname c)%string; [reflexivity | exact IH].
Qed.

Lemma drop_columns_ok labels df df' :
  drop_columns labels df = Ok df' ->
  index df' = index df /\
  columns df' =
    filter (fun c => negb (mem_string (sname c) labels)) (columns df).
Proof.
  unfold drop_columns. destruct (forallb _ _); [|discriminate].
  intros H. injection H as <-. split; reflexivity.
Qed.

Lemma getitem_drop_columns labels df df' l :
  drop_columns labels df = Ok df' ->
  getitem l df' =
  if mem_string l labels then Raise KeyError else getitem l df.
Proof.
  intros H. apply drop_columns_ok in H. destruct H as [_ H].
  rewrite !getitem_find, H.
  rewrite (find_filter_by_name l (fun n => negb (mem_string n labels))).
  now destruct (mem_string l labels).
Qed.

Lemma getitem_before_drop labels df df' l c :
  drop_columns labels df = Ok df' ->
  getitem l df' = Ok c -> getitem l df = Ok c.
Proof.
  intros H G. rewrite (getitem_drop_columns labels df df' l H) in G.
  destruct (mem_string l labels); [discriminate | exact G].
Qed.

Lemma fills_refl cs : Forall2 fills cs cs.
Proof. induction cs; constructor; [right; reflexivity | assumption]. Qed.

Lemma fills_fill_cell v cs : Forall2 fills cs (map (fill_cell v) cs).
Proof.
  induction cs as [|c cs IH]; simpl; constructor; [|exact IH].
  destruct c; [right | left]; reflexivity.
Qed.

Lemma getitem_fillna d df l c' :
  getitem l (fillna d df) = Ok c' ->
  exists c, getitem l df = Ok c /\ Forall2 fills (scells c) (scells c').
Proof.
  rewrite !getitem_find. unfold fillna. cbn [columns].
  rewrite find_map_same_name.
  - destruct (find (named l) (columns df)) as [c|]; simpl; [|discriminate].
    intros H. injection H as <-. exists c. split; [reflexivity|].
    destruct (lookup (sname c) d) as [[v|]|]; simpl;
      auto using fills_refl, fills_fill_cell.
  - intros c. now destruct (lookup (sname c) d) as [[v|]|].
Qed.

Lemma has_column_find l df :
  has_column df l = true <-> find (named l) (columns df) <> None.
Proof.
  unfold has_column. induction (columns df) as [|c cols IH]; simpl.
  - split; [discriminate | congruence].
  - fold (named l c). destruct (named l c); simpl; [|exact IH].
    split; [discriminate | reflexivity].
Qed.

Lemma getitem_setitem_same l s df :
  getitem l (setitem l s df) = Ok (mkSeries l (sdtype s) (scells s)).
Proof.
  rewrite getitem_find. unfold setitem.
  destruct (has_column df l) eqn:H; cbn [columns].
  - apply has_column_find in H. revert H.
    induction (columns df) as [|c cols IH]; simpl; [congruence|].
    fold (named l c). destruct (named l c) eqn:N; intros H.
    + unfold named. cbn [sname]. now rewrite String.eqb_refl.
    + rewrite N. apply IH. exact H.
  - assert (F : find (named l) (columns df) = None).
    { destruct (find (named l) (columns df)) eqn:F; [|reflexivity].
      assert (T : has_column df l = true)
        by (apply has_column_find; congruence).
      congruence. }
    revert F. induction (columns df) as [|c cols IH]; simpl.
    + intros _. unfold named. cbn [sname]. now rewrite String.eqb_refl.
    + destruct (named l c); [discriminate | exact IH].
Qed.

Lemma getitem_setitem_other l l' s df :
  l <> l' -> getitem l (setitem l' s df) = getitem l df.
Proof.
  intros N. rewrite !getitem_find. unfold setitem.
  assert (Nb : (l =? l')%string = false) by now apply String.eqb_neq.
  destruct (has_column df l'); cbn [columns].
  - f_equal. induction (columns df) as [|c cols IH]; simpl; [reflexivity|].
    destruct (String.eqb_spec l' (sname c)) as [E|E].
    + unfold named at 1 3. cbn [sname]. rewrite <- E, Nb. exact IH.
    + destruct (named l c); [reflexivity | exact IH].
  - f_equal. induction (columns df) as [|c cols IH]; simpl.
    + unfold named. cbn [sname]. now rewrite Nb.
    + destruct (named l c); [reflexivity | exact IH].
Qed.

Lemma index_setitem l s df : index (setitem l s df) = index df.
Proof. unfold setitem. now destruct (has_column df l). Qed.

Lemma drop_rows_ok labels df df' :
  drop_rows labels df = Ok df' ->
  df' = mask_rows (map (fun l => negb (mem_label l labels)) (index df)) df.
Proof.
  unfold drop_rows. destruct (forallb _ _); [|discriminate].
  intros H. now injection H as <-.
Qed.

Lemma getitem_mask_rows keep df l :
  getitem l (mask_rows keep df) =
  (c <- getitem l df ;;
   Ok (mkSeries (sname c) (sdtype c) (mask_cells keep (scells c)))).
Proof.
  rewrite !getitem_find. unfold mask_rows. cbn [columns].
  rewrite find_map_same_name by reflexivity.
  now destruct (find (named l) (columns df)).
Qed.

Lemma mask_cells_filter (p : Z -> bool) (ls : list Z) :
  mask_cells (map p ls) ls = filter p ls.
Proof.
  induction ls as [|l ls IH]; simpl; [reflexivity|].
  destruct (p l); now rewrite IH.
Qed.

Lemma series_sub_cells a b s :
  series_sub a b = Ok s ->
  sub_cells (sub_dtype (sdtype a) (sdtype b)) (scells a) (scells b)
  = Ok (scells s).
Proof.
  unfold series_sub. intros H.
  assert (K : (cs <- sub_cells (sub_dtype (sdtype a) (sdtype b))
                       (scells a) (scells b) ;;
               Ok (mkSeries (sname a) (sub_dtype (sdtype a) (sdtype b)) cs))
              = Ok s).
  { destruct (sdtype a), (sdtype b); try discriminate; exact H. }
  apply bind_ok in K. destruct K as [cs [E K]].
  injection K as <-. exact E.
Qed.

Lemma wrap_int64_small z : (0 <= z < 2 ^ 63)%Z -> wrap_int64 z = z.
Proof.
  intros H. unfold wrap_int64.
  change (2 ^ 64)%Z with (2 ^ 63 + 2 ^ 63)%Z.
  rewrite Z.mod_small by lia. lia.
Qed.

(** In order and in range, two years have a difference that is not
    negative, whatever the dtype it is taken in. *)
Lemma sub_number_nonneg d p q :
  0 <= q -> q <= p -> p < inject_Z (2 ^ 63) -> 0 <= sub_number d p q.
Proof.
  intros Hq Hpq Hp.
  assert (E : 0 <= p - q).
  { unfold Qminus. rewrite <- (Qplus_opp_r q). now apply Qplus_le_l. }
  destruct d; cbn [sub_number]; try exact E.
  assert (F0 : (0 <= Qfloor q)%Z).
  { change 0%Z with (Qfloor 0). now apply Qfloor_resp_le. }
  assert (F1 : (Qfloor q <= Qfloor p)%Z) by now apply Qfloor_resp_le.
  assert (F2 : (Qfloor p < 2 ^ 63)%Z).
  { rewrite Zlt_Qlt. eapply Qle_lt_trans; [apply Qfloor_le | exact Hp]. }
  rewrite wrap_int64_small by lia.
  change 0 with (inject_Z 0). rewrite <- Zle_Qle. lia.
Qed.

(** The heart of the matter, on columns as lists: what [ages_sound] says of
    the input survives imputation, and gives non-negative differences in
    the rows that are kept. *)
Lemma kept_ages_nonneg d labels : forall sold other sold' other' diff,
  ages_sound labels sold other = true ->
  Forall2 fills sold sold' ->
  Forall2 fills other other' ->
  sub_cells d sold' other' = Ok diff ->
  forallb nonneg_cell
    (mask_cells (map (fun l => negb (mem_label l removed_labels)) labels) diff)
  = true.
Proof.
  induction labels as [|l labels IH];
    intros sold other sold' other' diff S Fs Fo D; [reflexivity|].
  destruct sold as [|s sold]; [discriminate|].
  destruct other as [|o other]; [discriminate|].
  inversion Fs as [|? s' ? sold'' Hs Fs']; subst.
  inversion Fo as [|? o' ? other'' Ho Fo']; subst.
  cbn [ages_sound] in S. apply andb_prop in S. destruct S as [S1 S].
  cbn [sub_cells] in D. apply bind_ok in D. destruct D as [c [Ec D]].
  apply bind_ok in D. destruct D as [cs [Ecs D]]. injection D as <-.
  cbn [map mask_cells].
  destruct (mem_label l removed_labels) eqn:M; cbn [negb orb] in *.
  - eapply IH; eassumption.
  - cbn [forallb]. rewrite (IH _ _ _ _ _ S Fs' Fo' Ecs), andb_true_r.
    unfold not_after in S1.
    destruct s as [[p|?]|]; try discriminate.
    destruct o as [[q|?]|]; try discriminate.
    destruct Hs as [Hs|Hs]; [discriminate|]. subst s'.
    destruct Ho as [Ho|Ho]; [discriminate|]. subst o'.
    cbn [sub_cell] in Ec. injection Ec as <-. cbn [nonneg_cell].
    apply andb_prop in S1. destruct S1 as [S1 Hp].
    apply andb_prop in S1. destruct S1 as [Hq Hpq].
    apply Qle_bool_iff. apply Qle_bool_iff in Hq, Hpq.
    assert (Hp' : p < inject_Z (2 ^ 63)).
    { unfold Qlt_bool in Hp. apply negb_true_iff in Hp.
      apply Qnot_le_lt. intros L. apply Qle_bool_iff in L. congruence. }
    now apply sub_number_nonneg.
Qed.

Lemma column_traced labels1 labels2 df df1 df2 d l c' :
  drop_columns labels1 df = Ok df1 ->
  drop_columns labels2 df1 = Ok df2 ->
  getitem l (fillna d df2) = Ok c' ->
  exists c, getitem l df = Ok c /\ Forall2 fills (scells c) (scells c').
Proof.
  intros D1 D2 G. apply getitem_fillna in G. destruct G as [c [G F]].
  exists c. split; [|exact F].
  eapply getitem_before_drop; [exact D1|].
  eapply getitem_before_drop; [exact D2|exact G].
Qed.

Tactic Notation "bind_inv" hyp(H) ident(x) ident(E) :=
  apply bind_ok in H; destruct H as [x [E H]].

(** C3, as the code has it.  The function removes the rows labelled 1702,
    2180 and 2181, and no other, whatever the ages are.  When these are the
    only rows of the input in which a year is unknown, negative or after
    the year of sale, both derived ages are at least 0 in every row
    returned. *)
Theorem fixed_labels_remove_negative_ages df out :
  transform_features df = Ok out ->
  index out = filter (fun l => negb (mem_label l removed_labels)) (index df) /\
  (negative_ages_only_at_removed_labels df = true ->
   ages_nonneg out = Ok true).
Proof.
  intros H. unfold transform_features in H.
  bind_inv H df1 D1. bind_inv H df2 D2.
  bind_inv H fix_cols Efix. bind_inv H d Emode.
  set (df3 := fillna d df2) in *.
  bind_inv H yr_sold G1. bind_inv H year_built G2. bind_inv H years_sold S1.
  bind_inv H yr_sold' G3. bind_inv H year_remod G4.
  bind_inv H years_since_remod S2.
  set (df4 := setitem "Years Since Remod" years_since_remod
                (setitem "Years Before Sale" years_sold df3)) in *.
  bind_inv H df5 Rows. rename H into D3.
  assert (I4 : index df4 = index df).
  { unfold df4. rewrite !index_setitem. unfold df3. cbn [fillna index].
    apply drop_columns_ok in D1, D2. destruct D2 as [-> _], D1 as [-> _].
    reflexivity. }
  apply drop_rows_ok in Rows. fold removed_labels in Rows. rewrite I4 in Rows.
  split.
  - apply drop_columns_ok in D3. destruct D3 as [-> _].
    rewrite Rows. unfold mask_rows. cbn [index]. rewrite I4.
    apply mask_cells_filter.
  - intros Hyp. unfold negative_ages_only_at_removed_labels in Hyp.
    destruct (getitem "Yr Sold" df) as [sold|] eqn:Y; [|discriminate].
    destruct (getitem "Year Built" df) as [built|] eqn:B; [|discriminate].
    destruct (getitem "Year Remod/Add" df) as [remod|] eqn:M; [|discriminate].
    apply andb_prop in Hyp. destruct Hyp as [Hb Hr].
    destruct (column_traced _ _ _ _ _ _ _ _ D1 D2 G1) as [c1 [E1 F1]].
    destruct (column_traced _ _ _ _ _ _ _ _ D1 D2 G2) as [c2 [E2 F2]].
    destruct (column_traced _ _ _ _ _ _ _ _ D1 D2 G3) as [c3 [E3 F3]].
    destruct (column_traced _ _ _ _ _ _ _ _ D1 D2 G4) as [c4 [E4 F4]].
    rewrite Y in E1, E3. rewrite B in E2. rewrite M in E4.
    injection E1 as <-. injection E2 as <-.
    injection E3 as <-. injection E4 as <-.
    apply series_sub_cells in S1, S2.
    unfold ages_nonneg.
    rewrite (getitem_drop_columns _ _ _ "Years Before Sale" D3).
    rewrite (getitem_drop_columns _ _ _ "Years Since Remod" D3).
    cbv [mem_string existsb String.eqb Ascii.eqb Bool.eqb orb andb].
    rewrite Rows, !getitem_mask_rows. unfold df4.
    rewrite getitem_setitem_other by discriminate.
    rewrite !getitem_setitem_same. cbn [bind scells].
    rewrite (kept_ages_nonneg _ _ _ _ _ _ _ Hb F1 F2 S1).
    rewrite (kept_ages_nonneg _ _ _ _ _ _ _ Hr F3 F4 S2).
    reflexivity.
Qed.

Lemma misdated_sales_accepted :
  (out <- transform_features misdated_sales ;; Ok (index out)) =
  Ok (range_index 21).
Proof. vm_compute. reflexivity. Qed.

Lemma fixed_labels_remove_negative_ages_witness :
  (sold <- getitem "Yr Sold" misdated_sales ;;
   built <- getitem "Year Built" misdated_sales ;;
   remod <- getitem "Year Remod/Add" misdated_sales ;;
   before_sale <- series_sub sold built ;;
   since_remod <- series_sub sold remod ;;
   Ok (skipn 21 (index misdated_sales),
       skipn 21 (scells before_sale), skipn 21 (scells since_remod))) =
  Ok ([1702; 2180; 2181]%Z,
      [num 1; num (-1); num (-2)], [num (-1); num (-1); num (-2)]) /\
  negative_ages_only_at_removed_labels misdated_sales = true /\
  exists out,
    transform_features misdated_sales = Ok out /\
    index out =
      filter (fun l => negb (mem_label l removed_labels))
             (index misdated_sales) /\
    ages_nonneg out = Ok true.
Proof.
  split; [vm_compute; reflexivity|].
  assert (H : negative_ages_only_at_removed_labels misdated_sales = true)
    by (vm_compute; reflexivity).
  split; [exact H|].
  destruct (transform_features misdated_sales) as [out|e] eqn:E.
  - exists out. split; [reflexivity|].
    destruct (fixed_labels_remove_negative_ages misdated_sales out E)
      as [I A].
    split; [exact I | exact (A H)].
  - exfalso. pose proof misdated_sales_accepted as T.
    rewrite E in T. discriminate T.
Defined.

(** ** Properties of [select_features] *)

Lemma select_features_any_uniq_threshold df coeff_threshold u u' :
  select_features df coeff_threshold u = select_features df coeff_threshold u'.
Proof. reflexivity. Qed.

(** C4, at the failing input.  Street is on the allow-list and has three
    distinct values; called with [uniq_threshold] = 2 the function keeps it
    through the cardinality filter (its three indicator columns are in the
    result), as it does for any other value of the parameter. *)
Theorem uniq_threshold_not_consulted :
  In "Street"%string nominal_features /\
  (street <- getitem "Street" street_table ;;
   Ok (value_counts_len (scells street))) = Ok 3%nat /\
  (out <- select_features street_table default_coeff_threshold 2 ;;
   Ok (column_names out)) =
  Ok ["Gr Liv Area"; "Pool Area"; "SalePrice";
      "Street_Dirt"; "Street_Grvl"; "Street_Pave"]%string.
Proof.
  split; [simpl; tauto|].
  split; vm_compute; reflexivity.
Qed.

(** C5, counterexample.  The pool area is the same in every row, so its
    correlation with SalePrice is undefined and is not at least 0.4; the
    column is in the result all the same. *)
Lemma constant_column_retained :
  (pool <- getitem "Pool Area" street_table ;;
   price <- getitem "SalePrice" street_table ;;
   let r := pearson (scells pool) (scells price) in
   Ok (r, abs_ge r default_coeff_threshold)) = Ok (None, false) /\
  (out <- select_features street_table default_coeff_threshold
            default_uniq_threshold ;;
   Ok (has_column out "Pool Area")) = Ok true.
Proof. split; vm_compute; reflexivity. Qed.

Lemma abs_lt_negb_abs_ge c t :
  abs_lt (Some c) t = negb (abs_ge (Some c) t).
Proof.
  unfold abs_lt, abs_ge, Qlt_bool. now rewrite negb_orb.
Qed.

Lemma abs_lt_false r t :
  abs_lt r t = false <-> r = None \/ abs_ge r t = true.
Proof.
  destruct r as [c|].
  - rewrite abs_lt_negb_abs_ge, negb_false_iff. split; [auto|].
    intros [H|H]; [discriminate | exact H].
  - simpl. split; auto.
Qed.

Lemma same_name_same_column cols c c' :
  NoDup (map sname cols) ->
  In c cols -> In c' cols -> sname c = sname c' -> c = c'.
Proof.
  induction cols as [|x cols IH]; simpl; intros N H H' E; [contradiction|].
  inversion N as [|? ? Nx N']; subst.
  destruct H as [->|H], H' as [->|H'].
  - reflexivity.
  - exfalso. apply Nx. rewrite E. now apply in_map.
  - exfalso. apply Nx. rewrite <- E. now apply in_map.
  - now apply IH.
Qed.

Lemma mem_string_In l ls : mem_string l ls = true <-> In l ls.
Proof.
  unfold mem_string. rewrite existsb_exists. split.
  - intros [x [H E]]. apply String.eqb_eq in E. now subst.
  - intros H. exists l. split; [exact H | apply String.eqb_refl].
Qed.

Lemma has_column_In df l : has_column df l = true <-> In l (column_names df).
Proof.
  unfold has_column, column_names. rewrite existsb_exists, in_map_iff. split.
  - intros [c [H E]]. apply String.eqb_eq in E. now exists c.
  - intros [c [E H]]. exists c. split; [exact H|]. now apply String.eqb_eq.
Qed.

Lemma drop_columns_present labels df :
  (forall l, In l labels -> In l (column_names df)) ->
  drop_columns labels df =
  Ok (mkFrame (index df)
        (filter (fun c => negb (mem_string (sname c) labels)) (columns df))).
Proof.
  intros H. unfold drop_columns.
  assert (F : forallb (has_column df) labels = true).
  { apply forallb_forall. intros l Hl. now apply has_column_In, H. }
  now rewrite F.
Qed.

(** C5, as the code has it, for every way [corr] of computing the
    coefficient (that of pandas, in floating point, is one).  The filter
    drops the numeric columns whose computed coefficient is a number below
    the threshold in absolute value.  So a numeric column is kept when its
    computed coefficient is at least the threshold, and also when it is
    NaN; other columns are kept as they are. *)
Theorem correlation_filter_keeps corr df coeff_threshold target :
  NoDup (column_names df) ->
  getitem "SalePrice" (select_dtypes numeric_kinds df) = Ok target ->
  exists out,
    correlation_filter_by corr df coeff_threshold = Ok out /\
    index out = index df /\
    forall c,
      In c (columns out) <->
      In c (columns df) /\
      (is_numeric c = true ->
       corr (scells c) (scells target) = None \/
       abs_ge (corr (scells c) (scells target)) coeff_threshold = true).
Proof.
  intros N T. unfold correlation_filter_by, abs_corr_with_target_by.
  rewrite T. cbn [bind].
  set (dropped := map fst (filter _ _)).
  assert (D : forall l, In l dropped <->
            exists c, In c (columns df) /\ is_numeric c = true /\
                      sname c = l /\
                      abs_lt (corr (scells c) (scells target))
                             coeff_threshold = true).
  { intros l. unfold dropped. rewrite in_map_iff. split.
    - intros [[n r] [E H]]. cbn [fst] in E. subst n.
      apply filter_In in H. destruct H as [H A]. cbn [snd] in A.
      apply in_map_iff in H. destruct H as [c [E H]].
      injection E as <- <-.
      unfold select_dtypes in H. cbn [columns] in H.
      apply filter_In in H. destruct H as [H K].
      exists c. repeat split; assumption.
    - intros [c [H [K [<- A]]]].
      exists (sname c, corr (scells c) (scells target)).
      split; [reflexivity|]. apply filter_In. split; [|exact A].
      apply in_map_iff. exists c. split; [reflexivity|].
      unfold select_dtypes. cbn [columns]. apply filter_In. now split. }
  rewrite drop_columns_present.
  - eexists. split; [reflexivity|]. split; [reflexivity|].
    intros c. cbn [columns]. rewrite filter_In, negb_true_iff.
    split; intros [H K]; (split; [exact H|]).
    + intros Num. apply abs_lt_false.
      destruct (abs_lt _ _) eqn:A; [|reflexivity].
      assert (M : mem_string (sname c) dropped = true).
      { apply mem_string_In, D. exists c. repeat split; assumption. }
      congruence.
    + destruct (mem_string (sname c) dropped) eqn:M; [|reflexivity].
      apply mem_string_In, D in M. destruct M as [c' [H' [Num [E A]]]].
      assert (c' = c) by (eapply same_name_same_column; eassumption).
      subst c'. apply K, abs_lt_false in Num. congruence.
  - intros l Hl. apply D in Hl. destruct Hl as [c [H [_ [<- _]]]].
    unfold column_names. now apply in_map.
Qed.

Lemma correlation_filter_keeps_witness :
  NoDup (column_names street_table) /\
  exists target out,
    getitem "SalePrice" (select_dtypes numeric_kinds street_table) = Ok target /\
    correlation_filter_by pearson street_table default_coeff_threshold
      = Ok out /\
    index out = index street_table /\
    forall c,
      In c (columns out) <->
      In c (columns street_table) /\
      (is_numeric c = true ->
       pearson (scells c) (scells target) = None \/
       abs_ge (pearson (scells c) (scells target)) default_coeff_threshold
       = true).
Proof.
  assert (N : NoDup (column_names street_table)).
  { simpl. repeat constructor; simpl; intuition discriminate. }
  split; [exact N|].
  destruct (getitem "SalePrice" (select_dtypes numeric_kinds street_table))
    as [target|e] eqn:T; [|discriminate T].
  exists target.
  destruct (correlation_filter_keeps pearson street_table
              default_coeff_threshold target N T) as [out H].
  exists out. split; [reflexivity | exact H].
Defined.

(** *** Indicator columns *)

Lemma value_eqb_refl v : value_eqb v v = true.
Proof. destruct v; simpl; [apply Qeq_bool_refl | apply String.eqb_refl]. Qed.

Lemma value_eqb_sym v w : value_eqb v w = value_eqb w v.
Proof.
  destruct v, w; simpl; try reflexivity;
    [apply Qeq_bool_comm | apply String.eqb_sym].
Qed.

Lemma value_eqb_trans u v w :
  value_eqb u v = true -> value_eqb v w = true -> value_eqb u w = true.
Proof.
  destruct u, v, w; simpl; try discriminate.
  - apply Qeq_bool_trans.
  - rewrite !String.eqb_eq. congruence.
Qed.

Lemma matches_cons w v vs :
  matches w (v :: vs) =
  ((if value_eqb v w then 1 else 0) + matches w vs)%nat.
Proof. unfold matches. simpl. now destruct (value_eqb v w). Qed.

Lemma matches_filter_out v w vs :
  matches w (filter (fun x => negb (value_eqb v x)) vs) =
  if value_eqb v w then 0%nat else matches w vs.
Proof.
  induction vs as [|x vs IH]; cbn [filter].
  - now destruct (value_eqb v w).
  - destruct (value_eqb v x) eqn:Vx; cbn [negb]; rewrite ?matches_cons, IH.
    + destruct (value_eqb v w) eqn:Vw; [reflexivity|].
      destruct (value_eqb x w) eqn:Xw; [|reflexivity].
      rewrite (value_eqb_trans v x w Vx Xw) in Vw. discriminate.
    + destruct (value_eqb v w) eqn:Vw; [|reflexivity].
      destruct (value_eqb x w) eqn:Xw; [|reflexivity].
      rewrite value_eqb_sym in Xw.
      rewrite (value_eqb_trans v w x Vw Xw) in Vx. discriminate.
Qed.

Lemma matches_distinct w vs :
  (exists v, In v vs /\ value_eqb v w = true) ->
  matches w (distinct vs) = 1%nat.
Proof.
  induction vs as [|v vs IH]; intros [x [H E]]; [contradiction|].
  cbn [distinct]. rewrite matches_cons, matches_filter_out.
  destruct (value_eqb v w) eqn:Vw; [reflexivity|].
  apply IH. destruct H as [->|H]; [congruence|]. now exists x.
Qed.

Lemma matches_insert_sorted w v vs :
  matches w (insert_sorted v vs) = matches w (v :: vs).
Proof.
  induction vs as [|x vs IH]; cbn [insert_sorted]; [reflexivity|].
  destruct (value_ltb x v); [|reflexivity].
  rewrite !matches_cons, IH, matches_cons. lia.
Qed.

Lemma matches_sorted w vs :
  matches w (fold_right insert_sorted [] vs) = matches w vs.
Proof.
  induction vs as [|v vs IH]; [reflexivity|].
  cbn [fold_right]. now rewrite matches_insert_sorted, !matches_cons, IH.
Qed.

Lemma length_insert_sorted v vs :
  length (insert_sorted v vs) = S (length vs).
Proof.
  induction vs as [|x vs IH]; simpl; [reflexivity|].
  destruct (value_ltb x v); simpl; [now rewrite IH | reflexivity].
Qed.

Lemma length_categories cs : length (categories cs) = value_counts_len cs.
Proof.
  unfold categories, value_counts_len.
  induction (distinct (present cs)) as [|v vs IH]; [reflexivity|].
  cbn [fold_right]. now rewrite length_insert_sorted, IH.
Qed.

Lemma In_present w cs : In (Some w) cs -> In w (present cs).
Proof.
  induction cs as [|[v|] cs IH]; simpl; [tauto| |].
  - intros [H|H]; [left; congruence | right; auto].
  - intros [H|H]; [discriminate | auto].
Qed.

Lemma no_missing_cells cs i :
  count_missing cs = 0%nat -> (i < length cs)%nat ->
  exists w, nth i cs None = Some w.
Proof.
  unfold count_missing. revert i.
  induction cs as [|c cs IH]; simpl; intros i H L; [lia|].
  destruct c as [v|]; simpl in H; [|discriminate].
  destruct i as [|i]; [now exists v|]. apply IH; [exact H | lia].
Qed.

Lemma indicator_sum w vs :
  Qsum (map (fun v => cell_number (indicator v (Some w))) vs)
  == inject_Z (Z.of_nat (matches w vs)).
Proof.
  induction vs as [|v vs IH]; [reflexivity|].
  rewrite matches_cons. cbn [map]. unfold Qsum in *. cbn [fold_right].
  rewrite IH. cbn [indicator].
  destruct (value_eqb v w); cbn [cell_number].
  - rewrite Nat2Z.inj_add, inject_Z_plus. reflexivity.
  - rewrite Nat.add_0_l. Lqa.lra.
Qed.

Lemma dummies_row_sum c i :
  count_missing (scells c) = 0%nat -> (i < length (scells c))%nat ->
  row_sum (dummies_of c) i == 1.
Proof.
  intros M L. destruct (no_missing_cells _ _ M L) as [w W].
  unfold row_sum, dummies_of. rewrite map_map. cbn [scells].
  assert (E : forall v,
             nth i (map (indicator v) (scells c)) None = indicator v (Some w)).
  { intros v. rewrite (nth_indep _ None (indicator v None))
      by now rewrite length_map.
    now rewrite map_nth, W. }
  rewrite (map_ext _ (fun v => cell_number (indicator v (Some w))))
    by (intros v; now rewrite E).
  rewrite indicator_sum. unfold categories.
  rewrite matches_sorted, matches_distinct; [reflexivity|].
  exists w. split; [|apply value_eqb_refl].
  apply In_present. rewrite <- W. now apply nth_In.
Qed.

Lemma dummies_binary c d :
  In d (dummies_of c) -> forallb binary_cell (scells d) = true.
Proof.
  unfold dummies_of. rewrite in_map_iff. intros [v [<- _]]. cbn [scells].
  apply forallb_forall. intros x H. apply in_map_iff in H.
  destruct H as [y [<- _]].
  destruct y as [w|]; simpl; [destruct (value_eqb v w)|]; reflexivity.
Qed.

(** Numbers among the levels are written as Python writes floats. *)
Lemma numeric_level_labels :
  map level_label
    [Num (3 # 2); Num 2; Num 10; Num (1 # 10); Num (-5 # 2); Num 0;
     Num (inject_Z (10 ^ 16)); Num (1 # 100000); Num (1 # 3)]
  = ["1.5"; "2.0"; "10.0"; "0.1"; "-2.5"; "0.0"; "1e+16"; "1e-05";
     "0.3333333333333333"]%string /\
  map sname
    (dummies_of
       (mkSeries "Zone" Object
          [Some (Num 2); Some (Num 10); Some (Num (3 # 2)); Some (Num 2)]))
  = ["Zone_1.5"; "Zone_2.0"; "Zone_10.0"]%string.
Proof. split; vm_compute; reflexivity. Qed.

(** What the encoding returns: the columns of the table and the indicator
    columns of its categorical columns, less those labelled like a text
    column. *)
Lemma encode_text_columns_ok df c :
  In c (columns df) -> sdtype c = Object ->
  encode_text_columns df =
  Ok (mkFrame (index df)
        (filter (fun x => negb (mem_string (sname x) (text_labels df)))
           (columns (astype_category (text_labels df) df)
            ++ flat_map dummies_of
                 (columns (select_dtypes [Category]
                             (astype_category (text_labels df) df)))))).
Proof.
  intros H O. unfold encode_text_columns. fold (text_labels df).
  set (df' := astype_category (text_labels df) df).
  assert (T : In (sname c) (text_labels df)).
  { unfold text_labels, column_names, select_dtypes. cbn [columns].
    apply in_map, filter_In. split; [exact H|]. now rewrite O. }
  assert (C : In (mkSeries (sname c) Category (scells c))
                 (columns (select_dtypes [Category] df'))).
  { unfold select_dtypes, df', astype_category. cbn [columns].
    apply filter_In. split; [|reflexivity].
    apply in_map_iff. exists c. split; [|exact H].
    apply mem_string_In in T. now rewrite T. }
  unfold get_dummies.
  destruct (columns (select_dtypes [Category] df')) as [|x xs] eqn:E;
    [contradiction|].
  cbn [bind]. rewrite drop_columns_present; [reflexivity|].
  intros l Hl. unfold column_names, concat_columns. cbn [columns].
  rewrite map_app. apply in_or_app. left.
  unfold df', astype_category. cbn [columns]. rewrite map_map.
  unfold text_labels, column_names, select_dtypes in Hl. cbn [columns] in Hl.
  apply in_map_iff in Hl. destruct Hl as [y [<- Hy]].
  apply filter_In in Hy. destruct Hy as [Hy _].
  apply in_map_iff. exists y. split; [|exact Hy].
  now destruct (mem_string (sname y) _).
Qed.

(** C9, at the failing input.  Zone is a text column with two levels and
    no missing entry, and Zone_A is a text column too.  The encoding makes
    the two indicator columns Zone_A and Zone_B of Zone, but the concluding
    [drop] goes by label and takes the indicator column Zone_A away with
    the text column of that label: one indicator column of Zone is
    returned, not two, and in the rows where Zone is A no indicator of Zone
    that is returned holds a 1. *)
Theorem indicator_dropped_with_text_column :
  (zone <- getitem "Zone" colliding_labels_table ;;
   Ok (sdtype zone, scells zone, value_counts_len (scells zone),
       count_missing (scells zone), map sname (dummies_of zone)))
  = Ok (Object, map txt ["A"; "B"; "A"; "B"]%string, 2%nat, 0%nat,
        ["Zone_A"; "Zone_B"]%string) /\
  (out <- select_features colliding_labels_table default_coeff_threshold
            default_uniq_threshold ;;
   Ok (column_names out)) =
  Ok ["Gr Liv Area"; "SalePrice"; "Zone_B"; "Zone_A_u"; "Zone_A_v"]%string /\
  (out <- select_features colliding_labels_table default_coeff_threshold
            default_uniq_threshold ;;
   zone_b <- getitem "Zone_B" out ;;
   Ok (scells zone_b)) = Ok [num 0; num 1; num 0; num 1].
Proof. repeat split; vm_compute; reflexivity. Qed.

(** The encoding of a text column in general.  With k distinct values and
    no missing entry it gets k indicator columns, each of zeros and ones,
    summing to 1 in every row.  An indicator column is in the returned
    table exactly when its label is not the label of a text column, and no
    returned column carries the label of the text column itself. *)
Theorem text_column_one_hot df c :
  In c (columns df) ->
  sdtype c = Object ->
  count_missing (scells c) = 0%nat ->
  exists out,
    encode_text_columns df = Ok out /\
    length (dummies_of c) = value_counts_len (scells c) /\
    (forall d, In d (dummies_of c) ->
               sdtype d = Integer /\
               forallb binary_cell (scells d) = true /\
               (In d (columns out) <-> ~ In (sname d) (text_labels df))) /\
    (forall i, (i < length (scells c))%nat -> row_sum (dummies_of c) i == 1) /\
    ~ In (sname c) (column_names out).
Proof.
  intros H O M. eexists. split; [now apply encode_text_columns_ok with c|].
  assert (T : In (sname c) (text_labels df)).
  { unfold text_labels, column_names, select_dtypes. cbn [columns].
    apply in_map, filter_In. split; [exact H|]. now rewrite O. }
  split; [|split; [|split]].
  - unfold dummies_of. rewrite length_map. apply length_categories.
  - intros d Hd. split; [|split; [now apply dummies_binary with c|]].
    { unfold dummies_of in Hd. apply in_map_iff in Hd.
      now destruct Hd as [v [<- _]]. }
    cbn [columns]. rewrite filter_In, negb_true_iff. split.
    + intros [_ K] L. apply mem_string_In in L. congruence.
    + intros Free. split.
      * apply in_or_app. right. apply in_flat_map.
        exists (mkSeries (sname c) Category (scells c)). split; [|exact Hd].
        unfold select_dtypes, astype_category. cbn [columns].
        apply filter_In. split; [|reflexivity].
        apply in_map_iff. exists c. split; [|exact H].
        apply mem_string_In in T. now rewrite T.
      * destruct (mem_string (sname d) _) eqn:K; [|reflexivity].
        apply mem_string_In in K. contradiction.
  - intros i L. now apply dummies_row_sum.
  - unfold column_names. cbn [columns]. rewrite in_map_iff.
    intros [x [E Hx]]. apply filter_In in Hx. destruct Hx as [_ Hx].
    apply negb_true_iff in Hx. rewrite E in Hx.
    apply mem_string_In in T. congruence.
Qed.

Lemma text_column_one_hot_witness :
  In street_column (columns street_table) /\
  sdtype street_column = Object /\
  count_missing (scells street_column) = 0%nat /\
  exists out,
    encode_text_columns street_table = Ok out /\
    length (dummies_of street_column) = 3%nat /\
    (forall d, In d (dummies_of street_column) ->
               In d (columns out) <->
               ~ In (sname d) (text_labels street_table)) /\
    (forall i, (i < 6)%nat -> row_sum (dummies_of street_column) i == 1) /\
    ~ In "Street"%string (column_names out).
Proof.
  assert (H : In street_column (columns street_table))
    by (simpl; tauto).
  assert (O : sdtype street_column = Object) by reflexivity.
  assert (M : count_missing (scells street_column) = 0%nat) by reflexivity.
  split; [exact H|]. split; [exact O|]. split; [exact M|].
  destruct (text_column_one_hot street_table street_column H O M)
    as [out [E [L [I [S N]]]]].
  exists out. split; [exact E|]. split; [exact L|].
  split; [intros d Hd; exact (proj2 (proj2 (I d Hd)))|].
  split; [exact S | exact N].
Defined.

(** *** The comparison of a coefficient with the threshold, in real numbers *)

Lemma Qlt_bool_iff x y : Qlt_bool x y = true <-> x < y.
Proof.
  unfold Qlt_bool. rewrite negb_true_iff. split.
  - intros H. apply Qnot_le_lt. intros L.
    apply Qle_bool_iff in L. congruence.
  - intros H. destruct (Qle_bool y x) eqn:L; [|reflexivity].
    apply Qle_bool_iff in L. exfalso. exact (Qlt_not_le _ _ H L).
Qed.

Lemma pearson_vars_positive xs ys c : pearson xs ys = Some c -> 0 < vars c.
Proof.
  unfold pearson. destruct (Qlt_bool 0 _) eqn:V; [|discriminate].
  intros H. injection H as <-. cbn [vars]. now apply Qlt_bool_iff.
Qed.

Lemma Rabs_div_lt s w t :
  (0 < w)%R -> (Rabs (s / w) < t <-> 0 < t /\ s * s < t * t * (w * w))%R.
Proof.
  intros W.
  assert (E : (Rabs (s / w) = Rabs s / w)%R).
  { unfold Rdiv. rewrite Rabs_mult, (Rabs_pos_eq (/ w)); [reflexivity|].
    left. now apply Rinv_0_lt_compat. }
  rewrite E.
  assert (A : (0 <= Rabs s)%R) by apply Rabs_pos.
  assert (Q : (Rabs s * Rabs s = s * s)%R).
  { unfold Rabs. destruct (Rcase_abs s); lra. }
  assert (D : (Rabs s / w < t <-> Rabs s < t * w)%R).
  { split; intros H.
    - apply Rmult_lt_reg_r with (r := (/ w)%R);
        [now apply Rinv_0_lt_compat|].
      rewrite Rmult_assoc, Rinv_r by lra. unfold Rdiv in H. lra.
    - apply Rmult_lt_compat_r with (r := (/ w)%R) in H;
        [|now apply Rinv_0_lt_compat].
      rewrite Rmult_assoc, Rinv_r in H by lra. unfold Rdiv. lra. }
  rewrite D. rewrite <- Q. split.
  - intros H.
    assert (T : (0 < t)%R).
    { destruct (Rlt_le_dec 0 t) as [T|T]; [exact T|]. exfalso.
      assert (t * w <= 0)%R by nra. lra. }
    split; [exact T|].
    assert (P : (0 < (t * w - Rabs s) * (t * w + Rabs s))%R)
      by (apply Rmult_lt_0_compat; lra).
    nra.
  - intros [T H].
    destruct (Rlt_le_dec (Rabs s) (t * w)) as [L|L]; [exact L|]. exfalso.
    assert (P : (0 < t * w)%R) by (apply Rmult_lt_0_compat; lra).
    assert (S : (t * w * (t * w) <= Rabs s * Rabs s)%R)
      by (apply Rmult_le_compat; lra).
    nra.
Qed.

(** On a defined coefficient, [abs_lt] is the comparison [|r| < t] of real
    numbers. *)
Lemma abs_lt_real c t :
  0 < vars c ->
  abs_lt (Some c) t = true <-> (Rabs (coefficient_value c) < Q2R t)%R.
Proof.
  intros V. apply Qlt_Rlt in V. rewrite RMicromega.Q2R_0 in V.
  unfold abs_lt, coefficient_value.
  rewrite andb_true_iff, !Qlt_bool_iff.
  rewrite (Rabs_div_lt _ _ _ (sqrt_lt_R0 _ V)).
  rewrite sqrt_sqrt by lra.
  rewrite <- RMicromega.Q2R_0, <- !Q2R_mult.
  split; intros [H1 H2]; split;
    first [now apply Qlt_Rlt | now apply Rlt_Qlt].
Qed.

(** ... and [abs_ge] is [|r| >= t]. *)
Lemma abs_ge_real c t :
  0 < vars c ->
  abs_ge (Some c) t = true <-> (Q2R t <= Rabs (coefficient_value c))%R.
Proof.
  intros V. pose proof (abs_lt_real c t V) as L.
  rewrite abs_lt_negb_abs_ge, negb_true_iff in L.
  destruct (abs_ge (Some c) t); split; intros H.
  - apply Rnot_lt_le. intros K. apply L in K. discriminate.
  - reflexivity.
  - discriminate.
  - exfalso. assert (K : (Rabs (coefficient_value c) < Q2R t)%R)
      by (apply L; reflexivity). lra.
Qed.

(** On a computed number the two comparisons are those of its absolute
    value with the threshold. *)
Lemma abs_lt_computed r t : abs_lt (computed r) t = true <-> Qabs r < t.
Proof.
  unfold abs_lt, computed. cbn [cov vars].
  rewrite andb_true_iff, !Qlt_bool_iff, Qabs_Qlt_condition. split.
  - intros [P H]. split; Lqa.nra.
  - intros [L U]. split; Lqa.nra.
Qed.

Lemma abs_ge_computed r t : abs_ge (computed r) t = true <-> t <= Qabs r.
Proof.
  pose proof (abs_lt_computed r t) as L. unfold computed in *.
  rewrite abs_lt_negb_abs_ge, negb_true_iff in L.
  destruct (abs_ge (Some (mkCoefficient r 1)) t); split; intros H.
  - apply Qnot_lt_le. intros K. apply L in K. discriminate.
  - reflexivity.
  - discriminate.
  - exfalso. apply (Qlt_irrefl t).
    eapply Qle_lt_trans; [exact H|]. now apply L.
Qed.

(** *** The one-column solver is least squares *)

Lemma Qsum_cons x l : Qsum (x :: l) = x + Qsum l.
Proof. reflexivity. Qed.

Lemma Qsum_ext {A} (f g : A -> Q) l :
  (forall a, f a == g a) -> Qsum (map f l) == Qsum (map g l).
Proof.
  intros H. induction l as [|a l IH]; [reflexivity|].
  cbn [map]. rewrite !Qsum_cons, IH, H. reflexivity.
Qed.

Lemma Qsum_plus {A} (f g : A -> Q) l :
  Qsum (map (fun a => f a + g a) l) == Qsum (map f l) + Qsum (map g l).
Proof.
  induction l as [|a l IH]; [reflexivity|].
  cbn [map]. rewrite !Qsum_cons, IH. ring.
Qed.

Lemma Qsum_scale {A} c (f : A -> Q) l :
  Qsum (map (fun a => c * f a) l) == c * Qsum (map f l).
Proof.
  induction l as [|a l IH]; [cbn; ring|].
  cbn [map]. rewrite !Qsum_cons, IH. ring.
Qed.

Lemma Qsum_const {A} c (l : list A) :
  Qsum (map (fun _ => c) l) == Qlen l * c.
Proof.
  unfold Qlen. induction l as [|a l IH]; [cbn; ring|].
  cbn [map length]. rewrite Qsum_cons, IH, Nat2Z.inj_succ, <- Z.add_1_l.
  rewrite inject_Z_plus. ring.
Qed.

Lemma Qsum_squares_nonneg {A} (f : A -> Q) l :
  0 <= Qsum (map (fun a => f a * f a) l).
Proof.
  induction l as [|a l IH]; [apply Qle_refl|].
  cbn [map]. rewrite Qsum_cons.
  assert (0 <= f a * f a) by Lqa.nra.
  Lqa.lra.
Qed.

Lemma Qlen_nonzero {A} (l : list A) : l <> [] -> ~ Qlen l == 0.
Proof.
  destruct l as [|a l]; [congruence|]. intros _ H.
  unfold Qlen, Qeq in H. cbn [length Qnum Qden inject_Z] in H. lia.
Qed.

Lemma combine_fst_snd {A B} (l : list (A * B)) :
  combine (map fst l) (map snd l) = l.
Proof.
  induction l as [|[a b] l IH]; [reflexivity|]. cbn. now rewrite IH.
Qed.

(** The residuals of the line [b + w * x] sum to zero and are orthogonal to
    the feature (the normal equations) when [b] and [w] are the solver's. *)
Lemma normal_equations ps b w :
  ps <> [] ->
  ~ co_moment ps fst fst == 0 ->
  w == co_moment ps fst snd / co_moment ps fst fst ->
  b == (Qsum (map snd ps) - w * Qsum (map fst ps)) / Qlen ps ->
  Qsum (map (fun p => snd p - (b + w * fst p)) ps) == 0 /\
  Qsum (map (fun p => fst p * (snd p - (b + w * fst p))) ps) == 0.
Proof.
  intros Hne Hxx Hw Hb. pose proof (Qlen_nonzero ps Hne) as Hn.
  unfold co_moment in *.
  assert (E1 : Qsum (map (fun p => snd p - (b + w * fst p)) ps)
               == Qsum (map snd ps) - Qlen ps * b
                  - w * Qsum (map fst ps)).
  { rewrite (Qsum_ext _ (fun p => snd p + ((- b) + (- w) * fst p)))
      by (intros; cbv beta; ring).
    rewrite Qsum_plus, Qsum_plus, Qsum_scale, Qsum_const. ring. }
  assert (E2 : Qsum (map (fun p => fst p * (snd p - (b + w * fst p))) ps)
               == Qsum (map (fun p => fst p * snd p) ps)
                  - b * Qsum (map fst ps)
                  - w * Qsum (map (fun p => fst p * fst p) ps)).
  { rewrite (Qsum_ext _ (fun p => fst p * snd p
                                  + ((- b) * fst p + (- w) * (fst p * fst p))))
      by (intros; cbv beta; ring).
    rewrite Qsum_plus, Qsum_plus, !Qsum_scale. ring. }
  rewrite E1, E2, Hb, Hw. split; field; auto.
Qed.

(** No line has a smaller sum of squared residuals than the solver's. *)
Lemma simple_least_squares_optimal ps :
  ps <> [] ->
  ~ co_moment ps fst fst == 0 ->
  forall a c,
    squared_residuals
      (fst (simple_least_squares (map (fun p => [fst p]) ps) (map snd ps)))
      (hd 0 (snd (simple_least_squares (map (fun p => [fst p]) ps)
                    (map snd ps))))
      ps
    <= squared_residuals a c ps.
Proof.
  intros Hne Hxx a c. unfold simple_least_squares.
  rewrite map_map. cbn [hd]. rewrite combine_fst_snd. cbn [fst snd hd].
  destruct (Qeq_bool (co_moment ps fst fst) 0) eqn:Z;
    [apply Qeq_bool_iff in Z; contradiction|].
  set (w := Qred (co_moment ps fst snd / co_moment ps fst fst)).
  set (b := Qred ((Qsum (map snd ps)
                   - co_moment ps fst snd / co_moment ps fst fst
                     * Qsum (map fst ps)) / Qlen ps)).
  destruct (normal_equations ps b w Hne Hxx) as [N1 N2].
  { unfold w. apply Qred_correct. }
  { unfold b, w. rewrite !Qred_correct. reflexivity. }
  clearbody b. clearbody w.
  unfold squared_residuals.
  rewrite (Qsum_ext
             (fun p => (snd p - (a + c * fst p)) * (snd p - (a + c * fst p)))
             (fun p => (snd p - (b + w * fst p)) * (snd p - (b + w * fst p))
                       + ((2 * (b - a)) * (snd p - (b + w * fst p))
                          + ((2 * (w - c)) * (fst p * (snd p - (b + w * fst p)))
                             + ((b - a) + (w - c) * fst p)
                               * ((b - a) + (w - c) * fst p)))))
    by (intros; cbv beta; ring).
  rewrite !Qsum_plus, !Qsum_scale, N1, N2.
  pose proof (Qsum_squares_nonneg (fun p => (b - a) + (w - c) * fst p) ps)
    as P.
  cbv beta in P. Lqa.lra.
Qed.

(** ** More on [train_and_test]: values and errors *)

Section TrainAndTestFacts.

Variable least_squares : matrix -> list Q -> Q * list Q.

Lemma fit_and_score_nonneg features train test v :
  fit_and_score least_squares features train test = Ok v -> (0 <= v)%R.
Proof.
  unfold fit_and_score. intros H. apply bind_ok in H.
  destruct H as [mse [_ H]]. injection H as <-. apply sqrt_pos.
Qed.

Lemma kfold_loop_nonneg features df splits : forall vs,
  kfold_loop least_squares features df splits = Ok vs ->
  Forall (fun v => 0 <= v)%R vs.
Proof.
  induction splits as [|[train_index test_index] splits IH]; intros vs H.
  - injection H as <-. constructor.
  - cbn [kfold_loop] in H. apply bind_ok in H. destruct H as [v [Hv H]].
    apply bind_ok in H. destruct H as [vs' [Hvs H]]. injection H as <-.
    constructor; [now apply fit_and_score_nonneg in Hv | now apply IH].
Qed.

Lemma np_mean_nonneg vs : Forall (fun v => 0 <= v)%R vs -> (0 <= np_mean vs)%R.
Proof.
  intros H. unfold np_mean.
  assert (S : (0 <= Rsum vs)%R).
  { unfold Rsum. induction H; cbn [fold_right]; lra. }
  destruct vs as [|v vs].
  - simpl. unfold Rdiv. rewrite Rmult_0_l. lra.
  - apply Rmult_le_pos; [exact S|].
    left. apply Rinv_0_lt_compat. apply lt_0_INR. simpl. lia.
Qed.

(** Whatever the mode, a value returned is a non-negative number. *)
Theorem train_and_test_nonneg df k rng v :
  train_and_test least_squares df k rng = Ok v -> (0 <= v)%R.
Proof.
  unfold train_and_test. intros H.
  apply bind_ok in H. destruct H as [features [_ H]].
  destruct (k =? 0)%Z; [now apply fit_and_score_nonneg in H|].
  destruct (k =? 1)%Z.
  - apply bind_ok in H. destruct H as [r1 [H1 H]].
    apply bind_ok in H. destruct H as [r2 [H2 H]]. injection H as <-.
    apply np_mean_nonneg. apply fit_and_score_nonneg in H1, H2.
    apply Forall_cons; [exact H1|]. apply Forall_cons; [exact H2|].
    apply Forall_nil.
  - apply bind_ok in H. destruct H as [splits [_ H]].
    apply bind_ok in H. destruct H as [vs [Hvs H]]. injection H as <-.
    apply np_mean_nonneg. now apply kfold_loop_nonneg in Hvs.
Qed.

Lemma feature_columns_key_error df :
  ~ In "SalePrice"%string (column_names (select_dtypes numeric_kinds df)) ->
  feature_columns df = Raise KeyError.
Proof.
  intros H. unfold feature_columns, drop_label.
  destruct (mem_string _ _) eqn:M; [|reflexivity].
  apply mem_string_In in M. contradiction.
Qed.

(** Without a numeric column labelled SalePrice the call is a [KeyError],
    in every mode. *)
Theorem no_numeric_target_key_error df k rng :
  ~ In "SalePrice"%string (column_names (select_dtypes numeric_kinds df)) ->
  train_and_test least_squares df k rng = Raise KeyError.
Proof.
  intros H. unfold train_and_test.
  now rewrite (feature_columns_key_error df H).
Qed.

(** A negative number of folds, or more folds than rows, ends in an
    exception. *)
Theorem bad_fold_count_raises df k rng :
  (k < 0 \/ Z.of_nat (len df) < k)%Z ->
  raises (train_and_test least_squares df k rng).
Proof.
  intros H. unfold train_and_test. raise_step.
  destruct (Z.eqb_spec k 0) as [->|N0].
  { destruct H as [H|H]; [lia|]. exfalso. lia. }
  destruct (Z.eqb_spec k 1) as [->|N1].
  - raise_first. apply fit_and_score_raises. unfold fit_and_mse.
    do 2 raise_step. raise_first. unfold fit. raise_first.
    rewrite check_array_no_rows; [eexists; reflexivity|].
    erewrite getframe_index by eassumption.
    change (index (head_rows 1460 df)) with (firstn 1460 (index df)).
    unfold len in H. destruct (index df); [reflexivity|].
    simpl in H. lia.
  - raise_first. unfold kfold_split.
    destruct (Z.ltb_spec k 2); [eexists; reflexivity|].
    destruct (Z.ltb_spec (Z.of_nat (len df)) k); [eexists; reflexivity|].
    lia.
Qed.

Lemma feature_columns_head n df :
  drop_label "SalePrice"
    (column_names (select_dtypes numeric_kinds (head_rows n df)))
  = feature_columns df.
Proof.
  unfold feature_columns. f_equal.
  unfold column_names, select_dtypes, head_rows. cbn [columns].
  induction (columns df) as [|c cols IH]; [reflexivity|].
  cbn [map filter sdtype].
  destruct (existsb _ _); cbn [map sname]; now rewrite IH.
Qed.

(** The first draft, with its statements grouped as in the final one. *)
Lemma first_draft_unfold df :
  FirstDraft.train_and_test least_squares df =
  (features <- feature_columns df ;;
   fit_and_score least_squares features
     (head_rows 1460 df) (tail_rows 1460 df)).
Proof.
  unfold FirstDraft.train_and_test. rewrite feature_columns_head.
  unfold fit_and_score, fit_and_mse.
  destruct (feature_columns df) as [features|]; cbn [bind]; [|reflexivity].
  destruct (getframe features (head_rows 1460 df)) as [X|];
    cbn [bind]; [|reflexivity].
  destruct (getitem "SalePrice" (head_rows 1460 df)) as [y|];
    cbn [bind]; [|reflexivity].
  destruct (fit least_squares X y) as [lr|]; cbn [bind]; [|reflexivity].
  destruct (getframe features (tail_rows 1460 df)) as [X_test|];
    cbn [bind]; [|reflexivity].
  destruct (predict lr X_test) as [predictions|]; cbn [bind]; [|reflexivity].
  destruct (getitem "SalePrice" (tail_rows 1460 df)) as [y_test|];
    cbn [bind]; [|reflexivity].
  destruct (mean_squared_error y_test predictions); reflexivity.
Qed.

(** The final function in its default mode is the first draft: the same
    value or the same exception, whatever the table. *)
Theorem holdout_is_first_draft df rng :
  train_and_test least_squares df 0 rng =
  FirstDraft.train_and_test least_squares df.
Proof.
  rewrite first_draft_unfold. unfold train_and_test.
  destruct (feature_columns df); reflexivity.
Qed.

End TrainAndTestFacts.

Lemma train_and_test_nonneg_witness :
  exists v,
    train_and_test simple_least_squares four_sales 2 [0; 1; 2; 3]%nat = Ok v /\
    (0 <= v)%R.
Proof.
  destruct (train_and_test simple_least_squares four_sales 2 [0; 1; 2; 3]%nat)
    as [v|e] eqn:E.
  - exists v. split; [reflexivity|].
    exact (train_and_test_nonneg simple_least_squares four_sales 2
             [0; 1; 2; 3]%nat v E).
  - exfalso. rewrite train_and_test_kfold in E by discriminate.
    assert (M : kfold_mse_values simple_least_squares four_sales 2
                  [0; 1; 2; 3]%nat = Ok [5 # 2; 1 # 2])
      by (vm_compute; reflexivity).
    rewrite M in E. discriminate E.
Defined.

Lemma no_numeric_target_key_error_witness :
  ~ In "SalePrice"%string
      (column_names (select_dtypes numeric_kinds text_price_table)) /\
  train_and_test simple_least_squares text_price_table 0 [] = Raise KeyError.
Proof.
  assert (H : ~ In "SalePrice"%string
                  (column_names (select_dtypes numeric_kinds text_price_table))).
  { simpl. intros [H|H]; [discriminate H | exact H]. }
  split; [exact H|].
  exact (no_numeric_target_key_error simple_least_squares text_price_table
           0 [] H).
Defined.

Lemma bad_fold_count_raises_witness :
  (Z.of_nat (len four_sales) < 5)%Z /\
  raises (train_and_test simple_least_squares four_sales 5 []).
Proof.
  assert (H : (Z.of_nat (len four_sales) < 5)%Z) by reflexivity.
  split; [exact H|].
  exact (bad_fold_count_raises simple_least_squares four_sales 5 []
           (or_intror H)).
Defined.

(** *** Missing feature values *)

Lemma Ok_inj {A} (a b : A) : Ok a = Ok b -> a = b.
Proof. intros H. now injection H. Qed.

Lemma raises_Ok {A} (a : A) : ~ raises (Ok a).
Proof. intros [e H]. discriminate. Qed.

Lemma traverse_raises {A B} (f : A -> result B) l :
  (exists a, In a l /\ raises (f a)) -> raises (traverse f l).
Proof.
  induction l as [|x l IH]; intros [a [H Ra]]; [contradiction|].
  cbn [traverse]. destruct (f x) as [b|e] eqn:Fx; cbn [bind];
    [|eexists; reflexivity].
  raise_first. apply IH. destruct H as [->|H].
  - rewrite Fx in Ra. now apply raises_Ok in Ra.
  - now exists a.
Qed.

Lemma transpose_raises n : forall (cols : list (list cell)) col i,
  In col cols -> (i < n)%nat -> nth i col None = None ->
  raises (traverse (traverse finite) (transpose n cols None)).
Proof.
  induction n as [|n IH]; intros cols col i H L E; [lia|].
  cbn [transpose traverse].
  destruct i as [|i].
  - raise_first. apply traverse_raises. exists None. split.
    + apply in_map_iff. exists col. split; [|exact H].
      destruct col; [reflexivity | exact E].
    + eexists; reflexivity.
  - destruct (traverse finite _); cbn [bind]; [|eexists; reflexivity].
    raise_first. apply (IH _ (tl col) i).
    + now apply in_map.
    + lia.
    + destruct col; [now destruct i | exact E].
Qed.

Lemma check_array_missing X c i :
  In c (columns X) -> (i < len X)%nat -> nth i (scells c) None = None ->
  raises (check_array X).
Proof.
  intros H L E. unfold check_array. raise_first.
  apply (transpose_raises _ _ (scells c) i); [now apply in_map | exact L | exact E].
Qed.

Lemma getitem_ok l df c :
  getitem l df = Ok c -> In c (columns df) /\ sname c = l.
Proof.
  rewrite getitem_find.
  destruct (find (named l) (columns df)) as [x|] eqn:F; [|discriminate].
  intros H. injection H as <-. apply find_some in F. destruct F as [H N].
  split; [exact H|]. unfold named in N. apply String.eqb_eq in N. now symmetry.
Qed.

Lemma getitem_unique df c :
  NoDup (column_names df) -> In c (columns df) -> getitem (sname c) df = Ok c.
Proof.
  intros N H. rewrite getitem_find.
  destruct (find (named (sname c)) (columns df)) as [x|] eqn:F.
  - apply find_some in F. destruct F as [Hx E]. unfold named in E.
    apply String.eqb_eq in E. f_equal.
    now apply (same_name_same_column (columns df)).
  - exfalso. apply (find_none _ _ F) in H. unfold named in H.
    now rewrite String.eqb_refl in H.
Qed.

Lemma getitems_In labels df cs l :
  getitems labels df = Ok cs -> In l labels ->
  exists c, getitem l df = Ok c /\ In c cs.
Proof.
  revert cs. induction labels as [|x labels IH]; intros cs G H; [contradiction|].
  cbn [getitems] in G. apply bind_ok in G. destruct G as [c [Gc G]].
  apply bind_ok in G. destruct G as [cs' [Gcs G]]. injection G as <-.
  destruct H as [->|H].
  - exists c. split; [exact Gc | now left].
  - destruct (IH cs' Gcs H) as [c' [G' I]]. exists c'. split; [exact G' | now right].
Qed.

Lemma feature_columns_In df features c :
  feature_columns df = Ok features ->
  In c (columns df) -> is_numeric c = true -> sname c <> "SalePrice"%string ->
  In (sname c) features.
Proof.
  unfold feature_columns, drop_label. destruct (mem_string _ _); [|discriminate].
  intros H I Nc Ns. injection H as <-. apply filter_In. split.
  - unfold column_names, select_dtypes. cbn [columns]. apply in_map.
    apply filter_In. split; [exact I | exact Nc].
  - change (negb (String.eqb "SalePrice" (sname c)) = true).
    destruct (String.eqb_spec "SalePrice" (sname c)) as [E|E];
      [congruence | reflexivity].
Qed.

Lemma getitem_head_rows n l df :
  getitem l (head_rows n df) =
  (c <- getitem l df ;;
   Ok (mkSeries (sname c) (sdtype c) (firstn n (scells c)))).
Proof.
  rewrite !getitem_find. unfold head_rows. cbn [columns].
  rewrite find_map_same_name by reflexivity.
  now destruct (find (named l) (columns df)).
Qed.

Lemma getitem_tail_rows n l df :
  getitem l (tail_rows n df) =
  (c <- getitem l df ;;
   Ok (mkSeries (sname c) (sdtype c) (skipn n (scells c)))).
Proof.
  rewrite !getitem_find. unfold tail_rows. cbn [columns].
  rewrite find_map_same_name by reflexivity.
  now destruct (find (named l) (columns df)).
Qed.

Section MissingFeature.

Variable least_squares : matrix -> list Q -> Q * list Q.

Lemma fit_and_mse_bad_train features train test :
  (forall X, getframe features train = Ok X -> raises (check_array X)) ->
  raises (fit_and_mse least_squares features train test).
Proof.
  intros H. unfold fit_and_mse. do 2 raise_step.
  raise_first. unfold fit. raise_first. now apply H.
Qed.

Lemma fit_and_mse_bad_test features train test :
  (forall X, getframe features test = Ok X -> raises (check_array X)) ->
  raises (fit_and_mse least_squares features train test).
Proof.
  intros H. unfold fit_and_mse. do 4 raise_step.
  raise_first. unfold predict. raise_first. now apply H.
Qed.

Lemma split_missing features df c :
  well_formed df -> NoDup (column_names df) ->
  In c (columns df) -> In (sname c) features -> In None (scells c) ->
  raises (fit_and_mse least_squares features
            (head_rows 1460 df) (tail_rows 1460 df)).
Proof.
  intros WF N I F M.
  assert (L : length (scells c) = length (index df)).
  { unfold well_formed in WF. rewrite Forall_forall in WF. now apply WF. }
  destruct (In_nth _ _ None M) as [i [Li Ei]].
  destruct (Nat.lt_ge_cases i 1460) as [Lt|Ge].
  - apply fit_and_mse_bad_train. intros X GX.
    unfold getframe in GX. apply bind_ok in GX. destruct GX as [cs [G GX]].
    injection GX as <-.
    destruct (getitems_In _ _ _ _ G F) as [c' [Gc Ic]].
    rewrite getitem_head_rows, (getitem_unique df c N I) in Gc.
    cbn [bind] in Gc. apply Ok_inj in Gc. subst c'.
    eapply (check_array_missing _ _ i); [exact Ic| |].
    + change (i < length (firstn 1460 (index df)))%nat.
      rewrite length_firstn. apply Nat.min_glb_lt; [exact Lt|].
      rewrite <- L. exact Li.
    + change (nth i (firstn 1460 (scells c)) None = None).
      rewrite nth_firstn.
      destruct (Nat.ltb_spec i 1460); [exact Ei | lia].
  - apply fit_and_mse_bad_test. intros X GX.
    unfold getframe in GX. apply bind_ok in GX. destruct GX as [cs [G GX]].
    injection GX as <-.
    destruct (getitems_In _ _ _ _ G F) as [c' [Gc Ic]].
    rewrite getitem_tail_rows, (getitem_unique df c N I) in Gc.
    cbn [bind] in Gc. apply Ok_inj in Gc. subst c'.
    eapply (check_array_missing _ _ (i - 1460)); [exact Ic| |].
    + change (i - 1460 < length (skipn 1460 (index df)))%nat.
      rewrite length_skipn, <- L. clear - Li Ge.
      apply Nat.add_lt_mono_r with (p := 1460%nat).
      rewrite Nat.sub_add by exact Ge.
      rewrite Nat.sub_add; [exact Li|].
      apply Nat.le_trans with i; [exact Ge | now apply Nat.lt_le_incl].
    + change (nth (i - 1460) (skipn 1460 (scells c)) None = None).
      rewrite nth_skipn.
      replace (1460 + (i - 1460))%nat with i; [exact Ei|].
      rewrite Nat.add_comm. symmetry. now apply Nat.sub_add.
Qed.

(** A missing value anywhere in a numeric feature column makes the holdout
    and the two-way modes end in an exception: nothing is imputed or
    skipped at this stage. *)
Theorem missing_feature_value_raises df c k rng :
  well_formed df ->
  NoDup (column_names df) ->
  In c (columns df) ->
  is_numeric c = true ->
  sname c <> "SalePrice"%string ->
  In None (scells c) ->
  (k = 0 \/ k = 1)%Z ->
  raises (train_and_test least_squares df k rng).
Proof.
  intros WF N I Nc Ns M K. unfold train_and_test. raise_step.
  pose proof (feature_columns_In _ _ _ E I Nc Ns) as F.
  pose proof (split_missing _ _ _ WF N I F M) as S.
  destruct K as [-> | ->].
  - now apply fit_and_score_raises.
  - change (1 =? 0)%Z with false. change (1 =? 1)%Z with true. cbv iota.
    raise_first. now apply fit_and_score_raises.
Qed.

End MissingFeature.

Lemma missing_feature_value_raises_witness :
  In gap_column (columns gap_table) /\
  In None (scells gap_column) /\
  raises (train_and_test simple_least_squares gap_table 0 []).
Proof.
  assert (I : In gap_column (columns gap_table)) by (left; reflexivity).
  assert (M : In None (scells gap_column)) by (right; left; reflexivity).
  split; [exact I|]. split; [exact M|].
  apply (missing_feature_value_raises simple_least_squares gap_table
           gap_column 0 []).
  - apply Forall_cons; [reflexivity|]. apply Forall_cons; [reflexivity|].
    apply Forall_nil.
  - apply NoDup_cons.
    + simpl. intros [H|H]; [discriminate H | exact H].
    + apply NoDup_cons; [simpl; tauto | apply NoDup_nil].
  - exact I.
  - reflexivity.
  - discriminate.
  - exact M.
  - left. reflexivity.
Defined.

(** ** No missing value after [transform_features] *)

Lemma count_missing_zero cs : count_missing cs = 0%nat <-> ~ In None cs.
Proof.
  unfold count_missing. induction cs as [|c cs IH]; simpl; [tauto|].
  destruct c as [v|]; simpl.
  - rewrite IH. split; [intros H [K|K]; [discriminate|auto] | tauto].
  - split; [discriminate | intros H; exfalso; auto].
Qed.

Lemma count_missing_fill v cs : count_missing (map (fill_cell v) cs) = 0%nat.
Proof.
  apply count_missing_zero. rewrite in_map_iff. intros [c [E _]].
  now destruct c.
Qed.

Lemma present_length cs :
  (length (present cs) + count_missing cs = length cs)%nat.
Proof.
  unfold count_missing. induction cs as [|[v|] cs IH]; simpl; lia.
Qed.

Lemma fold_stays_some {A B} (f : option A -> B -> option A) :
  (forall a x, exists a', f (Some a) x = Some a') ->
  forall l a, exists a', fold_left f l (Some a) = Some a'.
Proof.
  intros H. induction l as [|x l IH]; intros a; [now exists a|].
  cbn [fold_left]. destruct (H a x) as [a' ->]. apply IH.
Qed.

Lemma mode_first_some cs :
  (count_missing cs < length cs)%nat -> exists v, mode_first cs = Some v.
Proof.
  intros H. pose proof (present_length cs) as P. unfold mode_first.
  destruct (present cs) as [|v vs] eqn:E; [simpl in P; lia|].
  cbn [distinct fold_left]. apply fold_stays_some.
  intros a x. destruct (_ || _); eexists; reflexivity.
Qed.

Lemma labels_where_In p df c :
  In c (columns df) -> p (count_missing (scells c)) = true ->
  In (sname c) (labels_where p (isnull_sum df)).
Proof.
  intros H P. unfold labels_where, isnull_sum. apply in_map_iff.
  exists (sname c, count_missing (scells c)). split; [reflexivity|].
  apply filter_In. split; [|exact P]. apply in_map_iff. now exists c.
Qed.

Lemma labels_where_columns p df l :
  In l (labels_where p (isnull_sum df)) -> In l (column_names df).
Proof.
  unfold labels_where, isnull_sum, column_names. rewrite !in_map_iff.
  intros [[n m] [E H]]. apply filter_In in H. destruct H as [H _].
  apply in_map_iff in H. destruct H as [c [K H]]. injection K as <- <-.
  exists c. split; [exact E | exact H].
Qed.

Lemma select_dtypes_columns kinds df l :
  In l (column_names (select_dtypes kinds df)) -> In l (column_names df).
Proof.
  unfold column_names, select_dtypes. cbn [columns]. rewrite !in_map_iff.
  intros [c [E H]]. apply filter_In in H. exists c. tauto.
Qed.

Lemma lookup_replacement (g : series -> cell) df : forall labels cs l,
  getitems labels df = Ok cs -> In l labels ->
  exists c, getitem l df = Ok c /\
            lookup l (map (fun c => (sname c, g c)) cs) = Some (g c).
Proof.
  induction labels as [|x labels IH]; intros cs l G H; [contradiction|].
  cbn [getitems] in G. apply bind_ok in G. destruct G as [c [Gc G]].
  apply bind_ok in G. destruct G as [cs' [Gcs G]]. injection G as <-.
  cbn [map lookup]. destruct (getitem_ok _ _ _ Gc) as [_ Nc].
  destruct (String.eqb_spec l (sname c)) as [E|E].
  - exists c. split; [congruence | reflexivity].
  - destruct H as [->|H]; [congruence|]. now apply IH.
Qed.

(** What the two drops on missing counts leave. *)
Lemma after_missing_drops df df1 df2 :
  drop_columns (labels_where (above_5pct df) (isnull_sum df)) df = Ok df1 ->
  drop_columns
    (labels_where (fun m => (0 <? m)%nat)
       (isnull_sum (select_dtypes [Object] df1))) df1 = Ok df2 ->
  index df2 = index df /\
  forall c, In c (columns df2) ->
    In c (columns df) /\
    above_5pct df (count_missing (scells c)) = false /\
    (sdtype c = Object -> count_missing (scells c) = 0%nat).
Proof.
  intros D1 D2. apply drop_columns_ok in D1, D2.
  destruct D1 as [I1 C1], D2 as [I2 C2].
  split; [congruence|]. intros c H.
  rewrite C2 in H. apply filter_In in H. destruct H as [H N2].
  rewrite C1 in H. apply filter_In in H. destruct H as [H N1].
  split; [exact H|]. split.
  - destruct (above_5pct df _) eqn:A; [|reflexivity].
    apply negb_true_iff in N1.
    assert (M : mem_string (sname c)
                  (labels_where (above_5pct df) (isnull_sum df)) = true)
      by (apply mem_string_In; now apply labels_where_In).
    congruence.
  - intros O. destruct (count_missing (scells c)) as [|m] eqn:Z; [reflexivity|].
    apply negb_true_iff in N2.
    assert (M : mem_string (sname c)
                  (labels_where (fun m => (0 <? m)%nat)
                     (isnull_sum (select_dtypes [Object] df1))) = true).
    { apply mem_string_In. apply labels_where_In; [|now rewrite Z].
      unfold select_dtypes. cbn [columns]. apply filter_In. split.
      - rewrite C1. apply filter_In. now split.
      - now rewrite O. }
    congruence.
Qed.

Lemma sub_cells_clean d : forall xs ys ds,
  ~ In None xs -> ~ In None ys -> sub_cells d xs ys = Ok ds -> ~ In None ds.
Proof.
  induction xs as [|x xs IH]; intros ys ds Hx Hy S.
  - injection S as <-. tauto.
  - destruct ys as [|y ys]; [injection S as <-; tauto|].
    cbn [sub_cells] in S. apply bind_ok in S. destruct S as [c [Ec S]].
    apply bind_ok in S. destruct S as [ds' [Eds S]]. injection S as <-.
    intros [K|K].
    + subst c. destruct x as [[p|s]|]; [| |apply Hx; now left].
      * destruct y as [[q|t]|]; [discriminate|discriminate|apply Hy; now left].
      * discriminate.
    + revert K. apply (IH ys); [| |exact Eds]; intros K; [apply Hx|apply Hy];
        now right.
Qed.

Lemma mask_cells_In {A} (x : A) : forall keep cs,
  In x (mask_cells keep cs) -> In x cs.
Proof.
  induction keep as [|k keep IH]; intros cs H; [contradiction|].
  destruct cs as [|c cs]; [contradiction|]. cbn [mask_cells] in H.
  destruct k; [destruct H as [->|H]; [now left|] |]; right; now apply IH.
Qed.

Lemma setitem_columns l s df c :
  In c (columns (setitem l s df)) ->
  In c (columns df) \/ c = mkSeries l (sdtype s) (scells s).
Proof.
  unfold setitem. destruct (has_column df l); cbn [columns]; intros H.
  - apply in_map_iff in H. destruct H as [x [E H]].
    destruct (l =? sname x)%string; [right; now symmetry | left; now subst].
  - apply in_app_or in H. destruct H as [H|[H|[]]]; [now left | right; now symmetry].
Qed.

Lemma drop_columns_clean labels df df' :
  drop_columns labels df = Ok df' -> clean (columns df) -> clean (columns df').
Proof.
  intros D C c H. apply drop_columns_ok in D. destruct D as [_ D].
  rewrite D in H. apply filter_In in H. now apply C.
Qed.

(** From the imputed table to the table without the three rows. *)
Lemma add_ages_clean df yr_sold year_built years_sold yr_sold' year_remod
      years_since_remod df' :
  clean (columns df) ->
  getitem "Yr Sold" df = Ok yr_sold ->
  getitem "Year Built" df = Ok year_built ->
  series_sub yr_sold year_built = Ok years_sold ->
  getitem "Yr Sold" df = Ok yr_sold' ->
  getitem "Year Remod/Add" df = Ok year_remod ->
  series_sub yr_sold' year_remod = Ok years_since_remod ->
  drop_rows [1702; 2180; 2181]%Z
    (setitem "Years Since Remod" years_since_remod
       (setitem "Years Before Sale" years_sold df)) = Ok df' ->
  clean (columns df').
Proof.
  intros C G1 G2 S1 G3 G4 S2 Rows.
  assert (K : forall l c, getitem l df = Ok c -> ~ In None (scells c)).
  { intros l c G. apply count_missing_zero, C. now apply getitem_ok in G. }
  apply series_sub_cells in S1, S2.
  apply sub_cells_clean in S1; [|now apply (K "Yr Sold"%string)
                                |now apply (K "Year Built"%string)].
  apply sub_cells_clean in S2; [|now apply (K "Yr Sold"%string)
                                |now apply (K "Year Remod/Add"%string)].
  apply drop_rows_ok in Rows. subst df'. intros c H.
  unfold mask_rows in H. cbn [columns] in H. apply in_map_iff in H.
  destruct H as [x [<- H]]. cbn [scells]. apply count_missing_zero.
  intros M. apply mask_cells_In in M. revert M.
  apply setitem_columns in H. destruct H as [H| ->]; [|exact S2].
  apply setitem_columns in H. destruct H as [H| ->]; [|exact S1].
  apply count_missing_zero. now apply C.
Qed.

Lemma fillna_clean d df :
  (forall c, In c (columns df) ->
     count_missing (scells c) = 0%nat \/
     exists v, lookup (sname c) d = Some (Some v)) ->
  clean (columns (fillna d df)).
Proof.
  intros H c' I. unfold fillna in I. cbn [columns] in I.
  apply in_map_iff in I. destruct I as [c [<- I]].
  destruct (H c I) as [Z|[v L]].
  - match goal with
    | |- context [match ?x with _ => _ end] => destruct x as [[v|]|]
    end; [apply count_missing_fill | exact Z | exact Z].
  - match goal with
    | |- context [match ?x with _ => _ end] => replace x with (Some (Some v))
    end. apply count_missing_fill.
Qed.

Lemma well_formed_length df c :
  well_formed df -> In c (columns df) -> length (scells c) = len df.
Proof. unfold well_formed. rewrite Forall_forall. auto. Qed.

Lemma count_missing_le cs : (count_missing cs <= length cs)%nat.
Proof. pose proof (present_length cs). lia. Qed.

(** A column that survives the drops has a present value, in a table that
    has a row. *)
Lemma survivor_has_mode df c :
  well_formed df -> In c (columns df) -> (0 < len df)%nat ->
  above_5pct df (count_missing (scells c)) = false ->
  exists v, mode_first (scells c) = Some v.
Proof.
  intros WF I P A. apply mode_first_some.
  rewrite (well_formed_length df c WF I).
  unfold above_5pct in A. apply Nat.ltb_ge in A. lia.
Qed.

(** With no numeric column missing in exactly [len(df)/20] rows, and no
    column of a categorical dtype, the table returned has no missing value
    anywhere. *)
Theorem no_missing_value_off_boundary df out :
  well_formed df ->
  (forall c, In c (columns df) -> sdtype c <> Category) ->
  (forall c, In c (columns df) -> is_numeric c = true ->
             (20 * count_missing (scells c))%nat <> len df) ->
  transform_features df = Ok out ->
  clean (columns out).
Proof.
  intros WF TY NB H. unfold transform_features in H.
  bind_inv H df1 D1. bind_inv H df2 D2.
  bind_inv H fix_cols Efix. bind_inv H d Emode.
  bind_inv H yr_sold G1. bind_inv H year_built G2. bind_inv H years_sold S1.
  bind_inv H yr_sold' G3. bind_inv H year_remod G4.
  bind_inv H years_since_remod S2. bind_inv H df5 Rows.
  destruct (after_missing_drops df df1 df2 D1 D2) as [I2 A].
  assert (L2 : len df2 = len df) by (unfold len; now rewrite I2).
  eapply drop_columns_clean; [exact H|].
  eapply (add_ages_clean _ yr_sold year_built years_sold yr_sold' year_remod
            years_since_remod);
    [|exact G1|exact G2|exact S1|exact G3|exact G4|exact S2|exact Rows].
  apply fillna_clean. intros c I.
  destruct (A c I) as [Ic [Ab Ob]].
  destruct (count_missing (scells c)) as [|m] eqn:Z; [now left|]. right.
  assert (Nc : is_numeric c = true).
  { pose proof (TY c Ic) as T. unfold is_numeric.
    destruct (sdtype c) eqn:O; try reflexivity; [|contradiction].
    specialize (Ob eq_refl). discriminate. }
  assert (Fx : fixable df2 (S m) = true).
  { unfold fixable. rewrite L2. unfold above_5pct in Ab.
    apply Nat.ltb_ge in Ab. specialize (NB c Ic Nc). rewrite Z in NB.
    apply andb_true_iff. split; [apply Nat.ltb_lt; lia | reflexivity]. }
  assert (Lb : In (sname c)
                 (labels_where (fixable df2)
                    (isnull_sum (select_dtypes numeric_kinds df2)))).
  { apply labels_where_In; [|now rewrite Z].
    unfold select_dtypes. cbn [columns]. apply filter_In. now split. }
  unfold mode_record0 in Emode.
  destruct (existsb _ fix_cols); [|discriminate]. injection Emode as <-.
  destruct (lookup_replacement (fun c => mode_first (scells c)) df2 _ _ _
              Efix Lb) as [c' [Gc' Lk]].
  apply getitem_ok in Gc'. destruct Gc' as [Ic' _].
  destruct (A c' Ic') as [Ic'' [Ab' _]].
  destruct (survivor_has_mode df c' WF Ic'') as [v Mv]; [|exact Ab'|].
  - pose proof (count_missing_le (scells c)) as Le.
    rewrite (well_formed_length df c WF Ic), Z in Le. lia.
  - exists v. rewrite <- Mv. exact Lk.
Qed.

(** The second draft imputes every numeric column: with no column of a
    categorical dtype, the table it returns has no missing value, the
    boundary case included. *)
Theorem second_draft_no_missing_value df out :
  well_formed df ->
  (forall c, In c (columns df) -> sdtype c <> Category) ->
  SecondDraft.transform_features df = Ok out ->
  clean (columns out).
Proof.
  intros WF TY H. unfold SecondDraft.transform_features in H.
  bind_inv H df1 D1. bind_inv H df2 D2.
  bind_inv H numeric_cols Enum. bind_inv H d Emode.
  bind_inv H yr_sold G1. bind_inv H year_built G2. bind_inv H years_sold S1.
  bind_inv H yr_sold' G3. bind_inv H year_remod G4.
  bind_inv H years_since_remod S2. bind_inv H df5 Rows.
  bind_inv H df6 D3. bind_inv H df7 D4.
  destruct (after_missing_drops df df1 df2 D1 D2) as [I2 A].
  eapply drop_columns_clean; [exact H|].
  eapply drop_columns_clean; [exact D4|].
  eapply drop_columns_clean; [exact D3|].
  eapply (add_ages_clean _ yr_sold year_built years_sold yr_sold' year_remod
            years_since_remod);
    [|exact G1|exact G2|exact S1|exact G3|exact G4|exact S2|exact Rows].
  apply fillna_clean. intros c I.
  destruct (A c I) as [Ic [Ab Ob]].
  destruct (count_missing (scells c)) as [|m] eqn:Z; [now left|]. right.
  assert (Nc : is_numeric c = true).
  { pose proof (TY c Ic) as T. unfold is_numeric.
    destruct (sdtype c) eqn:O; try reflexivity; [|contradiction].
    specialize (Ob eq_refl). discriminate. }
  assert (Lb : In (sname c)
                 (map fst (isnull_sum (select_dtypes numeric_kinds df2)))).
  { unfold isnull_sum. rewrite map_map. cbn [fst]. apply in_map.
    unfold select_dtypes. cbn [columns]. apply filter_In. now split. }
  unfold mode_record0 in Emode.
  destruct (existsb _ numeric_cols); [|discriminate]. injection Emode as <-.
  destruct (lookup_replacement (fun c => mode_first (scells c)) df2 _ _ _
              Enum Lb) as [c' [Gc' Lk]].
  apply getitem_ok in Gc'. destruct Gc' as [Ic' _].
  destruct (A c' Ic') as [Ic'' [Ab' _]].
  destruct (survivor_has_mode df c' WF Ic'') as [v Mv]; [|exact Ab'|].
  - pose proof (count_missing_le (scells c)) as Le.
    rewrite (well_formed_length df c WF Ic), Z in Le. lia.
  - exists v. rewrite <- Mv. exact Lk.
Qed.

(** The example of twenty-four sales goes through both versions of the
    cleaning and through a look at the lot area afterwards. *)
Lemma small_sales_accepted :
  exists out c,
    transform_features small_sales = Ok out /\
    getitem "Lot Area" out = Ok c.
Proof.
  destruct (transform_features small_sales) as [out|e] eqn:E.
  - destruct (getitem "Lot Area" out) as [c|e] eqn:G.
    + exists out, c. split; [reflexivity | exact G].
    + exfalso.
      assert (K : (out <- transform_features small_sales ;;
                   c <- getitem "Lot Area" out ;; Ok tt) = Ok tt)
        by (vm_compute; reflexivity).
      rewrite E in K. cbn [bind] in K. rewrite G in K. discriminate K.
  - exfalso. vm_compute in E. discriminate E.
Qed.

Lemma small_sales_accepted_by_second_draft :
  exists out, SecondDraft.transform_features small_sales = Ok out.
Proof.
  destruct (SecondDraft.transform_features small_sales) as [out|e] eqn:E.
  - now exists out.
  - exfalso. vm_compute in E. discriminate E.
Qed.

Lemma small_sales_well_formed : well_formed small_sales.
Proof. unfold well_formed. repeat (apply Forall_cons; [reflexivity|]). apply Forall_nil. Qed.

Lemma small_sales_no_category c :
  In c (columns small_sales) -> sdtype c <> Category.
Proof.
  intros H. simpl in H.
  repeat (destruct H as [<-|H]; [discriminate|]). contradiction.
Qed.

Lemma no_missing_value_off_boundary_witness :
  exists out,
    transform_features small_sales = Ok out /\ clean (columns out).
Proof.
  destruct small_sales_accepted as [out [c [E _]]].
  exists out. split; [exact E|].
  apply (no_missing_value_off_boundary small_sales out).
  - exact small_sales_well_formed.
  - exact small_sales_no_category.
  - intros x H K. simpl in H.
    repeat (destruct H as [<-|H];
            [first [discriminate K | vm_compute; lia]|]).
    contradiction.
  - exact E.
Defined.

Lemma second_draft_no_missing_value_witness :
  exists out,
    SecondDraft.transform_features small_sales = Ok out /\
    clean (columns out).
Proof.
  destruct small_sales_accepted_by_second_draft as [out E].
  exists out. split; [exact E|].
  exact (second_draft_no_missing_value small_sales out
           small_sales_well_formed small_sales_no_category E).
Defined.

(** ** What [transform_features] asks for, and what it returns *)

Lemma drop_rows_labels labels df df' :
  drop_rows labels df = Ok df' -> forall l, In l labels -> In l (index df).
Proof.
  unfold drop_rows. destruct (forallb _ labels) eqn:F; [|discriminate].
  intros _ l H. rewrite forallb_forall in F. specialize (F l H).
  unfold mem_label in F. apply existsb_exists in F. destruct F as [x [Hx E]].
  apply Z.eqb_eq in E. now subst.
Qed.

Lemma drop_columns_labels labels df df' :
  drop_columns labels df = Ok df' ->
  forall l, In l labels -> In l (column_names df).
Proof.
  unfold drop_columns. destruct (forallb _ labels) eqn:F; [|discriminate].
  intros _ l H. rewrite forallb_forall in F. now apply has_column_In, F.
Qed.

Lemma drop_columns_names labels df df' l :
  drop_columns labels df = Ok df' ->
  In l (column_names df') <-> In l (column_names df) /\ ~ In l labels.
Proof.
  intros D. apply drop_columns_ok in D. destruct D as [_ D].
  unfold column_names. rewrite D, !in_map_iff. split.
  - intros [c [<- H]]. apply filter_In in H. destruct H as [H N].
    split; [now exists c|]. intros K. apply mem_string_In in K.
    apply negb_true_iff in N. congruence.
  - intros [[c [<- H]] N]. exists c. split; [reflexivity|].
    apply filter_In. split; [exact H|]. apply negb_true_iff.
    destruct (mem_string (sname c) labels) eqn:M; [|reflexivity].
    now apply mem_string_In in M.
Qed.

Lemma fillna_names d df : column_names (fillna d df) = column_names df.
Proof.
  unfold column_names, fillna. cbn [columns]. rewrite map_map.
  apply map_ext. intros c.
  match goal with
  | |- context [match ?x with _ => _ end] => now destruct x as [[v|]|]
  end.
Qed.

Lemma mask_rows_names keep df :
  column_names (mask_rows keep df) = column_names df.
Proof.
  unfold column_names, mask_rows. cbn [columns]. now rewrite map_map.
Qed.

Lemma setitem_names l s df x :
  In x (column_names (setitem l s df)) <-> In x (column_names df) \/ x = l.
Proof.
  unfold column_names, setitem.
  destruct (has_column df l) eqn:Hc; cbn [columns].
  - rewrite map_map. split.
    + intros H. apply in_map_iff in H. destruct H as [c [<- H]].
      destruct (String.eqb_spec l (sname c)) as [E|E]; cbn [sname].
      * now right.
      * left. now apply in_map.
    + intros [H| ->].
      * apply in_map_iff in H. destruct H as [c [<- H]].
        apply in_map_iff. exists c. split; [|exact H].
        destruct (String.eqb_spec l (sname c)) as [E|E]; cbn [sname];
          congruence.
      * apply has_column_In in Hc. unfold column_names in Hc.
        apply in_map_iff in Hc. destruct Hc as [c [<- H]].
        apply in_map_iff. exists c. split; [|exact H].
        now rewrite String.eqb_refl.
  - rewrite map_app, in_app_iff. cbn [map sname In]. intuition congruence.
Qed.

Lemma getitem_In_names l df c :
  getitem l df = Ok c -> In l (column_names df).
Proof.
  intros G. apply getitem_ok in G. destruct G as [H <-].
  unfold column_names. now apply in_map.
Qed.

(** The table must carry the three row labels. *)
Theorem missing_row_label_raises df l :
  In l removed_labels -> ~ In l (index df) ->
  raises (transform_features df).
Proof.
  intros L N. destruct (transform_features df) as [out|e] eqn:H;
    [exfalso | eexists; reflexivity].
  unfold transform_features in H.
  bind_inv H df1 D1. bind_inv H df2 D2.
  bind_inv H fix_cols Efix. bind_inv H d Emode.
  bind_inv H yr_sold G1. bind_inv H year_built G2. bind_inv H years_sold S1.
  bind_inv H yr_sold' G3. bind_inv H year_remod G4.
  bind_inv H years_since_remod S2. bind_inv H df5 Rows.
  apply (drop_rows_labels _ _ _ Rows l) in L.
  rewrite !index_setitem in L. cbn [fillna index] in L.
  apply drop_columns_ok in D1, D2. destruct D1 as [I1 _], D2 as [I2 _].
  apply N. congruence.
Qed.

(** The table must have the eight columns the function reads or drops by
    name. *)
Theorem missing_column_raises df l :
  In l required_columns -> ~ In l (column_names df) ->
  raises (transform_features df).
Proof.
  intros L N. destruct (transform_features df) as [out|e] eqn:H;
    [exfalso | eexists; reflexivity].
  unfold transform_features in H.
  bind_inv H df1 D1. bind_inv H df2 D2.
  bind_inv H fix_cols Efix. bind_inv H d Emode.
  bind_inv H yr_sold G1. bind_inv H year_built G2. bind_inv H years_sold S1.
  bind_inv H yr_sold' G3. bind_inv H year_remod G4.
  bind_inv H years_since_remod S2. bind_inv H df5 Rows.
  apply N.
  assert (T : forall x, In x (column_names (fillna d df2)) ->
                        In x (column_names df)).
  { intros x Hx. rewrite fillna_names in Hx.
    apply (drop_columns_names _ _ _ x D2) in Hx. destruct Hx as [Hx _].
    apply (drop_columns_names _ _ _ x D1) in Hx. tauto. }
  assert (U : forall x, In x final_drop -> In x (column_names df)).
  { intros x Fd. pose proof (drop_columns_labels _ _ _ H x Fd) as Hx.
    apply drop_rows_ok in Rows. subst df5. rewrite mask_rows_names in Hx.
    apply setitem_names in Hx. destruct Hx as [Hx|Hx].
    - apply setitem_names in Hx. destruct Hx as [Hx|Hx]; [now apply T|].
      subst x. exfalso. revert Fd.
      unfold final_drop. cbn [In]. intuition discriminate.
    - subst x. exfalso. revert Fd.
      unfold final_drop. cbn [In]. intuition discriminate. }
  unfold required_columns in L. cbn [In] in L.
  destruct L as [<-|[<-|[<-|L]]].
  - apply T. now apply getitem_In_names in G1.
  - apply T. now apply getitem_In_names in G2.
  - apply T. now apply getitem_In_names in G4.
  - apply U. unfold final_drop. cbn [In].
    destruct L as [<-|[<-|[<-|[<-|[<-|[]]]]]]; tauto.
Qed.

Lemma missing_row_label_raises_witness :
  In 1702%Z removed_labels /\
  ~ In 1702%Z (index renumbered_sales) /\
  raises (transform_features renumbered_sales).
Proof.
  assert (H : In 1702%Z removed_labels) by (left; reflexivity).
  assert (N : ~ In 1702%Z (index renumbered_sales)).
  { intros I.
    assert (B : forallb (fun l => negb (Z.eqb l 1702)) (index renumbered_sales)
                = true) by (vm_compute; reflexivity).
    rewrite forallb_forall in B. specialize (B _ I).
    rewrite Z.eqb_refl in B. discriminate B. }
  split; [exact H|]. split; [exact N|].
  exact (missing_row_label_raises renumbered_sales 1702%Z H N).
Defined.

Lemma missing_column_raises_witness :
  In "Yr Sold"%string required_columns /\
  ~ In "Yr Sold"%string (column_names four_sales) /\
  raises (transform_features four_sales).
Proof.
  assert (H : In "Yr Sold"%string required_columns) by (left; reflexivity).
  assert (N : ~ In "Yr Sold"%string (column_names four_sales)).
  { simpl. intros [E|[E|E]]; [discriminate E | discriminate E | exact E]. }
  split; [exact H|]. split; [exact N|].
  exact (missing_column_raises four_sales "Yr Sold"%string H N).
Defined.

Lemma drop_missing_succeeds kinds p df :
  exists df',
    drop_columns (labels_where p (isnull_sum (select_dtypes kinds df))) df
    = Ok df'.
Proof.
  eexists. apply drop_columns_present. intros l H.
  apply labels_where_columns in H. now apply select_dtypes_columns in H.
Qed.

Lemma drop_above_succeeds df :
  exists df',
    drop_columns (labels_where (above_5pct df) (isnull_sum df)) df = Ok df'.
Proof.
  eexists. apply drop_columns_present. intros l H.
  now apply labels_where_columns in H.
Qed.

Lemma labels_where_nil p df :
  (forall c, In c (columns df) -> p (count_missing (scells c)) = false) ->
  labels_where p (isnull_sum df) = [].
Proof.
  intros H. unfold labels_where, isnull_sum.
  induction (columns df) as [|c cols IH]; [reflexivity|].
  cbn [map filter snd]. rewrite (H c) by now left.
  apply IH. intros x Hx. apply H. now right.
Qed.

(** When no numeric column has a missing count strictly between 0 and
    [len(df)/20] (a table without any missing value, for one) there is
    nothing to impute, the record of modes does not exist, and the call
    ends in an [IndexError]. *)
Theorem nothing_to_impute_index_error df :
  (forall c, In c (columns df) -> is_numeric c = true ->
             fixable df (count_missing (scells c)) = false) ->
  transform_features df = Raise IndexError.
Proof.
  intros H. unfold transform_features.
  destruct (drop_above_succeeds df) as [df1 D1]. rewrite D1. cbn [bind].
  destruct (drop_missing_succeeds [Object] (fun m => (0 <? m)%nat) df1)
    as [df2 D2]. rewrite D2. cbn [bind].
  rewrite labels_where_nil; [reflexivity|].
  intros c I. unfold select_dtypes in I. cbn [columns] in I.
  apply filter_In in I. destruct I as [I Nc].
  apply drop_columns_ok in D1, D2.
  destruct D1 as [I1 C1], D2 as [I2 C2].
  rewrite C2 in I. apply filter_In in I. destruct I as [I _].
  rewrite C1 in I. apply filter_In in I. destruct I as [I _].
  assert (L : len df2 = len df) by (unfold len; congruence).
  unfold fixable. rewrite L. now apply H.
Qed.

(** The table returned has the year of sale and the two derived columns,
    and none of the seven columns dropped at the end. *)
Theorem returned_labels df out :
  transform_features df = Ok out ->
  In "Yr Sold"%string (column_names out) /\
  incl derived_columns (column_names out) /\
  forall l, In l final_drop -> ~ In l (column_names out).
Proof.
  intros H. unfold transform_features in H.
  bind_inv H df1 D1. bind_inv H df2 D2.
  bind_inv H fix_cols Efix. bind_inv H d Emode.
  bind_inv H yr_sold G1. bind_inv H year_built G2. bind_inv H years_sold S1.
  bind_inv H yr_sold' G3. bind_inv H year_remod G4.
  bind_inv H years_since_remod S2. bind_inv H df5 Rows.
  apply drop_rows_ok in Rows.
  assert (K : forall l, ~ In l final_drop ->
                (In l (column_names (fillna d df2)) \/ In l derived_columns) ->
                In l (column_names out)).
  { intros l N [I|I]; apply (drop_columns_names _ _ _ l H);
      (split; [|exact N]); subst df5; rewrite mask_rows_names;
      apply setitem_names.
    - left. apply setitem_names. now left.
    - unfold derived_columns in I. cbn [In] in I.
      destruct I as [<-|[<-|[]]]; [left; apply setitem_names|]; now right. }
  split; [|split].
  - apply K; [|left; now apply getitem_In_names in G1].
    unfold final_drop. cbn [In]. intuition discriminate.
  - intros l I. apply K; [|now right].
    unfold derived_columns in I. cbn [In] in I.
    destruct I as [<-|[<-|[]]]; unfold final_drop; cbn [In];
      intuition discriminate.
  - intros l I K'. apply (drop_columns_names _ _ _ l H) in K'.
    now destruct K'.
Qed.

Lemma fills_mask : forall keep xs ys,
  Forall2 fills xs ys ->
  Forall2 fills (mask_cells keep xs) (mask_cells keep ys).
Proof.
  induction keep as [|k keep IH]; intros xs ys F; [constructor|].
  destruct F as [|x y xs ys Fxy F]; [constructor|].
  cbn [mask_cells]. destruct k; [constructor; [exact Fxy|] |]; now apply IH.
Qed.

Lemma getitem_fillna_dtype d df l c' :
  getitem l (fillna d df) = Ok c' ->
  exists c, getitem l df = Ok c /\ sdtype c' = sdtype c /\
            Forall2 fills (scells c) (scells c').
Proof.
  rewrite !getitem_find. unfold fillna. cbn [columns].
  rewrite find_map_same_name.
  - destruct (find (named l) (columns df)) as [c|]; simpl; [|discriminate].
    intros H. injection H as <-. exists c. split; [reflexivity|].
    match goal with
    | |- context [match ?x with _ => _ end] => destruct x as [[v|]|]
    end; simpl; auto using fills_refl, fills_fill_cell.
  - intros c.
    match goal with
    | |- context [match ?x with _ => _ end] => now destruct x as [[v|]|]
    end.
Qed.

(** A recorded value is never changed: a column of the result, the two
    derived ones apart, is the input column of that label and dtype,
    without the three rows, with nothing but missing cells filled in. *)
Theorem recorded_values_kept df out l c' :
  transform_features df = Ok out ->
  ~ In l derived_columns ->
  getitem l out = Ok c' ->
  exists c,
    getitem l df = Ok c /\
    sdtype c' = sdtype c /\
    Forall2 fills (mask_cells (kept_rows df) (scells c)) (scells c').
Proof.
  intros H N G. unfold transform_features in H.
  bind_inv H df1 D1. bind_inv H df2 D2.
  bind_inv H fix_cols Efix. bind_inv H d Emode.
  bind_inv H yr_sold G1. bind_inv H year_built G2. bind_inv H years_sold S1.
  bind_inv H yr_sold' G3. bind_inv H year_remod G4.
  bind_inv H years_since_remod S2. bind_inv H df5 Rows.
  apply (getitem_before_drop _ _ _ _ _ H) in G.
  apply drop_rows_ok in Rows. subst df5.
  rewrite getitem_mask_rows in G. bind_inv G c4 G'. apply Ok_inj in G.
  subst c'. cbn [sdtype scells].
  rewrite !index_setitem in *. cbn [fillna index].
  assert (I2 : index df2 = index df).
  { apply drop_columns_ok in D1, D2. destruct D1 as [I1 _], D2 as [I2 _].
    congruence. }
  rewrite I2. fold (kept_rows df).
  rewrite !getitem_setitem_other in G'.
  - apply getitem_fillna_dtype in G'. destruct G' as [c [Gc [Ty F]]].
    exists c. split; [|split; [exact Ty | now apply fills_mask]].
    eapply getitem_before_drop; [exact D1|].
    eapply getitem_before_drop; [exact D2|exact Gc].
  - intros ->. apply N. unfold derived_columns. cbn [In]. tauto.
  - intros ->. apply N. unfold derived_columns. cbn [In]. tauto.
Qed.

Lemma nothing_to_impute_index_error_witness :
  transform_features four_sales = Raise IndexError.
Proof.
  apply (nothing_to_impute_index_error four_sales).
  intros c H K. simpl in H.
  repeat (destruct H as [<-|H]; [vm_compute; reflexivity|]).
  contradiction.
Defined.

Lemma returned_labels_witness :
  exists out,
    transform_features small_sales = Ok out /\
    In "Yr Sold"%string (column_names out) /\
    incl derived_columns (column_names out) /\
    forall l, In l final_drop -> ~ In l (column_names out).
Proof.
  destruct small_sales_accepted as [out [c [E _]]].
  exists out. split; [exact E|].
  exact (returned_labels small_sales out E).
Defined.

Lemma recorded_values_kept_witness :
  exists out c',
    transform_features small_sales = Ok out /\
    getitem "Lot Area" out = Ok c' /\
    exists c,
      getitem "Lot Area" small_sales = Ok c /\
      sdtype c' = sdtype c /\
      Forall2 fills (mask_cells (kept_rows small_sales) (scells c))
                    (scells c').
Proof.
  destruct small_sales_accepted as [out [c' [E G]]].
  exists out, c'. split; [exact E|]. split; [exact G|].
  apply (recorded_values_kept small_sales out "Lot Area" c' E); [|exact G].
  simpl. intros [H|[H|H]]; [discriminate H | discriminate H | exact H].
Defined.

(** ** More on [select_features] *)

Lemma correlation_filter_drop df t target :
  getitem "SalePrice" (select_dtypes numeric_kinds df) = Ok target ->
  correlation_filter df t =
  Ok (mkFrame (index df)
        (filter (fun c => negb (mem_string (sname c)
                                  (weakly_correlated df target t)))
                (columns df))).
Proof.
  intros T. unfold correlation_filter, correlation_filter_by,
    abs_corr_with_target_by.
  rewrite T. cbn [bind]. fold (weakly_correlated df target t).
  apply drop_columns_present. intros l H.
  unfold weakly_correlated in H. apply in_map_iff in H.
  destruct H as [[n r] [E H]]. cbn [fst] in E. subst n.
  apply filter_In in H. destruct H as [H _].
  apply in_map_iff in H. destruct H as [c [E H]]. injection E as <- _.
  apply select_dtypes_columns with numeric_kinds.
  unfold column_names. now apply in_map.
Qed.

Lemma weakly_correlated_In df target t l :
  In l (weakly_correlated df target t) <->
  exists c, In c (columns df) /\ is_numeric c = true /\ sname c = l /\
            abs_lt (pearson (scells c) (scells target)) t = true.
Proof.
  unfold weakly_correlated. rewrite in_map_iff. split.
  - intros [[n r] [E H]]. cbn [fst] in E. subst n.
    apply filter_In in H. destruct H as [H A]. cbn [snd] in A.
    apply in_map_iff in H. destruct H as [c [E H]]. injection E as <- <-.
    unfold select_dtypes in H. cbn [columns] in H.
    apply filter_In in H. destruct H as [H K].
    exists c. repeat split; assumption.
  - intros [c [H [K [<- A]]]].
    exists (sname c, pearson (scells c) (scells target)).
    split; [reflexivity|]. apply filter_In. split; [|exact A].
    apply in_map_iff. exists c. split; [reflexivity|].
    unfold select_dtypes. cbn [columns]. apply filter_In. now split.
Qed.

Lemma abs_lt_monotone r t1 t2 :
  (forall c, r = Some c -> 0 < vars c) -> t1 <= t2 ->
  abs_lt r t1 = true -> abs_lt r t2 = true.
Proof.
  intros V L. destruct r as [c|]; [|discriminate]. specialize (V c eq_refl).
  unfold abs_lt. rewrite !andb_true_iff, !Qlt_bool_iff. intros [P H].
  split; [Lqa.lra|].
  assert (S : t1 * t1 <= t2 * t2) by Lqa.nra.
  assert (M : t1 * t1 * vars c <= t2 * t2 * vars c).
  { apply Qmult_le_compat_r; [exact S | Lqa.lra]. }
  Lqa.lra.
Qed.

(** Raising the threshold never brings a column back: what is kept at the
    higher threshold is kept at the lower one. *)
Theorem higher_threshold_keeps_less df t1 t2 out1 out2 :
  t1 <= t2 ->
  correlation_filter df t1 = Ok out1 ->
  correlation_filter df t2 = Ok out2 ->
  incl (columns out2) (columns out1).
Proof.
  intros L H1 H2.
  destruct (getitem "SalePrice" (select_dtypes numeric_kinds df))
    as [target|e] eqn:T.
  - rewrite (correlation_filter_drop df t1 target T) in H1.
    rewrite (correlation_filter_drop df t2 target T) in H2.
    apply Ok_inj in H1, H2. subst out1 out2. cbn [columns].
    intros c H. apply filter_In in H. destruct H as [H N].
    apply filter_In. split; [exact H|]. apply negb_true_iff.
    apply negb_true_iff in N.
    destruct (mem_string (sname c) (weakly_correlated df target t1)) eqn:M;
      [|reflexivity].
    apply mem_string_In, weakly_correlated_In in M.
    destruct M as [c' [I [K [E A]]]].
    assert (M2 : mem_string (sname c) (weakly_correlated df target t2) = true).
    { apply mem_string_In, weakly_correlated_In. exists c'.
      repeat split; try assumption.
      apply (abs_lt_monotone _ t1 t2); [|exact L|exact A].
      intros x Px. now apply pearson_vars_positive in Px. }
    congruence.
  - unfold correlation_filter, correlation_filter_by,
      abs_corr_with_target_by in H1.
    rewrite T in H1. discriminate.
Qed.

Lemma complete_pairs_self xs p :
  In p (complete_pairs xs xs) -> fst p = snd p.
Proof.
  induction xs as [|x xs IH]; [contradiction|]. cbn [complete_pairs].
  destruct (num_of x) as [q|]; [|exact IH].
  intros [<-|H]; [reflexivity | now apply IH].
Qed.

Lemma co_moment_self xs (f g : Q * Q -> Q) :
  (forall p, f p = fst p \/ f p = snd p) ->
  (forall p, g p = fst p \/ g p = snd p) ->
  co_moment (complete_pairs xs xs) f g
  = co_moment (complete_pairs xs xs) fst fst.
Proof.
  intros Hf Hg.
  assert (F : forall p, In p (complete_pairs xs xs) -> f p = fst p).
  { intros p H. apply complete_pairs_self in H.
    destruct (Hf p); congruence. }
  assert (G : forall p, In p (complete_pairs xs xs) -> g p = fst p).
  { intros p H. apply complete_pairs_self in H.
    destruct (Hg p); congruence. }
  unfold co_moment.
  rewrite (map_ext_in f fst _ F), (map_ext_in g fst _ G).
  rewrite (map_ext_in (fun p => f p * g p) (fun p => fst p * fst p)).
  - reflexivity.
  - intros p H. now rewrite (F p H), (G p H).
Qed.

(** A column against itself: the coefficient, when defined, is below the
    threshold exactly when the threshold is above 1. *)
Lemma abs_lt_self xs t :
  abs_lt (pearson xs xs) t = true <-> pearson xs xs <> None /\ 1 < t.
Proof.
  unfold pearson.
  rewrite (co_moment_self xs snd snd), (co_moment_self xs fst snd)
    by (intros; tauto).
  set (s := co_moment (complete_pairs xs xs) fst fst).
  destruct (Qlt_bool 0 (s * s)) eqn:V.
  - apply Qlt_bool_iff in V. unfold abs_lt. cbn [cov vars].
    rewrite andb_true_iff, !Qlt_bool_iff. split.
    + intros [P H]. split; [discriminate|].
      destruct (Qlt_le_dec 1 t) as [G|G]; [exact G|]. exfalso.
      assert (t * t <= 1) by Lqa.nra.
      assert (t * t * (s * s) <= 1 * (s * s))
        by (apply Qmult_le_compat_r; [assumption | Lqa.lra]).
      Lqa.lra.
    + intros [_ G]. split; [Lqa.lra|].
      assert (1 < t * t) by Lqa.nra.
      assert (1 * (s * s) < t * t * (s * s))
        by (apply Qmult_lt_compat_r; assumption).
      Lqa.lra.
  - simpl. split; [discriminate | intros [H _]; congruence].
Qed.

Lemma getitem_select_dtypes kinds l df c :
  getitem l (select_dtypes kinds df) = Ok c ->
  In c (columns df) /\ sname c = l /\
  existsb (dtype_eqb (sdtype c)) kinds = true.
Proof.
  intros G. apply getitem_ok in G. destruct G as [H E].
  unfold select_dtypes in H. cbn [columns] in H. apply filter_In in H.
  tauto.
Qed.

Lemma target_weakly_correlated df t target :
  getitem "SalePrice" (select_dtypes numeric_kinds df) = Ok target ->
  pearson (scells target) (scells target) <> None ->
  1 < t ->
  In "SalePrice"%string (weakly_correlated df target t).
Proof.
  intros T P L. apply weakly_correlated_In.
  destruct (getitem_select_dtypes _ _ _ _ T) as [I [Ns K]].
  exists target. repeat split; [exact I | exact K | exact Ns|].
  apply abs_lt_self. now split.
Qed.

(** With a threshold above 1 the correlation filter drops the target
    itself, unless all prices are equal. *)
Theorem threshold_above_one_drops_target df t target out :
  getitem "SalePrice" (select_dtypes numeric_kinds df) = Ok target ->
  pearson (scells target) (scells target) <> None ->
  1 < t ->
  correlation_filter df t = Ok out ->
  ~ In "SalePrice"%string (column_names out).
Proof.
  intros T P L H. rewrite (correlation_filter_drop df t target T) in H.
  apply Ok_inj in H. subst out. unfold column_names. cbn [columns].
  rewrite in_map_iff. intros [c [E H]]. apply filter_In in H.
  destruct H as [_ N]. apply negb_true_iff in N.
  apply (target_weakly_correlated df t target T P), mem_string_In in L.
  rewrite E in N. congruence.
Qed.

Lemma street_table_correlation_filter t :
  exists out, correlation_filter street_table t = Ok out.
Proof.
  destruct (getitem "SalePrice" (select_dtypes numeric_kinds street_table))
    as [target|e] eqn:T; [|vm_compute in T; discriminate T].
  rewrite (correlation_filter_drop street_table t target T).
  eexists. reflexivity.
Qed.

Lemma higher_threshold_keeps_less_witness :
  exists out1 out2,
    correlation_filter street_table (4 # 10) = Ok out1 /\
    correlation_filter street_table (9 # 10) = Ok out2 /\
    incl (columns out2) (columns out1).
Proof.
  destruct (street_table_correlation_filter (4 # 10)) as [out1 E1].
  destruct (street_table_correlation_filter (9 # 10)) as [out2 E2].
  exists out1, out2. split; [exact E1|]. split; [exact E2|].
  apply (higher_threshold_keeps_less street_table (4 # 10) (9 # 10) out1 out2);
    [|exact E1|exact E2].
  unfold Qle. simpl. lia.
Defined.

Lemma threshold_above_one_drops_target_witness :
  exists out,
    correlation_filter four_sales 2 = Ok out /\
    ~ In "SalePrice"%string (column_names out).
Proof.
  destruct (getitem "SalePrice" (select_dtypes numeric_kinds four_sales))
    as [target|e] eqn:T; [|exfalso; vm_compute in T; discriminate T].
  destruct (correlation_filter four_sales 2) as [out|e] eqn:E.
  - exists out. split; [reflexivity|].
    apply (threshold_above_one_drops_target four_sales 2 target out T);
      [|reflexivity|exact E].
    vm_compute in T. apply Ok_inj in T. subst target.
    vm_compute. discriminate.
  - exfalso. rewrite (correlation_filter_drop four_sales 2 target T) in E.
    discriminate E.
Defined.

(** *** The cardinality filter *)

Lemma getitem_present l df :
  In l (column_names df) -> exists c, getitem l df = Ok c.
Proof.
  intros H. apply has_column_In, has_column_find in H. rewrite getitem_find.
  destruct (find (named l) (columns df)) as [c|]; [now exists c | congruence].
Qed.

Lemma getitems_present df : forall labels,
  (forall l, In l labels -> In l (column_names df)) ->
  exists cs, getitems labels df = Ok cs.
Proof.
  induction labels as [|l labels IH]; intros H; [now exists []|].
  destruct (getitem_present l df) as [c Gc]; [apply H; now left|].
  destruct IH as [cs Gcs]; [intros x Hx; apply H; now right|].
  exists (c :: cs). cbn [getitems]. rewrite Gc, Gcs. reflexivity.
Qed.

Lemma getitems_from df : forall labels cs c,
  getitems labels df = Ok cs -> In c cs ->
  exists l, In l labels /\ getitem l df = Ok c.
Proof.
  induction labels as [|x labels IH]; intros cs c G H.
  - injection G as <-. contradiction.
  - cbn [getitems] in G. apply bind_ok in G. destruct G as [c0 [Gc G]].
    apply bind_ok in G. destruct G as [cs' [Gcs G]]. injection G as <-.
    destruct H as [<-|H].
    + exists x. split; [now left | exact Gc].
    + destruct (IH cs' c Gcs H) as [l [Hl Gl]]. exists l.
      split; [now right | exact Gl].
Qed.

(** The cardinality filter never fails.  On a table with distinct labels it
    removes exactly the columns that are on the allow-list and hold more
    than ten distinct values; rows are untouched. *)
Theorem cardinality_filter_removes df :
  NoDup (column_names df) ->
  exists out,
    cardinality_filter df = Ok out /\
    index out = index df /\
    forall c, In c (columns out) <->
              In c (columns df) /\
              ~ (In (sname c) nominal_features /\
                 (10 < value_counts_len (scells c))%nat).
Proof.
  intros N. unfold cardinality_filter.
  destruct (getitems_present df (filter (has_column df) nominal_features))
    as [cs G].
  { intros l H. apply filter_In in H. now apply has_column_In. }
  rewrite G. cbn [bind].
  set (drop := labels_where _ _).
  assert (D : forall l, In l drop <->
                exists c, In c (columns df) /\ sname c = l /\
                          In l nominal_features /\
                          (10 < value_counts_len (scells c))%nat).
  { intros l. unfold drop, labels_where. rewrite in_map_iff. split.
    - intros [[n m] [E H]]. cbn [fst] in E. subst n.
      apply filter_In in H. destruct H as [H P]. cbn [snd] in P.
      apply in_map_iff in H. destruct H as [c [E H]]. injection E as <- <-.
      destruct (getitems_from _ _ _ _ G H) as [x [Hx Gx]].
      apply getitem_ok in Gx. destruct Gx as [I <-].
      apply filter_In in Hx. exists c.
      repeat split; [exact I | tauto | now apply Nat.ltb_lt].
    - intros [c [I [<- [A P]]]].
      exists (sname c, value_counts_len (scells c)). split; [reflexivity|].
      apply filter_In. split; [|now apply Nat.ltb_lt].
      apply in_map_iff. exists c. split; [reflexivity|].
      assert (F : In (sname c) (filter (has_column df) nominal_features)).
      { apply filter_In. split; [exact A|]. apply has_column_In.
        unfold column_names. now apply in_map. }
      destruct (getitems_In _ _ _ _ G F) as [c' [Gc Ic]].
      rewrite (getitem_unique df c N I) in Gc. apply Ok_inj in Gc.
      now subst c'. }
  rewrite drop_columns_present.
  - eexists. split; [reflexivity|]. split; [reflexivity|].
    intros c. cbn [columns]. rewrite filter_In, negb_true_iff. split.
    + intros [I M]. split; [exact I|]. intros [A P].
      assert (K : mem_string (sname c) drop = true).
      { apply mem_string_In, D. exists c. tauto. }
      congruence.
    + intros [I K]. split; [exact I|].
      destruct (mem_string (sname c) drop) eqn:M; [|reflexivity].
      exfalso. apply K. apply mem_string_In, D in M.
      destruct M as [c' [I' [E [A P]]]].
      assert (c' = c) by now apply (same_name_same_column (columns df)).
      subst c'. tauto.
  - intros l H. apply D in H. destruct H as [c [I [<- _]]].
    unfold column_names. now apply in_map.
Qed.

Lemma cardinality_filter_ok df out :
  cardinality_filter df = Ok out ->
  index out = index df /\
  exists labels,
    incl labels nominal_features /\
    columns out =
      filter (fun c => negb (mem_string (sname c) labels)) (columns df).
Proof.
  unfold cardinality_filter. intros H. apply bind_ok in H.
  destruct H as [cs [G H]]. apply drop_columns_ok in H.
  destruct H as [Hi Hc]. split; [exact Hi|].
  eexists. split; [|exact Hc].
  intros l Hl. unfold labels_where in Hl. apply in_map_iff in Hl.
  destruct Hl as [[n m] [E Hl]]. cbn [fst] in E. subst n.
  apply filter_In in Hl. destruct Hl as [Hl _].
  apply in_map_iff in Hl. destruct Hl as [c [E Hl]]. injection E as <- _.
  destruct (getitems_from _ _ _ _ G Hl) as [x [Hx Gx]].
  apply getitem_ok in Gx. destruct Gx as [_ <-].
  apply filter_In in Hx. tauto.
Qed.

(** *** The encoding *)

Lemma encode_text_columns_inv df out :
  encode_text_columns df = Ok out ->
  index out = index df /\
  columns out =
    filter (fun x => negb (mem_string (sname x) (text_labels df)))
      (columns (astype_category (text_labels df) df)
       ++ flat_map dummies_of
            (columns (select_dtypes [Category]
                        (astype_category (text_labels df) df)))).
Proof.
  unfold encode_text_columns. fold (text_labels df). intros H.
  apply bind_ok in H. destruct H as [d [G H]].
  apply drop_columns_ok in H. destruct H as [Hi Hc].
  unfold get_dummies in G.
  destruct (columns (select_dtypes [Category]
                       (astype_category (text_labels df) df))) eqn:E;
    [discriminate|].
  injection G as <-. split; [exact Hi|]. rewrite Hc. reflexivity.
Qed.

Lemma text_labels_In df c :
  In c (columns df) -> sdtype c = Object -> In (sname c) (text_labels df).
Proof.
  intros H O. unfold text_labels, column_names, select_dtypes.
  cbn [columns]. apply in_map, filter_In. split; [exact H|]. now rewrite O.
Qed.

(** What a column of the encoded table is. *)
Lemma encode_text_columns_column df out c :
  encode_text_columns df = Ok out -> In c (columns out) ->
  (In c (columns df) /\ sdtype c <> Object) \/
  (exists x, In x (columns df) /\ In c (dummies_of x)).
Proof.
  intros H I. apply encode_text_columns_inv in H. destruct H as [_ H].
  rewrite H in I. apply filter_In in I. destruct I as [I M].
  apply negb_true_iff in M. apply in_app_or in I. destruct I as [I|I].
  - left. unfold astype_category in I. cbn [columns] in I.
    apply in_map_iff in I. destruct I as [x [E I]].
    destruct (mem_string (sname x) (text_labels df)) eqn:T.
    + subst c. cbn [sname] in M. congruence.
    + subst c. split; [exact I|]. intros O.
      apply (text_labels_In df x I), mem_string_In in O. congruence.
  - right. apply in_flat_map in I. destruct I as [y [Hy I]].
    unfold select_dtypes, astype_category in Hy. cbn [columns] in Hy.
    apply filter_In in Hy. destruct Hy as [Hy _].
    apply in_map_iff in Hy. destruct Hy as [x [E Hx]].
    exists x. split; [exact Hx|].
    destruct (mem_string (sname x) (text_labels df)); subst y; exact I.
Qed.

Lemma correlation_filter_ok df t out :
  correlation_filter df t = Ok out ->
  exists target,
    getitem "SalePrice" (select_dtypes numeric_kinds df) = Ok target /\
    index out = index df /\
    columns out =
      filter (fun c => negb (mem_string (sname c)
                               (weakly_correlated df target t)))
             (columns df).
Proof.
  intros H.
  destruct (getitem "SalePrice" (select_dtypes numeric_kinds df))
    as [target|e] eqn:T.
  - rewrite (correlation_filter_drop df t target T) in H.
    apply Ok_inj in H. subst out. exists target. repeat split.
  - unfold correlation_filter, correlation_filter_by,
      abs_corr_with_target_by in H.
    rewrite T in H. discriminate.
Qed.

(** Feature selection keeps the rows as they are, and every column it
    returns is a column of its input, unchanged, or an indicator column of
    a column of its input. *)
Theorem selected_columns_come_from_input df t u out :
  select_features df t u = Ok out ->
  index out = index df /\
  forall c, In c (columns out) ->
    In c (columns df) \/ exists x, In x (columns df) /\ In c (dummies_of x).
Proof.
  unfold select_features. intros H.
  apply bind_ok in H. destruct H as [a [A H]].
  apply bind_ok in H. destruct H as [b [B H]].
  apply correlation_filter_ok in A. destruct A as [target [_ [Ai Ac]]].
  apply cardinality_filter_ok in B. destruct B as [Bi [labels [_ Bc]]].
  assert (S : incl (columns b) (columns df)).
  { intros x Hx. rewrite Bc in Hx. apply filter_In in Hx.
    destruct Hx as [Hx _]. rewrite Ac in Hx. now apply filter_In in Hx. }
  split.
  - apply encode_text_columns_inv in H. destruct H as [Hi _]. congruence.
  - intros c I.
    destruct (encode_text_columns_column b out c H I) as [[J _]|[x [J K]]].
    + left. now apply S.
    + right. exists x. split; [now apply S | exact K].
Qed.

(** No text column is left after feature selection. *)
Theorem selected_columns_not_text df t u out :
  select_features df t u = Ok out ->
  forall c, In c (columns out) -> sdtype c <> Object.
Proof.
  unfold select_features. intros H c I.
  apply bind_ok in H. destruct H as [a [_ H]].
  apply bind_ok in H. destruct H as [b [_ H]].
  destruct (encode_text_columns_column b out c H I) as [[_ J]|[x [_ K]]];
    [exact J|].
  unfold dummies_of in K. apply in_map_iff in K.
  destruct K as [v [<- _]]. discriminate.
Qed.

(** With a threshold of at most 1 the target column itself passes all
    three steps of feature selection, unchanged. *)
Theorem target_survives_selection df t u out :
  NoDup (column_names df) ->
  t <= 1 ->
  select_features df t u = Ok out ->
  exists target,
    getitem "SalePrice" (select_dtypes numeric_kinds df) = Ok target /\
    In target (columns out).
Proof.
  unfold select_features. intros N L H.
  apply bind_ok in H. destruct H as [a [A H]].
  apply bind_ok in H. destruct H as [b [B H]].
  apply correlation_filter_ok in A. destruct A as [target [T [_ Ac]]].
  apply cardinality_filter_ok in B. destruct B as [_ [labels [Lb Bc]]].
  exists target. split; [exact T|].
  destruct (getitem_select_dtypes _ _ _ _ T) as [I [Nm K]].
  assert (Ia : In target (columns a)).
  { rewrite Ac. apply filter_In. split; [exact I|]. apply negb_true_iff.
    destruct (mem_string (sname target) (weakly_correlated df target t)) eqn:M;
      [|reflexivity].
    apply mem_string_In, weakly_correlated_In in M.
    destruct M as [c [Ic [_ [E W]]]].
    assert (c = target) by now apply (same_name_same_column (columns df)).
    subst c. apply abs_lt_self in W. destruct W as [_ W]. Lqa.lra. }
  assert (Ib : In target (columns b)).
  { rewrite Bc. apply filter_In. split; [exact Ia|]. apply negb_true_iff.
    destruct (mem_string (sname target) labels) eqn:M; [|reflexivity].
    apply mem_string_In, Lb in M. rewrite Nm in M. exfalso.
    revert M. unfold nominal_features. cbn [In].
    intuition discriminate. }
  assert (S : incl (columns b) (columns df)).
  { intros x Hx. rewrite Bc in Hx. apply filter_In in Hx.
    destruct Hx as [Hx _]. rewrite Ac in Hx. now apply filter_In in Hx. }
  assert (Tx : mem_string (sname target) (text_labels b) = false).
  { destruct (mem_string (sname target) (text_labels b)) eqn:M; [|reflexivity].
    apply mem_string_In in M. unfold text_labels, column_names in M.
    apply in_map_iff in M. destruct M as [x [E Hx]].
    unfold select_dtypes in Hx. cbn [columns] in Hx.
    apply filter_In in Hx. destruct Hx as [Hx O].
    assert (x = target) by (apply (same_name_same_column (columns df));
                            [exact N | now apply S | exact I | exact E]).
    subst x. unfold numeric_kinds in K.
    destruct (sdtype target); discriminate. }
  apply encode_text_columns_inv in H. destruct H as [_ H]. rewrite H.
  apply filter_In. split; [|now rewrite Tx].
  apply in_or_app. left. unfold astype_category. cbn [columns].
  apply in_map_iff. exists target. split; [|exact Ib]. now rewrite Tx.
Qed.

Lemma street_table_distinct_labels : NoDup (column_names street_table).
Proof.
  unfold column_names. simpl.
  repeat (apply NoDup_cons; [simpl; intuition discriminate|]).
  apply NoDup_nil.
Qed.

Lemma street_table_selected :
  exists out,
    select_features street_table default_coeff_threshold
      default_uniq_threshold = Ok out.
Proof.
  destruct (select_features street_table default_coeff_threshold
              default_uniq_threshold) as [out|e] eqn:E.
  - now exists out.
  - exfalso. vm_compute in E. discriminate E.
Qed.

Lemma cardinality_filter_removes_witness :
  NoDup (column_names street_table) /\
  exists out,
    cardinality_filter street_table = Ok out /\
    index out = index street_table /\
    forall c, In c (columns out) <->
              In c (columns street_table) /\
              ~ (In (sname c) nominal_features /\
                 (10 < value_counts_len (scells c))%nat).
Proof.
  split; [exact street_table_distinct_labels|].
  exact (cardinality_filter_removes street_table street_table_distinct_labels).
Defined.

Lemma selected_columns_come_from_input_witness :
  exists out,
    select_features street_table default_coeff_threshold
      default_uniq_threshold = Ok out /\
    index out = index street_table /\
    forall c, In c (columns out) ->
      In c (columns street_table) \/
      exists x, In x (columns street_table) /\ In c (dummies_of x).
Proof.
  destruct street_table_selected as [out E].
  exists out. split; [exact E|].
  exact (selected_columns_come_from_input street_table
           default_coeff_threshold default_uniq_threshold out E).
Defined.

Lemma selected_columns_not_text_witness :
  exists out,
    select_features street_table default_coeff_threshold
      default_uniq_threshold = Ok out /\
    forall c, In c (columns out) -> sdtype c <> Object.
Proof.
  destruct street_table_selected as [out E].
  exists out. split; [exact E|].
  exact (selected_columns_not_text street_table
           default_coeff_threshold default_uniq_threshold out E).
Defined.

Lemma target_survives_selection_witness :
  exists out,
    select_features street_table default_coeff_threshold
      default_uniq_threshold = Ok out /\
    exists target,
      getitem "SalePrice" (select_dtypes numeric_kinds street_table)
        = Ok target /\
      In target (columns out).
Proof.
  destruct street_table_selected as [out E].
  exists out. split; [exact E|].
  apply (target_survives_selection street_table default_coeff_threshold
           default_uniq_threshold out street_table_distinct_labels);
    [|exact E].
  unfold Qle. simpl. lia.
Defined.

(** ** The two-way mode and the first draft on short tables *)

Section ShortTables.

Variable least_squares : matrix -> list Q -> Q * list Q.

(** The two-way mode needs more than 1460 rows as well: with fewer, the
    second partition is empty and the first of the two scores fails. *)
Theorem two_way_short_table_raises df rng :
  (len df <= 1460)%nat -> raises (train_and_test least_squares df 1 rng).
Proof.
  intros H. unfold train_and_test. raise_step.
  change (1 =? 0)%Z with false. change (1 =? 1)%Z with true. cbv iota.
  raise_first. apply fit_and_score_raises, fit_and_mse_empty_test.
  change (index (tail_rows 1460 df)) with (skipn 1460 (index df)).
  apply skipn_all2. exact H.
Qed.

Lemma fit_no_columns X y :
  columns X = [] -> raises (fit least_squares X y).
Proof.
  intros H. unfold fit. raise_first. now apply check_array_no_columns.
Qed.

Lemma predict_no_rows lr X :
  index X = [] -> raises (predict lr X).
Proof.
  intros H. unfold predict. rewrite check_array_no_rows by exact H.
  eexists; reflexivity.
Qed.

(** The first draft of the pipeline returns a number only for a table of
    more than 1460 rows in which the living area and the price are both
    numeric columns. *)
Theorem first_draft_requirements df sel v :
  FirstDraft.select_features df = Ok sel ->
  FirstDraft.train_and_test least_squares sel = Ok v ->
  exists g s,
    getitem "Gr Liv Area" df = Ok g /\ getitem "SalePrice" df = Ok s /\
    is_numeric g = true /\ is_numeric s = true /\ (1460 < len df)%nat.
Proof.
  unfold FirstDraft.select_features, getframe. intros S H.
  apply bind_ok in S. destruct S as [cs [G S]]. apply Ok_inj in S.
  cbn [getitems] in G.
  apply bind_ok in G. destruct G as [g [Gg G]].
  apply bind_ok in G. destruct G as [cs' [G' G]].
  apply bind_ok in G'. destruct G' as [s [Gs G']].
  apply Ok_inj in G'. subst cs'. apply Ok_inj in G. subst cs sel.
  exists g, s. split; [exact Gg|]. split; [exact Gs|].
  destruct (getitem_ok _ _ _ Gg) as [_ Ng].
  destruct (getitem_ok _ _ _ Gs) as [_ Ns].
  unfold FirstDraft.train_and_test in H.
  apply bind_ok in H. destruct H as [features [F H]].
  apply bind_ok in H. destruct H as [X [HX H]].
  apply bind_ok in H. destruct H as [y [Hy H]].
  apply bind_ok in H. destruct H as [lr [Hfit H]].
  apply bind_ok in H. destruct H as [X_test [HXt H]].
  apply bind_ok in H. destruct H as [predictions [Hp _]].
  unfold drop_label, column_names, select_dtypes, head_rows in F.
  cbn [columns map filter sdtype sname] in F.
  fold (is_numeric g) in F. fold (is_numeric s) in F.
  rewrite Ng, Ns in F.
  destruct (is_numeric g) eqn:Kg, (is_numeric s) eqn:Ks;
    cbn [map sname] in F; rewrite ?Ng, ?Ns in F.
  - repeat split.
    destruct (Nat.lt_ge_cases 1460 (len df)) as [L|L]; [exact L|].
    exfalso. destruct (predict_no_rows lr X_test) as [e P]; [|congruence].
    rewrite (getframe_index _ _ _ HXt).
    change (skipn 1460 (index df) = []). now apply skipn_all2.
  - vm_compute in F. discriminate.
  - exfalso. vm_compute in F. apply Ok_inj in F. subst features.
    destruct (fit_no_columns X y) as [e P]; [|congruence].
    apply getframe_columns in HX. now destruct (columns X).
  - vm_compute in F. discriminate.
Qed.

End ShortTables.

(** ** The folds of the k-fold mode *)

Lemma list_sum_const (c : nat) (f : nat -> nat) l :
  (forall i, In i l -> f i = c) -> list_sum (map f l) = (length l * c)%nat.
Proof.
  induction l as [|x l IH]; intros H; [reflexivity|].
  change (list_sum (map f (x :: l))) with (f x + list_sum (map f l))%nat.
  rewrite H by now left.
  rewrite IH by (intros i Hi; apply H; now right). reflexivity.
Qed.

Lemma fold_sizes_sum n k : (0 < k)%nat -> list_sum (fold_sizes n k) = n.
Proof.
  intros K. unfold fold_sizes.
  assert (R : (n mod k < k)%nat) by (apply Nat.mod_upper_bound; lia).
  assert (Sq : seq 0 k = seq 0 (n mod k) ++ seq (n mod k) (k - n mod k)).
  { change (n mod k) with (0 + n mod k)%nat at 3.
    rewrite <- seq_app. f_equal. lia. }
  rewrite Sq, map_app, list_sum_app.
  rewrite (list_sum_const (S (n / k)%nat)).
  2:{ intros i Hi. apply in_seq in Hi.
      destruct (Nat.ltb_spec i (n mod k)); [reflexivity | lia]. }
  rewrite (list_sum_const (n / k)%nat).
  2:{ intros i Hi. apply in_seq in Hi.
      destruct (Nat.ltb_spec i (n mod k)); [lia | reflexivity]. }
  rewrite !length_seq. pose proof (Nat.div_mod_eq n k). nia.
Qed.

Lemma concat_chunks {A} : forall sizes (l : list A),
  concat (chunks sizes l) = firstn (list_sum sizes) l.
Proof.
  induction sizes as [|s sizes IH]; intros l; [reflexivity|].
  cbn [chunks concat]. rewrite IH.
  change (list_sum (s :: sizes)) with (s + list_sum sizes)%nat.
  rewrite <- (firstn_skipn s l) at 3.
  rewrite firstn_app, firstn_firstn.
  replace (Nat.min (s + list_sum sizes) s) with s by lia.
  f_equal. rewrite length_firstn.
  destruct (Nat.le_ge_cases s (length l)) as [L|L].
  - f_equal. lia.
  - rewrite (skipn_all2 l) by exact L. now rewrite !firstn_nil.
Qed.

Lemma chunks_members {A} : forall sizes (l : list A) f x,
  In f (chunks sizes l) -> In x f -> In x l.
Proof.
  induction sizes as [|s sizes IH]; intros l f x H I; [contradiction|].
  cbn [chunks] in H. destruct H as [<-|H].
  - rewrite <- (firstn_skipn s l). apply in_or_app. now left.
  - rewrite <- (firstn_skipn s l). apply in_or_app. right.
    now apply (IH _ f).
Qed.

Lemma mem_nat_In i l : mem_nat i l = true <-> In i l.
Proof.
  unfold mem_nat. rewrite existsb_exists. split.
  - intros [x [H E]]. apply Nat.eqb_eq in E. now subst.
  - intros H. exists i. split; [exact H | apply Nat.eqb_refl].
Qed.

Lemma test_fold_permutation n fold :
  NoDup fold -> incl fold (seq 0 n) ->
  Permutation (snd (split_of n fold)) fold.
Proof.
  intros N I. unfold split_of. cbn [snd]. apply NoDup_Permutation.
  - apply NoDup_filter, seq_NoDup.
  - exact N.
  - intros x. rewrite filter_In, mem_nat_In. split; [tauto|].
    intros H. split; [now apply I | exact H].
Qed.

Lemma split_of_covers n fold :
  Permutation (fst (split_of n fold) ++ snd (split_of n fold)) (seq 0 n).
Proof.
  unfold split_of. cbn [fst snd].
  induction (seq 0 n) as [|x l IH]; [constructor|].
  cbn [filter]. destruct (mem_nat x fold); cbn [negb app].
  - apply Permutation_sym, Permutation_cons_app, Permutation_sym, IH.
  - now constructor.
Qed.

Lemma test_folds_permutation n : forall sizes l,
  NoDup l -> incl l (seq 0 n) ->
  Permutation (concat (map snd (map (split_of n) (chunks sizes l))))
              (concat (chunks sizes l)).
Proof.
  induction sizes as [|s sizes IH]; intros l N I; [constructor|].
  cbn [chunks map concat].
  rewrite <- (firstn_skipn s l) in N.
  apply Permutation_app.
  - apply test_fold_permutation.
    + now apply NoDup_app_remove_r in N.
    + intros x Hx. apply I. rewrite <- (firstn_skipn s l).
      apply in_or_app. now left.
  - apply IH.
    + now apply NoDup_app_remove_l in N.
    + intros x Hx. apply I. rewrite <- (firstn_skipn s l).
      apply in_or_app. now right.
Qed.

(** The k-fold mode scores every row exactly once: there are [k] folds,
    their test rows together are the rows of the table, each once, and the
    training rows of a fold are the rows not tested in it. *)
Theorem kfold_tests_each_row_once k n shuffled splits :
  Permutation shuffled (seq 0 n) ->
  kfold_split k n shuffled = Ok splits ->
  length splits = Z.to_nat k /\
  Permutation (concat (map snd splits)) (seq 0 n) /\
  Forall (fun s => Permutation (fst s ++ snd s) (seq 0 n)) splits.
Proof.
  intros P H. unfold kfold_split in H.
  destruct (Z.ltb_spec k 2); [discriminate|].
  destruct (Z.ltb_spec (Z.of_nat n) k); [discriminate|].
  apply Ok_inj in H. subst splits.
  assert (N : NoDup shuffled).
  { apply (Permutation_NoDup (Permutation_sym P)), seq_NoDup. }
  assert (I : incl shuffled (seq 0 n)).
  { intros x Hx. now apply (Permutation_in _ P). }
  split; [|split].
  - rewrite length_map, chunks_length. unfold fold_sizes.
    now rewrite length_map, length_seq.
  - rewrite (test_folds_permutation n _ _ N I), concat_chunks.
    rewrite fold_sizes_sum by lia.
    rewrite firstn_all2; [exact P|].
    rewrite (Permutation_length P), length_seq. constructor.
  - apply Forall_forall. intros s Hs. apply in_map_iff in Hs.
    destruct Hs as [f [<- _]]. apply split_of_covers.
Qed.

Lemma two_way_short_table_raises_witness :
  (len four_sales <= 1460)%nat /\
  raises (train_and_test simple_least_squares four_sales 1 []).
Proof.
  assert (H : (len four_sales <= 1460)%nat)
    by (apply Nat.leb_le; vm_compute; reflexivity).
  split; [exact H|].
  exact (two_way_short_table_raises simple_least_squares four_sales [] H).
Defined.

Lemma constant_price_first_draft :
  FirstDraft.select_features constant_price_table = Ok constant_price_table /\
  FirstDraft.train_and_test simple_least_squares constant_price_table
    = Ok 0%R.
Proof.
  split; [vm_compute; reflexivity|].
  rewrite first_draft_unfold.
  unfold fit_and_score.
  assert (E : (features <- feature_columns constant_price_table ;;
               fit_and_mse simple_least_squares features
                 (head_rows 1460 constant_price_table)
                 (tail_rows 1460 constant_price_table)) = Ok (0 # 2))
    by (vm_compute; reflexivity).
  destruct (feature_columns constant_price_table) as [features|];
    cbn [bind] in *; [|discriminate E].
  rewrite E. cbn [bind]. f_equal. unfold np_sqrt, Q2R. simpl.
  rewrite Rmult_0_l. apply sqrt_0.
Qed.

Lemma first_draft_requirements_witness :
  exists sel v,
    FirstDraft.select_features constant_price_table = Ok sel /\
    FirstDraft.train_and_test simple_least_squares sel = Ok v /\
    exists g s,
      getitem "Gr Liv Area" constant_price_table = Ok g /\
      getitem "SalePrice" constant_price_table = Ok s /\
      is_numeric g = true /\ is_numeric s = true /\
      (1460 < len constant_price_table)%nat.
Proof.
  destruct constant_price_first_draft as [S T].
  exists constant_price_table, 0%R. split; [exact S|]. split; [exact T|].
  exact (first_draft_requirements simple_least_squares constant_price_table
           constant_price_table 0%R S T).
Defined.

Lemma kfold_tests_each_row_once_witness :
  exists splits,
    Permutation [0; 2; 1; 3]%nat (seq 0 4) /\
    kfold_split 2 4 [0; 2; 1; 3]%nat = Ok splits /\
    length splits = Z.to_nat 2 /\
    Permutation (concat (map snd splits)) (seq 0 4) /\
    Forall (fun s => Permutation (fst s ++ snd s) (seq 0 4)) splits.
Proof.
  assert (P : Permutation [0; 2; 1; 3]%nat (seq 0 4))
    by (simpl; apply perm_skip, perm_swap).
  destruct (kfold_split 2 4 [0; 2; 1; 3]%nat) as [splits|e] eqn:E.
  - exists splits. split; [exact P|]. split; [reflexivity|].
    exact (kfold_tests_each_row_once 2 4 [0; 2; 1; 3]%nat splits P E).
  - exfalso. vm_compute in E. discriminate E.
Defined.

(** ** Feature selection followed by training *)

Lemma indicator_label_has_separator a b :
  (a ++ "_" ++ b)%string <> "SalePrice"%string.
Proof.
  intros H.
  repeat (destruct a as [|? a]; cbn [String.append] in H;
          [discriminate H | injection H as _ H]).
  destruct a; discriminate H.
Qed.

(** A threshold above 1 breaks the pipeline: the table [select_features]
    returns has no column labelled SalePrice left (unless all prices are
    equal), and [train_and_test] on it is a [KeyError] in every mode. *)
Theorem threshold_above_one_breaks_training
  (least_squares : matrix -> list Q -> Q * list Q) df t u target out k rng :
  getitem "SalePrice" (select_dtypes numeric_kinds df) = Ok target ->
  pearson (scells target) (scells target) <> None ->
  1 < t ->
  select_features df t u = Ok out ->
  train_and_test least_squares out k rng = Raise KeyError.
Proof.
  intros T P L H. unfold select_features in H.
  apply bind_ok in H. destruct H as [a [A H]].
  apply bind_ok in H. destruct H as [b [B H]].
  rewrite (correlation_filter_drop df t target T) in A.
  apply Ok_inj in A. subst a.
  apply cardinality_filter_ok in B. destruct B as [_ [labels [_ Bc]]].
  cbn [columns] in Bc.
  pose proof (target_weakly_correlated df t target T P L) as W.
  apply mem_string_In in W.
  unfold train_and_test. rewrite feature_columns_key_error; [reflexivity|].
  intros I. apply select_dtypes_columns in I. unfold column_names in I.
  apply in_map_iff in I. destruct I as [c [E I]].
  destruct (encode_text_columns_column b out c H I) as [[J _]|[x [_ J]]].
  - rewrite Bc in J. apply filter_In in J. destruct J as [J _].
    apply filter_In in J. destruct J as [_ J].
    rewrite E, W in J. discriminate J.
  - unfold dummies_of in J. apply in_map_iff in J.
    destruct J as [v [<- _]]. cbn [sname] in E.
    exact (indicator_label_has_separator _ _ E).
Qed.

Lemma threshold_above_one_breaks_training_witness :
  exists out,
    select_features street_table 2 default_uniq_threshold = Ok out /\
    train_and_test simple_least_squares out 4 [] = Raise KeyError.
Proof.
  destruct (getitem "SalePrice" (select_dtypes numeric_kinds street_table))
    as [target|e] eqn:T; [|exfalso; vm_compute in T; discriminate T].
  destruct (select_features street_table 2 default_uniq_threshold)
    as [out|e] eqn:E; [|exfalso; vm_compute in E; discriminate E].
  exists out. split; [reflexivity|].
  apply (threshold_above_one_breaks_training simple_least_squares
           street_table 2 default_uniq_threshold target out 4 [] T);
    [|reflexivity|exact E].
  vm_compute in T. apply Ok_inj in T. subst target.
  vm_compute. discriminate.
Defined.

(** ** The two-way mode, row by row *)

Lemma take_nth {A} (d : A) l : forall ps,
  Forall (fun i => i < length l)%nat ps ->
  take ps l = map (fun i => nth i l d) ps.
Proof.
  induction ps as [|i ps IH]; intros H; [reflexivity|].
  inversion H as [|? ? Hi Hps]; subst.
  unfold take in *. cbn [flat_map map]. rewrite (IH Hps).
  destruct (nth_error l i) as [a|] eqn:E.
  - now rewrite (nth_error_nth _ _ d E).
  - apply nth_error_None in E. lia.
Qed.

Lemma firstn_nth {A} (d : A) : forall n l,
  (n <= length l)%nat -> firstn n l = map (fun i => nth i l d) (seq 0 n).
Proof.
  induction n as [|n IH]; intros l H; [reflexivity|].
  destruct l as [|a l]; [simpl in H; lia|].
  cbn [firstn seq map nth]. f_equal.
  rewrite <- seq_shift, map_map. apply IH. simpl in H. lia.
Qed.

Lemma skipn_nth {A} (d : A) : forall n l,
  skipn n l = map (fun i => nth i l d) (seq n (length l - n)).
Proof.
  induction n as [|n IH]; intros l.
  - rewrite Nat.sub_0_r. cbn [skipn].
    induction l as [|a l IHl]; [reflexivity|].
    cbn [length seq map nth]. f_equal.
    rewrite <- seq_shift, map_map. exact IHl.
  - destruct l as [|a l]; [reflexivity|].
    cbn [skipn length]. rewrite Nat.sub_succ, <- seq_shift, map_map.
    apply IH.
Qed.

Ltac in_range :=
  apply Forall_forall;
  let i := fresh "i" in let Hi := fresh "Hi" in
  intros i Hi; apply in_seq in Hi; unfold len in *; lia.

Lemma head_rows_iloc n df :
  well_formed df -> (n <= len df)%nat -> head_rows n df = iloc (seq 0 n) df.
Proof.
  intros W H. unfold head_rows, iloc. f_equal.
  - rewrite (take_nth 0%Z) by in_range.
    now apply firstn_nth.
  - apply map_ext_in. intros c Hc. f_equal.
    assert (L : length (scells c) = len df)
      by (unfold well_formed in W; rewrite Forall_forall in W; now apply W).
    rewrite (take_nth (None : cell)) by in_range.
    apply firstn_nth. lia.
Qed.

Lemma tail_rows_iloc n df :
  well_formed df -> tail_rows n df = iloc (seq n (len df - n)) df.
Proof.
  intros W. unfold tail_rows, iloc. f_equal.
  - rewrite (take_nth 0%Z) by in_range.
    apply skipn_nth.
  - apply map_ext_in. intros c Hc. f_equal.
    assert (L : length (scells c) = len df)
      by (unfold well_formed in W; rewrite Forall_forall in W; now apply W).
    rewrite (take_nth (None : cell)) by in_range.
    rewrite <- L. apply skipn_nth.
Qed.

Lemma getitem_iloc ps l df :
  getitem l (iloc ps df) =
  (c <- getitem l df ;;
   Ok (mkSeries (sname c) (sdtype c) (take ps (scells c)))).
Proof.
  rewrite !getitem_find. unfold iloc. cbn [columns].
  rewrite find_map_same_name by reflexivity.
  now destruct (find (named l) (columns df)).
Qed.

Lemma getitems_iloc ps df : forall cols,
  NoDup (column_names df) -> incl cols (columns df) ->
  getitems (map sname cols) (iloc ps df) =
  Ok (map (fun c => mkSeries (sname c) (sdtype c) (take ps (scells c))) cols).
Proof.
  intros cols N. induction cols as [|c cols IH]; intros I; [reflexivity|].
  cbn [map getitems]. rewrite getitem_iloc.
  rewrite (getitem_unique df c N) by (apply I; now left). cbn [bind].
  rewrite IH by (intros x Hx; apply I; now right). reflexivity.
Qed.

Lemma transpose_nth {A} (d : A) : forall n cols,
  transpose n cols d = map (fun i => map (fun c => nth i c d) cols) (seq 0 n).
Proof.
  induction n as [|n IH]; intros cols; [reflexivity|].
  cbn [transpose seq map]. f_equal.
  - apply map_ext. intros c. now destruct c.
  - rewrite IH, <- seq_shift, !map_map. apply map_ext. intros i.
    rewrite map_map. apply map_ext. intros c. now destruct c, i.
Qed.

Lemma traverse_map {A B} (f : A -> result B) (g : A -> B) : forall l,
  (forall a, In a l -> f a = Ok (g a)) -> traverse f l = Ok (map g l).
Proof.
  induction l as [|a l IH]; intros H; [reflexivity|].
  cbn [traverse map]. rewrite (H a) by now left. cbn [bind].
  rewrite IH by (intros x Hx; apply H; now right). reflexivity.
Qed.

Lemma map_nth_seq {A B} (f : A -> B) (d : A) : forall l,
  map (fun j => f (nth j l d)) (seq 0 (length l)) = map f l.
Proof.
  induction l as [|a l IH]; [reflexivity|].
  cbn [length seq map nth]. f_equal.
  rewrite <- seq_shift, map_map. exact IH.
Qed.

Lemma finite_number c : is_number c = true -> finite c = Ok (cell_number c).
Proof. destruct c as [[q|s]|]; [reflexivity | discriminate | discriminate]. Qed.

Lemma numbers_only_cell df c i :
  numbers_only df = true -> In c (columns df) -> is_numeric c = true ->
  (i < length (scells c))%nat ->
  is_number (nth i (scells c) None) = true.
Proof.
  intros H I K L. unfold numbers_only in H. rewrite forallb_forall in H.
  specialize (H c I). rewrite K in H. cbn [negb orb] in H.
  rewrite forallb_forall in H. apply H. now apply nth_In.
Qed.

Lemma regressors_In df c :
  In c (regressors df) -> In c (columns df) /\ is_numeric c = true.
Proof.
  unfold regressors. intros H. apply filter_In in H. destruct H as [H K].
  apply andb_prop in K. tauto.
Qed.

Lemma feature_columns_regressors df price :
  getitem "SalePrice" df = Ok price -> is_numeric price = true ->
  feature_columns df = Ok (map sname (regressors df)).
Proof.
  intros G K. apply getitem_ok in G. destruct G as [I E].
  unfold feature_columns, drop_label.
  assert (M : mem_string "SalePrice"
                (column_names (select_dtypes numeric_kinds df)) = true).
  { apply mem_string_In. unfold column_names, select_dtypes. cbn [columns].
    rewrite <- E. apply in_map, filter_In. split; [exact I | exact K]. }
  rewrite M. f_equal. unfold column_names, select_dtypes, regressors.
  cbn [columns]. fold is_numeric. clear I M.
  induction (columns df) as [|c cols IH]; [reflexivity|].
  cbn [filter]. change (existsb (dtype_eqb (sdtype c)) numeric_kinds)
    with (is_numeric c).
  destruct (is_numeric c); cbn [andb map filter sname]; [|exact IH].
  destruct (negb ("SalePrice" =? sname c)%string); cbn [map]; now rewrite IH.
Qed.

Section TwoWay.

Variable least_squares : matrix -> list Q -> Q * list Q.
Variable df : frame.
Variable price : series.

Hypothesis solver : one_coefficient_per_feature least_squares.
Hypothesis shape : well_formed df.
Hypothesis labels : NoDup (column_names df).
Hypothesis target : getitem "SalePrice" df = Ok price.
Hypothesis numeric_target : is_numeric price = true.
Hypothesis some_feature : regressors df <> [].
Hypothesis numbers : numbers_only df = true.

Local Abbreviation cols := (regressors df).

Lemma column_length c : In c (columns df) -> length (scells c) = len df.
Proof.
  intros H. unfold well_formed in shape. rewrite Forall_forall in shape.
  now apply shape.
Qed.

Lemma part_cell ps c j :
  In c (columns df) -> Forall (fun i => i < len df)%nat ps ->
  (j < length ps)%nat ->
  nth j (take ps (scells c)) None = nth (nth j ps 0%nat) (scells c) None.
Proof.
  intros Ic R Hj.
  assert (Rc : Forall (fun i => i < length (scells c))%nat ps)
    by now rewrite (column_length c Ic).
  rewrite (take_nth (None : cell)) by exact Rc.
  rewrite (nth_indep _ None (nth 0%nat (scells c) None))
    by (rewrite length_map; lia).
  now rewrite (map_nth (fun i => nth i (scells c) None)).
Qed.

Lemma check_array_rows ps :
  ps <> [] -> Forall (fun i => i < len df)%nat ps ->
  check_array
    (mkFrame (take ps (index df))
       (map (fun c => mkSeries (sname c) (sdtype c) (take ps (scells c))) cols))
  = Ok (map (features_at cols) ps).
Proof.
  intros Ne R. unfold check_array, len. cbn [index columns].
  rewrite (take_nth 0%Z) by exact R. rewrite length_map.
  rewrite transpose_nth.
  assert (T : map (fun i => map (fun c : list cell => nth i c None)
                              (map scells
                                 (map (fun c => mkSeries (sname c) (sdtype c) (take ps (scells c))) cols)))
                  (seq 0 (length ps))
              = map (fun i => map (fun c => nth i (scells c) None) cols) ps).
  { rewrite <- (map_nth_seq
                  (fun i => map (fun c => nth i (scells c) None) cols)
                  0%nat ps).
    apply map_ext_in. intros j Hj. apply in_seq in Hj.
    rewrite !map_map. cbn [scells].
    apply map_ext_in. intros c Hc.
    apply part_cell; [now apply regressors_In in Hc | exact R | lia]. }
  rewrite T.
  rewrite (traverse_map _ (fun row => map cell_number row)).
  2:{ intros row Hrow. apply traverse_map. intros x Hx.
      apply finite_number.
      apply in_map_iff in Hrow. destruct Hrow as [i [<- Hi]].
      apply in_map_iff in Hx. destruct Hx as [c [<- Hc]].
      destruct (regressors_In df c Hc) as [Ic Kc].
      apply (numbers_only_cell df c _ numbers Ic Kc).
      rewrite (column_length c Ic).
      rewrite Forall_forall in R. now apply R. }
  cbn [bind].
  assert (E : map (fun row => map cell_number row)
                (map (fun i => map (fun c => nth i (scells c) None) cols) ps)
              = map (features_at cols) ps).
  { rewrite map_map. apply map_ext. intros i.
    unfold features_at. now rewrite map_map. }
  rewrite E.
  destruct ps as [|p ps]; [contradiction|].
  destruct cols as [|c cs]; [contradiction | reflexivity].
Qed.

Lemma target_In : In price (columns df) /\ sname price = "SalePrice"%string.
Proof. now apply getitem_ok. Qed.

Lemma check_vector_rows ps :
  ps <> [] -> Forall (fun i => i < len df)%nat ps ->
  check_vector (take ps (scells price)) = Ok (map (price_at price) ps).
Proof.
  intros Ne R. destruct target_In as [I _].
  assert (Rc : Forall (fun i => i < length (scells price))%nat ps)
    by now rewrite (column_length price I).
  unfold check_vector. rewrite (take_nth (None : cell)) by exact Rc.
  rewrite (traverse_map _ cell_number).
  2:{ intros x Hx. apply finite_number.
      apply in_map_iff in Hx. destruct Hx as [i [<- Hi]].
      apply (numbers_only_cell df price _ numbers I numeric_target).
      rewrite Forall_forall in Rc. now apply Rc. }
  cbn [bind]. rewrite map_map. fold (price_at price).
  destruct ps as [|p ps]; [contradiction | reflexivity].
Qed.

Lemma combine_map_map {A B C} (f : A -> B) (g : A -> C) : forall l,
  combine (map f l) (map g l) = map (fun a => (f a, g a)) l.
Proof. induction l as [|a l IH]; [reflexivity|]. simpl. now rewrite IH. Qed.

(** The mean squared error the code computes for two parts of the table
    given by positions is the one of the specification. *)
Lemma fit_and_mse_rows train test :
  train <> [] -> test <> [] ->
  Forall (fun i => i < len df)%nat train ->
  Forall (fun i => i < len df)%nat test ->
  fit_and_mse least_squares (map sname cols) (iloc train df) (iloc test df)
  = Ok (mse_on least_squares cols price train test).
Proof.
  intros Ne1 Ne2 R1 R2. destruct target_In as [I N].
  assert (Sub : incl cols (columns df)).
  { intros c Hc. now apply regressors_In in Hc. }
  unfold fit_and_mse, getframe.
  rewrite !(getitems_iloc _ df cols labels Sub). cbn [bind].
  rewrite !getitem_iloc, target. cbn [bind].
  change (index (iloc train df)) with (take train (index df)).
  change (index (iloc test df)) with (take test (index df)).
  unfold fit. rewrite (check_array_rows train Ne1 R1). cbn [bind scells].
  rewrite (check_vector_rows train Ne1 R1). cbn [bind].
  rewrite !length_map, Nat.eqb_refl.
  unfold mse_on.
  pose proof (solver (map (features_at cols) train)
                     (map (price_at price) train)) as Sh.
  destruct (least_squares (map (features_at cols) train)
                          (map (price_at price) train)) as [b w].
  cbn [bind snd] in *.
  unfold predict. rewrite (check_array_rows test Ne2 R2). cbn [bind].
  cbn [columns coef intercept].
  assert (Lw : length cols = length w).
  { symmetry. rewrite Sh.
    - destruct train as [|p ps]; [contradiction|].
      cbn [map hd]. unfold features_at. now rewrite length_map.
    - destruct train as [|p ps]; [contradiction|].
      cbn [map hd]. unfold features_at.
      destruct cols; [contradiction | discriminate]. }
  rewrite length_map, Lw, Nat.eqb_refl. cbn [bind].
  unfold mean_squared_error. cbn [scells].
  rewrite (check_vector_rows test Ne2 R2). cbn [bind].
  rewrite !length_map, Nat.eqb_refl. f_equal.
  unfold mean_squared. rewrite map_map, combine_map_map, map_map.
  cbn [fst snd]. unfold Qlen. now rewrite length_map.
Qed.

End TwoWay.

Lemma np_mean_two a b : np_mean [a; b] = ((a + b) / 2)%R.
Proof. unfold np_mean, Rsum. simpl. lra. Qed.

(** C8, as the code has it.  On a table of more than 1460 rows with
    distinct labels, a numeric SalePrice, at least one other numeric column
    and a number in every numeric cell, the call with k = 1 returns the
    mean of two RMSEs: that of the least-squares fit on the rows at the
    positions 0..1459, taken over the rows from position 1460 on, and that
    of the fit on the latter, taken over the former; the positions are
    those of the table as it is passed.  The shuffled copy is not used:
    whatever the shuffle, the result is the same. *)
Theorem two_way_is_unshuffled_mean least_squares df price rng :
  one_coefficient_per_feature least_squares ->
  well_formed df ->
  NoDup (column_names df) ->
  (1460 < len df)%nat ->
  getitem "SalePrice" df = Ok price ->
  is_numeric price = true ->
  regressors df <> [] ->
  numbers_only df = true ->
  train_and_test least_squares df 1 rng
  = Ok (two_way_cross_check least_squares df price) /\
  forall rng',
    train_and_test least_squares df 1 rng'
    = train_and_test least_squares df 1 rng.
Proof.
  intros S W N L T K F C. split; [|reflexivity].
  unfold train_and_test.
  rewrite (feature_columns_regressors df price T K). cbn [bind].
  change (1 =? 0)%Z with false. change (1 =? 1)%Z with true. cbv iota.
  rewrite (head_rows_iloc 1460 df W) by lia.
  rewrite (tail_rows_iloc 1460 df W).
  assert (Ne1 : seq 0 1460 <> []) by discriminate.
  assert (Ne2 : seq 1460 (len df - 1460) <> []).
  { destruct (len df - 1460)%nat eqn:E; [lia | discriminate]. }
  assert (R1 : Forall (fun i => i < len df)%nat (seq 0 1460)) by in_range.
  assert (R2 : Forall (fun i => i < len df)%nat (seq 1460 (len df - 1460)))
    by in_range.
  unfold fit_and_score.
  rewrite (fit_and_mse_rows least_squares df price S W N T K F C
             _ _ Ne1 Ne2 R1 R2).
  cbn [bind].
  rewrite (fit_and_mse_rows least_squares df price S W N T K F C
             _ _ Ne2 Ne1 R2 R1).
  cbn [bind]. rewrite np_mean_two. reflexivity.
Qed.

Lemma simple_least_squares_shape :
  one_coefficient_per_feature simple_least_squares.
Proof.
  intros X y H. unfold simple_least_squares. cbn [snd length].
  rewrite repeat_length. destruct (hd [] X); [contradiction|]. simpl. lia.
Qed.

(** In the example the first of the two mean squared errors is 2500: the
    line fitted to the first 1460 sales misses each of the last two prices
    by 50. *)
Lemma numbered_sales_first_score :
  (price <- getitem "SalePrice" numbered_sales ;;
   Ok (Qeq_bool
         (mse_on simple_least_squares (regressors numbered_sales) price
            (seq 0 1460) (seq 1460 (len numbered_sales - 1460)))
         2500))
  = Ok true.
Proof. vm_compute. reflexivity. Qed.

Lemma two_way_is_unshuffled_mean_witness :
  (1460 < len numbered_sales)%nat /\
  numbers_only numbered_sales = true /\
  exists price,
    getitem "SalePrice" numbered_sales = Ok price /\
    train_and_test simple_least_squares numbered_sales 1 []
    = Ok (two_way_cross_check simple_least_squares numbered_sales price) /\
    train_and_test simple_least_squares numbered_sales 1 [1; 0]%nat
    = train_and_test simple_least_squares numbered_sales 1 [].
Proof.
  assert (L : (1460 < len numbered_sales)%nat)
    by (apply Nat.ltb_lt; vm_compute; reflexivity).
  assert (C : numbers_only numbered_sales = true) by (vm_compute; reflexivity).
  split; [exact L|]. split; [exact C|].
  destruct (getitem "SalePrice" numbered_sales) as [price|e] eqn:T;
    [|exfalso; vm_compute in T; discriminate T].
  exists price. split; [reflexivity|].
  assert (W : well_formed numbered_sales).
  { apply Forall_cons; [vm_compute; reflexivity|].
    apply Forall_cons; [vm_compute; reflexivity|]. apply Forall_nil. }
  assert (N : NoDup (column_names numbered_sales)).
  { apply NoDup_cons.
    - simpl. intros [H|H]; [discriminate H | exact H].
    - apply NoDup_cons; [simpl; tauto | apply NoDup_nil]. }
  assert (K : is_numeric price = true).
  { vm_compute in T. apply Ok_inj in T. subst price. reflexivity. }
  assert (F : regressors numbered_sales <> []).
  { intros E. apply (f_equal (@length _)) in E. vm_compute in E.
    discriminate E. }
  destruct (two_way_is_unshuffled_mean simple_least_squares numbered_sales
              price [] simple_least_squares_shape W N L T K F C) as [V I].
  split; [exact V | exact (I [1; 0]%nat)].
Defined.

(** C8, counterexample.  1462 sales, the living area of the first one
    unknown: the table has more than 1460 rows, and the call with k = 1
    ends in a [ValueError] instead of returning a mean of two RMSEs. *)
Lemma two_way_unknown_area_raises :
  Nat.ltb 1460 (len unknown_area_table) = true /\
  train_and_test simple_least_squares unknown_area_table 1 []
  = Raise ValueError.
Proof. split; vm_compute; reflexivity. Qed.
